(** * issue-sync: reconciliation and markup translation (lib/issues.go)

    A shallow embedding of [lib/issues.go] and of the parts of [cfg] it
    calls, together with the properties of the reconciliation pass and of
    the GitHub-to-JIRA markup translator.

    Layout:
    - [GoString]   Go strings as byte strings, UTF-8 decoding of runes;
    - [Regexp]     the fragment of Go's [regexp] package used by the
                   translator: leftmost-first matching, [ReplaceAllString]
                   and template expansion;
    - [Markup]     [GitHubToJiraBody] and its twenty-two patterns;
    - [github], [jira], [cfg]  the records of the two trackers and the
                   configuration object;
    - [Sync]       [CompareIssues], [DidIssueChange], [UpdateIssue],
                   [CreateIssue] over a trace of tracker calls;
    - [Setup], [Validate]  the parts of [cfg] that build the
                   configuration: [getFieldIDs], [GetRepo],
                   [validateConfig], [LoadJIRAConfig];
    - [GoStringFacts], [RegexpFacts], [MarkupFacts], [SyncFacts]
                   the properties, C1 to C10 among them;
    - [SpanFacts], [LineFacts]  further properties of the translator,
                   span by span and line by line, C5 among the latter;
    - [PassFacts], [SetupFacts]  further properties of the pass and of
                   the configuration; the further properties are X1 to
                   X29. *)

From Stdlib Require Import ZArith Ascii String List Bool Lia.
From Stdlib Require Import DecimalString DecimalZ.
From stdpp Require Import base option gmap strings.
Import ListNotations.

Set Default Proof Using "Type".

(* ===================================================================== *)
(** * Go strings *)
(* ===================================================================== *)

Module GoString.

(** A Go [string] is a sequence of bytes; [ascii] is the byte type. *)
Definition byteZ (c : ascii) : Z := Z.of_N (N_of_ascii c).

(** [s[a:b]] for [a <= b <= len(s)]. *)
Definition slice (s : string) (a b : nat) : string := substring a (b - a) s.

(** [s[a:]]. *)
Fixpoint drop (a : nat) (s : string) : string :=
  match a, s with
  | O, _ => s
  | S a', String _ s' => drop a' s'
  | S _, EmptyString => EmptyString
  end.

Definition NL : Z := 10.
Definition RuneError : Z := 65533.

(** [utf8.acceptRanges] selected by the first byte: the bounds on the
    second byte of a multi-byte sequence. *)
Definition acceptRange (s0 : Z) : Z * Z :=
  if (s0 =? 224)%Z then (160, 191)%Z
  else if (s0 =? 237)%Z then (128, 159)%Z
  else if (s0 =? 240)%Z then (144, 191)%Z
  else if (s0 =? 244)%Z then (128, 143)%Z
  else (128, 191)%Z.

Definition cont_byte (b : Z) : bool := (128 <=? b)%Z && (b <=? 191)%Z.

(** [utf8.DecodeRuneInString]: the first rune of [s] and its width in
    bytes; an invalid or truncated encoding is [RuneError] of width 1, the
    empty string is [RuneError] of width 0. *)
Definition DecodeRuneInString (s : string) : Z * nat :=
  match s with
  | EmptyString => (RuneError, 0)
  | String c0 t0 =>
    let s0 := byteZ c0 in
    if (s0 <? 128)%Z then (s0, 1)
    else if (s0 <? 194)%Z || (244 <? s0)%Z then (RuneError, 1)
    else
      let sz := if (s0 <? 224)%Z then 2 else if (s0 <? 240)%Z then 3 else 4 in
      let '(lo, hi) := acceptRange s0 in
      if (String.length s <? sz)%nat then (RuneError, 1)
      else match t0 with
      | EmptyString => (RuneError, 1)
      | String c1 t1 =>
        let s1 := byteZ c1 in
        if (s1 <? lo)%Z || (hi <? s1)%Z then (RuneError, 1)
        else if (sz <=? 2)%nat
        then (Z.lor (Z.shiftl (Z.land s0 31) 6) (Z.land s1 63), 2)
        else match t1 with
        | EmptyString => (RuneError, 1)
        | String c2 t2 =>
          let s2 := byteZ c2 in
          if negb (cont_byte s2) then (RuneError, 1)
          else if (sz <=? 3)%nat
          then (Z.lor (Z.lor (Z.shiftl (Z.land s0 15) 12)
                             (Z.shiftl (Z.land s1 63) 6))
                      (Z.land s2 63), 3)
          else match t2 with
          | EmptyString => (RuneError, 1)
          | String c3 _ =>
            let s3 := byteZ c3 in
            if negb (cont_byte s3) then (RuneError, 1)
            else (Z.lor (Z.lor (Z.lor (Z.shiftl (Z.land s0 7) 18)
                                      (Z.shiftl (Z.land s1 63) 12))
                               (Z.shiftl (Z.land s2 63) 6))
                        (Z.land s3 63), 4)
          end
        end
      end
  end.

(** A rune of the input with its width in bytes. *)
Definition tok : Type := Z * nat.

(** The runes of [s] in order, as the matcher meets them when it decodes
    one rune after the other from the start of the string; [skip] bytes
    belong to the rune decoded last. *)
Fixpoint runes_from (skip : nat) (s : string) : list tok :=
  match s with
  | EmptyString => []
  | String _ s' =>
    match skip with
    | S k => runes_from k s'
    | O => let rw := DecodeRuneInString s in rw :: runes_from (snd rw - 1) s'
    end
  end.

Definition runes (s : string) : list tok := runes_from 0 s.

(** [strings.Join]. *)
Fixpoint Join (l : list string) (sep : string) : string :=
  match l with
  | [] => ""
  | [x] => x
  | x :: rest => x +:+ sep +:+ Join rest sep
  end.

(** The number of bytes that the runes of [s] take. *)
Fixpoint widths (s : list tok) : nat :=
  match s with
  | [] => 0
  | (_, w) :: s' => w + widths s'
  end.

(** No byte of [s] is [c]. *)
Fixpoint avoids (c : ascii) (s : string) : bool :=
  match s with
  | EmptyString => true
  | String b s' => negb (Ascii.eqb b c) && avoids c s'
  end.

(** No rune of [s] is the ASCII byte [c]. *)
Definition nochar (c : ascii) (s : list tok) : Prop :=
  Forall (fun t => fst t <> byteZ c) s.

(** A byte below [utf8.RuneSelf]: a rune of its own. *)
Definition is_ascii (c : ascii) : bool := (byteZ c <? 128)%Z.

(** The byte of a line feed. *)
Definition newline : ascii := "010"%char.

(** The last byte of [s] as a rune, or [prev] when [s] is empty. *)
Fixpoint last_byte (prev : option Z) (s : string) : option Z :=
  match s with
  | EmptyString => prev
  | String c s' => last_byte (Some (byteZ c)) s'
  end.

(** Every byte of [s] is ASCII. *)
Fixpoint all_ascii (s : string) : bool :=
  match s with
  | EmptyString => true
  | String c s' => is_ascii c && all_ascii s'
  end.


(** [strings.Count(s, string(c))] for a byte [c]. *)
Fixpoint Count (s : string) (c : ascii) : nat :=
  match s with
  | EmptyString => 0
  | String b s' => (if Ascii.eqb b c then 1 else 0) + Count s' c
  end.

End GoString.

(* ===================================================================== *)
(** * The fragment of Go's regexp package used by the translator *)
(* ===================================================================== *)

Module Regexp.
Import GoString.

(** Character classes of the patterns. *)
Inductive cclass :=
| CLit (c : ascii)   (* a literal byte of the pattern, all of them ASCII *)
| CDot               (* [.] without the s flag: any rune but newline *)
| CAll               (* [[\s\S]]: any rune *)
| CWord              (* [\w]: [0-9A-Za-z_] *)
| CSpace.            (* [\s]: [\t\n\f\r ] *)

Definition in_class (c : cclass) (r : Z) : bool :=
  match c with
  | CLit a => (r =? byteZ a)%Z
  | CDot => negb (r =? NL)%Z
  | CAll => true
  | CWord => ((48 <=? r) && (r <=? 57) || (65 <=? r) && (r <=? 90)
              || (97 <=? r) && (r <=? 122) || (r =? 95))%Z
  | CSpace => ((r =? 9) || (r =? 10) || (r =? 12) || (r =? 13) || (r =? 32))%Z
  end.

(** Syntax trees of the patterns.  Repetition is applied to single-rune
    classes only, which is all the patterns of this program use. *)
Inductive regex :=
| Chr (c : cclass)
| Star (c : cclass)       (* [c*] *)
| Plus (c : cclass)       (* [c+] *)
| Bol                     (* [^] *)
| Eol                     (* [$] *)
| Group (n : nat) (r : regex)
| Cat (r1 r2 : regex)
| Eps.

(** The flags of a leading [(?flags)] group: [m] makes [^] and [$] match
    at line boundaries, [U] swaps greedy and non-greedy repetition. *)
Record Regexp := MustCompile {
  flag_m : bool;
  flag_U : bool;
  prog : regex;
}.

(** Submatches found so far: group index, start and end offset. *)
Definition caps : Type := list (nat * (nat * nat)).

Fixpoint cap (n : nat) (cs : caps) : option (nat * nat) :=
  match cs with
  | [] => None
  | (i, se) :: cs' => if (i =? n)%nat then Some se else cap n cs'
  end.

Section Matcher.
Context {R : Type}.

(** A continuation receives the rune before the position (none at the
    start of the text), the runes ahead, the byte offset and the
    submatches. *)
Definition cont : Type := option Z -> list tok -> nat -> caps -> option R.

(** Repetition with the priorities of a backtracking search: a greedy
    star first tries one more rune, a non-greedy one first tries to go
    on with the rest of the pattern. *)
Fixpoint star (greedy : bool) (c : cclass) (prev : option Z) (s : list tok)
    (pos : nat) (cs : caps) (k : cont) {struct s} : option R :=
  match s with
  | (r, w) :: s' =>
    if in_class c r then
      if greedy then
        match star greedy c (Some r) s' (pos + w) cs k with
        | Some x => Some x
        | None => k prev s pos cs
        end
      else
        match k prev s pos cs with
        | Some x => Some x
        | None => star greedy c (Some r) s' (pos + w) cs k
        end
    else k prev s pos cs
  | [] => k prev s pos cs
  end.

Definition at_bol (m : bool) (prev : option Z) : bool :=
  match prev with
  | None => true
  | Some r => m && (r =? NL)%Z
  end.

Definition at_eol (m : bool) (s : list tok) : bool :=
  match s with
  | [] => true
  | (r, _) :: _ => m && (r =? NL)%Z
  end.

Fixpoint exec (m U : bool) (re : regex) (prev : option Z) (s : list tok)
    (pos : nat) (cs : caps) (k : cont) {struct re} : option R :=
  match re with
  | Chr c =>
    match s with
    | (r, w) :: s' => if in_class c r then k (Some r) s' (pos + w) cs else None
    | [] => None
    end
  | Star c => star (negb U) c prev s pos cs k
  | Plus c =>
    match s with
    | (r, w) :: s' =>
      if in_class c r then star (negb U) c (Some r) s' (pos + w) cs k else None
    | [] => None
    end
  | Bol => if at_bol m prev then k prev s pos cs else None
  | Eol => if at_eol m s then k prev s pos cs else None
  | Group n r =>
    exec m U r prev s pos cs
      (fun p' s' pos' cs' => k p' s' pos' ((n, (pos, pos')) :: cs'))
  | Cat r1 r2 =>
    exec m U r1 prev s pos cs (fun p' s' pos' cs' => exec m U r2 p' s' pos' cs' k)
  | Eps => k prev s pos cs
  end.
End Matcher.

(** A match: start offset, end offset, submatches. *)
Definition match_t : Type := nat * nat * caps.

Definition match_at (re : Regexp) (prev : option Z) (s : list tok) (pos : nat)
  : option match_t :=
  exec (flag_m re) (flag_U re) (prog re) prev s pos []
       (fun _ _ e cs => Some (pos, e, cs)).

(** Leftmost match at or after the current position; among the matches at
    one position [exec] returns the one of highest priority. *)
Fixpoint search (re : Regexp) (prev : option Z) (s : list tok) (pos : nat)
  : option match_t :=
  match match_at re prev s pos with
  | Some a => Some a
  | None =>
    match s with
    | [] => None
    | (r, w) :: s' => search re (Some r) s' (pos + w)
    end
  end.

(** Move to byte offset [target]. *)
Fixpoint seek (prev : option Z) (s : list tok) (pos target : nat)
  : option Z * list tok * nat :=
  if (target <=? pos)%nat then (prev, s, pos)
  else match s with
  | [] => (prev, [], pos)
  | (r, w) :: s' => seek (Some r) s' (pos + w) target
  end.

(** [re.doExecute(nil, nil, src, pos, ...)]: the leftmost-first match of
    [re] in [src] that starts at or after [pos]. *)
Definition doExecute (re : Regexp) (src : string) (pos : nat) : option match_t :=
  let '(prev, s, p) := seek None (runes src) 0 pos in
  search re prev s p.

(** ** Template expansion *)

Definition isDigit (c : ascii) : bool :=
  let z := byteZ c in ((48 <=? z) && (z <=? 57))%Z.

(** [unicode.IsLetter(r) || unicode.IsDigit(r) || r == '_'] on the bytes of
    a template; the templates of this program are ASCII. *)
Definition isNameByte (c : ascii) : bool :=
  let z := byteZ c in
  ((48 <=? z) && (z <=? 57) || (65 <=? z) && (z <=? 90)
   || (97 <=? z) && (z <=? 122) || (z =? 95))%Z.

(** The longest prefix of name bytes, and the rest. *)
Fixpoint span_name (s : string) : string * string :=
  match s with
  | EmptyString => ("", "")
  | String c s' =>
    if isNameByte c then let '(n, r) := span_name s' in (String c n, r)
    else ("", s)
  end.

(** The number a name denotes: [None] (Go's -1) unless every byte is a
    digit; a leading zero is not allowed in a name longer than one byte. *)
Fixpoint parse_num (acc : N) (name : string) : option nat :=
  match name with
  | EmptyString => Some (N.to_nat acc)
  | String c rest =>
    if isDigit c && (acc <? 100000000)%N
    then parse_num (acc * 10 + (N_of_ascii c - 48))%N rest
    else None
  end.

(** [extract]: the name after a [$], bare or in braces, the number it
    denotes and the rest of the template; [None] when malformed. *)
Definition extract (str : string) : option (string * option nat * string) :=
  match str with
  | EmptyString => None
  | String c0 tl =>
    let brace := Ascii.eqb c0 "{" in
    let body := if brace then tl else str in
    let '(name, rest) := span_name body in
    match name with
    | EmptyString => None
    | String n0 ntl =>
      let num := if Ascii.eqb n0 "0" && negb (String.length name =? 1)%nat
                 then None else parse_num 0 name in
      if brace then
        match rest with
        | String "}" rest' => Some (name, num, rest')
        | _ => None
        end
      else Some (name, num, rest)
    end
  end.

(** [strings.Index(template, "$")]: the text before the first dollar and
    the text after it. *)
Fixpoint cut_dollar (s : string) : option (string * string) :=
  match s with
  | EmptyString => None
  | String c s' =>
    if Ascii.eqb c "$" then Some ("", s')
    else match cut_dollar s' with
         | Some (b, a) => Some (String c b, a)
         | None => None
         end
  end.

(** [re.expand]: the template with each [$name] replaced by the submatch
    it denotes.  A numeric name out of range or unmatched, and any other
    name (the patterns of this program have no named groups), expand to
    the empty string.  Each round takes at least one byte off the
    template, so its length is fuel enough. *)
Fixpoint expand (fuel : nat) (template src : string) (cs : caps) : string :=
  match fuel with
  | O => template
  | S f =>
    match cut_dollar template with
    | None => template
    | Some (before, after) =>
      match after with
      | String "$" rest => before +:+ "$" +:+ expand f rest src cs
      | _ =>
        match extract after with
        | None => before +:+ "$" +:+ expand f after src cs
        | Some (_, num, rest) =>
          let sub :=
            match num with
            | Some n => match cap n cs with
                        | Some (a, b) => slice src a b
                        | None => ""
                        end
            | None => ""
            end in
          before +:+ sub +:+ expand f rest src cs
        end
      end
    end
  end.

(** ** ReplaceAllString *)

(** The loop of [re.replaceAll].  [searchPos] starts at 0 and grows by at
    least one each round, so after [len(src) + 1] rounds it is beyond the
    end of [src] and the loop has ended: what is left to do then is what
    is done when the fuel runs out. *)
Fixpoint replaceAll_loop (fuel : nat) (re : Regexp) (src repl : string)
    (lastMatchEnd searchPos : nat) (buf : string) : string :=
  match fuel with
  | O => buf +:+ drop lastMatchEnd src
  | S f =>
    if (searchPos <=? String.length src)%nat then
      match doExecute re src searchPos with
      | None => buf +:+ drop lastMatchEnd src
      | Some (a0, a1, cs) =>
        let buf := buf +:+ slice src lastMatchEnd a0 in
        let buf :=
          if (lastMatchEnd <? a1)%nat || (a0 =? 0)%nat
          then buf +:+ expand (String.length repl) repl src ((0, (a0, a1)) :: cs)
          else buf in
        let width := snd (DecodeRuneInString (drop searchPos src)) in
        let searchPos' :=
          if (a1 <? searchPos + width)%nat then searchPos + width
          else if (a1 <? searchPos + 1)%nat then searchPos + 1
          else a1 in
        replaceAll_loop f re src repl a1 searchPos' buf
      end
    else buf +:+ drop lastMatchEnd src
  end.

Definition ReplaceAllString (re : Regexp) (src repl : string) : string :=
  replaceAll_loop (S (String.length src)) re src repl 0 0 "".

(** The pattern of the examples in the documentation of
    [Regexp.ReplaceAllString]: an [a], any number of [x] as group 1, a
    [b]; no flags. *)
Definition doc_pattern : Regexp :=
  MustCompile false false
    (Cat (Chr (CLit "a")) (Cat (Group 1 (Star (CLit "x"))) (Chr (CLit "b")))).

(** ** Notions used to state what the matcher does *)

(** The literal [c] lies on every path through [re]. *)
Fixpoint requires (c : ascii) (re : regex) : bool :=
  match re with
  | Chr (CLit a) => Ascii.eqb a c
  | Group _ r => requires c r
  | Cat r1 r2 => requires c r1 || requires c r2
  | _ => false
  end.

(** A continuation that fails on every input without the byte [c]. *)
Definition fails_without {R : Type} (c : ascii) (k : @cont R) : Prop :=
  forall p s pos cs, nochar c s -> k p s pos cs = None.

(** The pattern starts with [^]. *)
Definition begins_bol (re : Regexp) : bool :=
  match prog re with
  | Cat Bol _ => true
  | _ => false
  end.

(** The rune before the end of [s], when the rune before [s] is [prev]. *)
Fixpoint last_rune (prev : option Z) (s : list tok) : option Z :=
  match s with
  | [] => prev
  | (r, _) :: s' => last_rune (Some r) s'
  end.


(** ** Notions used to state what a non-greedy pattern does *)

(** The least number of literal bytes [c] on a path through [re]. *)
Fixpoint min_lits (c : ascii) (re : regex) : nat :=
  match re with
  | Chr (CLit a) => if Ascii.eqb a c then 1 else 0
  | Group _ r => min_lits c r
  | Cat r1 r2 => min_lits c r1 + min_lits c r2
  | _ => 0
  end.

(** The number of runes of [s] that are the ASCII byte [c]. *)
Fixpoint occ (c : ascii) (s : list tok) : nat :=
  match s with
  | [] => 0
  | (r, _) :: s' => (if (r =? byteZ c)%Z then 1 else 0) + occ c s'
  end.

(** A continuation that fails on every input with fewer than [n] runes
    [c]. *)
Definition fails_below {R : Type} (c : ascii) (n : nat) (k : @cont R) : Prop :=
  forall p s pos cs, occ c s < n -> k p s pos cs = None.

(** A continuation that fails unless the next rune is the byte [c]. *)
Definition needs_next {R : Type} (c : ascii) (k : @cont R) : Prop :=
  forall p r w s pos cs, r <> byteZ c -> k p ((r, w) :: s) pos cs = None.

(** The runes of an ASCII string. *)
Definition toks (s : string) : list tok :=
  map (fun c => (byteZ c, 1)) (list_ascii_of_string s).

End Regexp.

(* ===================================================================== *)
(** * The markup translator *)
(* ===================================================================== *)

Module Markup.
Import GoString Regexp.

(** A literal of the pattern, byte after byte. *)
Fixpoint lit (s : string) : regex :=
  match s with
  | EmptyString => Eps
  | String c EmptyString => Chr (CLit c)
  | String c s' => Cat (Chr (CLit c)) (lit s')
  end.

(** A sequence of pattern items. *)
Definition seq (l : list regex) : regex := fold_right Cat Eps l.

(** The patterns, item by item as the source writes them.  Under [(?U)]
    every [*] and [+] is non-greedy; [[\s\S]] is the class of all runes;
    an escaped punctuation byte stands for itself. *)

(** Headings *)
(* issues.go:246   (?m)  ^  ######_  ( .* )  $      with _ a space *)
Definition regexH6 := MustCompile true false (seq [Bol; lit "###### "; Group 1 (Star CDot); Eol]).
(* issues.go:247   (?m)  ^  #####_  ( .* )  $ *)
Definition regexH5 := MustCompile true false (seq [Bol; lit "##### "; Group 1 (Star CDot); Eol]).
(* issues.go:248   (?m)  ^  ####_  ( .* )  $ *)
Definition regexH4 := MustCompile true false (seq [Bol; lit "#### "; Group 1 (Star CDot); Eol]).
(* issues.go:249   (?m)  ^  ###_  ( .* )  $ *)
Definition regexH3 := MustCompile true false (seq [Bol; lit "### "; Group 1 (Star CDot); Eol]).
(* issues.go:250   (?m)  ^  ##_  ( .* )  $ *)
Definition regexH2 := MustCompile true false (seq [Bol; lit "## "; Group 1 (Star CDot); Eol]).
(* issues.go:251   (?m)  ^  #_  ( .* )  $ *)
Definition regexH1 := MustCompile true false (seq [Bol; lit "# "; Group 1 (Star CDot); Eol]).

(** Text effects *)
(* issues.go:254   (?U)  \*\*  ( [\s\S]* )  \*\* *)
Definition regexStrong1 := MustCompile false true (seq [lit "**"; Group 1 (Star CAll); lit "**"]).
(* issues.go:255   (?U)  __  ( [\s\S]* )  __ *)
Definition regexStrong2 := MustCompile false true (seq [lit "__"; Group 1 (Star CAll); lit "__"]).
(* issues.go:256   (?U)  \*  ( [\s\S]* )  \* *)
Definition regexEmphasis1 := MustCompile false true (seq [lit "*"; Group 1 (Star CAll); lit "*"]).
(* issues.go:257   (?U)  _  ( [\s\S]* )  _ *)
Definition regexEmphasis2 := MustCompile false true (seq [lit "_"; Group 1 (Star CAll); lit "_"]).
(* issues.go:258   (?U)  <cite>  ( [\s\S]* )  <cite> *)
Definition regexCitation := MustCompile false true (seq [lit "<cite>"; Group 1 (Star CAll); lit "<cite>"]).
(* issues.go:259   (?U)  ~~  ( [\s\S] )  ~~        one rune, no star *)
Definition regexDeleted := MustCompile false true (seq [lit "~~"; Group 1 (Chr CAll); lit "~~"]).
(* issues.go:260   (?U)  <ins>  ( [\s\S]* )  <ins> *)
Definition regexInserted := MustCompile false true (seq [lit "<ins>"; Group 1 (Star CAll); lit "<ins>"]).
(* issues.go:261   (?U)  <sup>  ( [\s\S]* )  <sup> *)
Definition regexSuperscript := MustCompile false true (seq [lit "<sup>"; Group 1 (Star CAll); lit "<sup>"]).
(* issues.go:262   (?U)  <sub>  ( [\s\S]* )  <sub> *)
Definition regexSubscript := MustCompile false true (seq [lit "<sub>"; Group 1 (Star CAll); lit "<sub>"]).
(* issues.go:263   (?U)  `  ( [\s\S]* )  ` *)
Definition regexMonospaced := MustCompile false true (seq [lit "`"; Group 1 (Star CAll); lit "`"]).
(* issues.go:264   (?m)  ^  >  \s+  ( .* )  $ *)
Definition regexQuote := MustCompile true false (seq [Bol; lit ">"; Plus CSpace; Group 1 (Star CDot); Eol]).

(** Links *)
(* issues.go:267   (?U)  !\[  ( .* )  \]\(  ( .* )  \) *)
Definition regexImage := MustCompile false true
  (seq [lit "!["; Group 1 (Star CDot); lit "]("; Group 2 (Star CDot); lit ")"]).
(* issues.go:268   (?U)  <  ( .* )  > *)
Definition regexURL := MustCompile false true (seq [lit "<"; Group 1 (Star CDot); lit ">"]).
(* issues.go:269   (?U)  \[  ( .* )  \]\(  ( .* )  \) *)
Definition regexAltURL := MustCompile false true
  (seq [lit "["; Group 1 (Star CDot); lit "]("; Group 2 (Star CDot); lit ")"]).

(** Advanced formatting *)
Definition nl : regex := Chr (CLit "010").
(* issues.go:272   (?mU)  ^  \`\`\`  ( \w+ )  $  \n  ( [\s\S]* )  \n  ^  \`\`\` *)
Definition regexCode := MustCompile true true
  (seq [Bol; lit "```"; Group 1 (Plus CWord); Eol; nl; Group 2 (Star CAll); nl; Bol; lit "```"]).
(* issues.go:273   (?mU)  ^  \`\`\`  $  \n  ( [\s\S]* )  \n  ^  \`\`\` *)
Definition regexNoFormat := MustCompile true true
  (seq [Bol; lit "```"; Eol; nl; Group 1 (Star CAll); nl; Bol; lit "```"]).

(** The replacement templates of the last two rules are raw string
    literals in the source: their [\n] is a backslash and an [n]. *)
Definition GitHubToJiraBody (body : string) : string :=
  (* Headings *)
  let body := ReplaceAllString regexH6 body "h6. $1" in
  let body := ReplaceAllString regexH5 body "h5. $1" in
  let body := ReplaceAllString regexH4 body "h3. $1" in
  let body := ReplaceAllString regexH3 body "h3. $1" in
  let body := ReplaceAllString regexH2 body "h2. $1" in
  let body := ReplaceAllString regexH1 body "h1. $1" in
  (* Text Effects *)
  let body := ReplaceAllString regexStrong1 body "*$1*" in
  let body := ReplaceAllString regexStrong2 body "*$1*" in
  let body := ReplaceAllString regexEmphasis1 body "_$1_" in
  let body := ReplaceAllString regexEmphasis2 body "_$1_" in
  let body := ReplaceAllString regexCitation body "??$1??" in
  let body := ReplaceAllString regexDeleted body "-$1-" in
  let body := ReplaceAllString regexInserted body "+$1+" in
  let body := ReplaceAllString regexSuperscript body "^$1^" in
  let body := ReplaceAllString regexSubscript body "~$1~" in
  let body := ReplaceAllString regexMonospaced body "{{$1}}" in
  let body := ReplaceAllString regexQuote body "bq. $1" in
  (* Links *)
  let body := ReplaceAllString regexImage body "!$2|width=600!" in
  let body := ReplaceAllString regexURL body "[$1]" in
  let body := ReplaceAllString regexAltURL body "[$1|$2]" in
  (* Advanced Formatting *)
  let body := ReplaceAllString regexCode body "{code:$1}\n$2\n{code}" in
  let body := ReplaceAllString regexNoFormat body "{noformat}\n$2\n{noformat}" in
  body.

(** A line feed, and a fenced block: the opening fence with its language
    tag, the content, the closing fence. *)
Definition LF : string := String newline "".
Definition fenced (tag content : string) : string :=
  "```" +:+ tag +:+ LF +:+ content +:+ LF +:+ "```".

(** The bytes that start or end a construct of the later rules. *)
Definition markup_bytes : list ascii := ["*"; "_"; "<"; "~"; "`"; "["]%char.

(** A text of one line without markup. *)
Definition plain (text : string) : bool :=
  avoids newline text && forallb (fun c => avoids c text) markup_bytes.


(** No byte of [s] is in [l]. *)
Definition avoids_all (l : list ascii) (s : string) : bool :=
  forallb (fun c => avoids c s) l.

(** The bytes one of which every pattern of the translator needs. *)
Definition pattern_bytes : list ascii := ["#"; "*"; "_"; "<"; "~"; "`"; ">"; "["]%char.

(** The first byte of [s] is white space of the class [\s]. *)
Definition starts_with_space (s : string) : bool :=
  match s with
  | EmptyString => false
  | String c _ => in_class CSpace (byteZ c)
  end.

(** ** Notions used to state what a rule does line by line *)







End Markup.

(* ===================================================================== *)
(** * The reconciliation pass *)
(* ===================================================================== *)

(** Go's [error] values; [None] is [nil]. *)
Definition error : Type := string.

(** The result of a call that returns [(T, error)]. *)
Inductive result (A : Type) : Type :=
| Ok (a : A)
| Err (e : error).
Arguments Ok {A} a.
Arguments Err {A} e.

(** ** go-github: the source tracker's records.  Pointer fields are
    [option]s, [None] being [nil]. *)
Module github.
Record User := { Login : option string }.
Record Label := { Name : option string }.
Record Issue := {
  ID : option Z;
  Number : option Z;
  State : option string;
  Title : option string;
  Body : option string;
  User_ : option User;
  Labels : list Label;
}.

(** The nil-safe accessors. *)
Definition GetID (i : Issue) : Z := default 0%Z (ID i).
Definition GetNumber (i : Issue) : Z := default 0%Z (Number i).
Definition GetState (i : Issue) : string := default "" (State i).
Definition GetTitle (i : Issue) : string := default "" (Title i).
Definition GetLogin (u : option User) : string :=
  match u with
  | Some u => default "" (Login u)
  | None => ""
  end.
Definition GetName (l : Label) : string := default "" (Name l).
End github.

(** ** go-jira: the destination tracker's records. *)
Module jira.
(** A value of the open-ended custom-field map ([interface{}]): a string,
    a number (given by its conversion to [int64]) or anything else. *)
Inductive value :=
| VString (s : string)
| VNumber (n : Z)
| VOther.

Record Project := { ProjectID : string; ProjectKey : string; ProjectName : string }.
Definition noProject : Project := Build_Project "" "" "".

Record IssueType := { TypeName : string }.

Record IssueFields := {
  Type_ : IssueType;
  Project_ : Project;
  Summary : string;
  Description : string;
  Unknowns : gmap string value;
}.

Record Issue := {
  Fields : option IssueFields;
  Key : string;
  ID : string;
}.

(** [tcontainer.MarshalMap.String]: the string stored at [key]; an error
    and the zero value when the key is not set or holds no string. *)
Definition String_ (m : gmap string value) (key : string) : string * option error :=
  match m !! key with
  | None => ("", Some (key +:+ " is not set"))
  | Some (VString s) => (s, None)
  | Some _ => ("", Some (key +:+ " is expected to be a string"))
  end.

(** [tcontainer.MarshalMap.Int]: the number stored at [key] as an
    [int64]; an error and the zero value when the key is not set or holds
    no number. *)
Definition Int (m : gmap string value) (key : string) : Z * option error :=
  match m !! key with
  | None => (0%Z, Some (key +:+ " is not set"))
  | Some (VNumber n) => (n, None)
  | Some _ => (0%Z, Some (key +:+ " is expected to be an integer"))
  end.
End jira.

(** ** cfg: the configuration object *)
Module cfg.
Inductive fieldKey :=
| GitHubID | GitHubNumber | GitHubLabels | GitHubStatus | GitHubReporter
| LastISUpdate.

Record fields := {
  githubID : string;
  githubNumber : string;
  githubLabels : string;
  githubReporter : string;
  githubStatus : string;
  lastUpdate : string;
}.

Record Config := {
  fieldIDs : fields;
  projects : gmap string jira.Project;
}.

Definition GetFieldID (c : Config) (key : fieldKey) : string :=
  match key with
  | GitHubID => githubID (fieldIDs c)
  | GitHubNumber => githubNumber (fieldIDs c)
  | GitHubLabels => githubLabels (fieldIDs c)
  | GitHubReporter => githubReporter (fieldIDs c)
  | GitHubStatus => githubStatus (fieldIDs c)
  | LastISUpdate => lastUpdate (fieldIDs c)
  end.

Definition GetFieldKey (c : Config) (key : fieldKey) : string :=
  "customfield_" +:+ GetFieldID c key.

Definition GetProject (c : Config) (repo : string) : jira.Project :=
  default jira.noProject (projects c !! repo).
End cfg.

(* ===================================================================== *)
(** * Building and validating the configuration (package cfg) *)
(* ===================================================================== *)

Module Setup.
Import GoString cfg.

(** ** Helpers from the Go library *)

(** [fmt.Sprint] of an [int], and [%d] in a format string: decimal digits,
    a minus sign in front of a negative number. *)
Definition Sprint (n : Z) : string := NilZero.string_of_int (Z.to_int n).

(** [strings.Split(s, sep)] for a separator of one byte: the pieces of [s]
    between the separators, a single empty piece for the empty string. *)
Fixpoint Split (s : string) (sep : ascii) : list string :=
  match s with
  | EmptyString => [""]
  | String c s' =>
    let parts := Split s' sep in
    if Ascii.eqb c sep then "" :: parts
    else match parts with
         | p :: rest => String c p :: rest
         | [] => [String c ""]
         end
  end.

(** [strings.Contains(s, sep)] for a separator of one byte. *)
Definition Contains (s : string) (sep : ascii) : bool := negb (avoids sep s).

(** ** Repositories *)

(** [Config.GetRepo]: the user or organisation name and the repository
    name, the first two pieces of [repo] between the slashes.  [None] is
    the run-time panic of an index out of range. *)
Definition GetRepo (repo : string) : option (string * string) :=
  let parts := Split repo "/" in
  match parts with
  | p0 :: p1 :: _ => Some (p0, p1)
  | _ => None
  end.

(** The test that [validateConfig] makes on a repository name before it
    accepts it. *)
Definition bad_repo (repo : string) : bool :=
  negb (Contains repo "/") || negb (length (Split repo "/") =? 2)%nat.

(** ** The custom fields of the JIRA server *)

(** [jiraField]: the metadata of one field as the [field] endpoint gives
    it. *)
Record jiraSchema := {
  SchemaType : string;
  System : string;
  Items : string;
  SchemaCustom : string;
  CustomID : Z;
}.

Record jiraField := {
  ID : string;
  Key : string;
  Name : string;
  Custom : bool;
  Orderable : bool;
  Navigable : bool;
  Searchable : bool;
  ClauseNames : list string;
  Schema : jiraSchema;
}.

(** What the JIRA client answers to the two calls of [getFieldIDs]: the
    error of [NewRequest], and the error of [Do] or the fields it decoded. *)
Record FieldClient := {
  NewRequest : option error;
  Do : result (list jiraField);
}.

Definition noFields : fields := Build_fields "" "" "" "" "" "".

(** The body of the loop of [getFieldIDs]: the [switch] on the name of the
    field. *)
Definition setFieldID (fieldIDs : fields) (field : jiraField) : fields :=
  let id := Sprint (CustomID (Schema field)) in
  let '(Build_fields gid gnum glab grep gstat upd) := fieldIDs in
  if String.eqb (Name field) "GitHub ID" then Build_fields id gnum glab grep gstat upd
  else if String.eqb (Name field) "GitHub Number" then Build_fields gid id glab grep gstat upd
  else if String.eqb (Name field) "GitHub Labels" then Build_fields gid gnum id grep gstat upd
  else if String.eqb (Name field) "GitHub Status" then Build_fields gid gnum glab grep id upd
  else if String.eqb (Name field) "GitHub Reporter" then Build_fields gid gnum glab id gstat upd
  else if String.eqb (Name field) "Last Issue-Sync Update"
  then Build_fields gid gnum glab grep gstat id
  else fieldIDs.

(** [getFieldIDs] requests the metadata of every issue field, and saves
    the IDs of the custom fields used by issue-sync.  It returns the IDs
    it has found also when it returns an error. *)
Definition getFieldIDs (client : FieldClient) : fields * option error :=
  match NewRequest client with
  | Some err => (noFields, Some err)
  | None =>
    match Do client with
    | Err err => (noFields, Some err)
    | Ok jFields =>
      let fieldIDs := fold_left setFieldID jFields noFields in
      if String.eqb (githubID fieldIDs) "" then
        (fieldIDs, Some "could not find ID of 'GitHub ID' custom field; check that it is named correctly")
      else if String.eqb (githubNumber fieldIDs) "" then
        (fieldIDs, Some "could not find ID of 'GitHub Number' custom field; check that it is named correctly")
      else if String.eqb (githubLabels fieldIDs) "" then
        (fieldIDs, Some "could not find ID of 'Github Labels' custom field; check that it is named correctly")
      else if String.eqb (githubStatus fieldIDs) "" then
        (fieldIDs, Some "could not find ID of 'Github Status' custom field; check that it is named correctly")
      else if String.eqb (githubReporter fieldIDs) "" then
        (fieldIDs, Some "could not find ID of 'Github Reporter' custom field; check that it is named correctly")
      else if String.eqb (lastUpdate fieldIDs) "" then
        (fieldIDs, Some "could not find ID of 'Last Issue-Sync Update' custom field; check that it is named correctly")
      else (fieldIDs, None)
    end
  end.

(** The name that [getFieldIDs] looks for, for each of the six fields. *)
Definition field_name (key : fieldKey) : string :=
  match key with
  | GitHubID => "GitHub ID"
  | GitHubNumber => "GitHub Number"
  | GitHubLabels => "GitHub Labels"
  | GitHubStatus => "GitHub Status"
  | GitHubReporter => "GitHub Reporter"
  | LastISUpdate => "Last Issue-Sync Update"
  end.

Definition field_of (ids : fields) (key : fieldKey) : string :=
  GetFieldID {| fieldIDs := ids; projects := ∅ |} key.

(** The order in which [getFieldIDs] checks that the six IDs were found. *)
Definition check_order : list fieldKey :=
  [GitHubID; GitHubNumber; GitHubLabels; GitHubStatus; GitHubReporter; LastISUpdate].

(** The last field of the list with the given name. *)
Fixpoint last_named (name : string) (l : list jiraField) : option jiraField :=
  match l with
  | [] => None
  | f :: l' =>
    match last_named name l' with
    | Some g => Some g
    | None => if String.eqb (Name f) name then Some f else None
    end
  end.

End Setup.

(** ** The settings and their validation *)

Module Validate.
Import GoString cfg Setup.

(** [cfg.Project]: a repository and the key of its JIRA project, as the
    configuration file has them. *)
Record Project := { Repo : string; Key : string }.

(** The Viper configuration: the string settings by key, and the value of
    the [projects] key as [UnmarshalKey] decodes it. *)
Record Viper := {
  settings : gmap string string;
  projectList : list Project;
}.

(** [GetString]: the empty string for a key that is not set. *)
Definition GetString (v : Viper) (key : string) : string :=
  default "" (settings v !! key).

Definition Set_ (v : Viper) (key value : string) : Viper :=
  {| settings := <[key := value]> (settings v); projectList := projectList v |}.

Definition SetProjects (v : Viper) (ps : list Project) : Viper :=
  {| settings := settings v; projectList := ps |}.

(** The part of [Config] that [validateConfig] reads and writes; a time is
    an instant in seconds. *)
Record Config := {
  cmdConfig : Viper;
  basicAuth : bool;
  since : Z;
}.

(** What the process finds outside: the password typed at the terminal,
    the files that can be opened, the URIs that parse and the dates that
    parse in the layout [dateFormat]. *)
Record Env := {
  ReadPassword : result string;
  Open : string -> option error;
  ParseRequestURI : string -> option error;
  Parse : string -> result Z;
}.

Definition empty (s : string) : bool := String.eqb s "".

(** The loop of [validateConfig] over the project list; [i] is the index
    of the first project of [ps]. *)
Fixpoint checkProjects (i : Z) (ps : list Project) : option error :=
  match ps with
  | [] => None
  | project :: rest =>
    if empty (Repo project) then
      Some ("project number " +:+ Sprint i +:+ " is missing a repo")
    else if bad_repo (Repo project) then
      Some ("project number " +:+ Sprint i
            +:+ " has bad repo; must be user/repo or org/repo")
    else if empty (Key project) then
      Some ("project number " +:+ Sprint i +:+ " is missing JIRA project key")
    else checkProjects (i + 1) rest
  end.

(** The credentials: HTTP Basic authentication or OAuth. *)
Definition checkAuth (env : Env) (basic : bool) (v : Viper) : Viper + error :=
  if basic then
    let jUser := GetString v "jira-user" in
    if empty jUser then inr "Jira username required"
    else
      let jPass := GetString v "jira-pass" in
      if empty jPass then
        match ReadPassword env with
        | Err _ => inr "JIRA password required"
        | Ok bytePass => inl (Set_ v "jira-pass" bytePass)
        end
      else inl v
  else
    let token := GetString v "jira-token" in
    if empty token then inr "JIRA access token required"
    else
      let secret := GetString v "jira-secret" in
      if empty secret then inr "JIRA access token secret required"
      else
        let consumerKey := GetString v "jira-consumer-key" in
        if empty consumerKey then inr "JIRA consumer key required for OAuth handshake"
        else
          let privateKey := GetString v "jira-private-key-path" in
          if empty privateKey then inr "JIRA private key required for OAuth handshake"
          else
            match Open env privateKey with
            | Some _ => inr "JIRA private key must point to existing PEM file"
            | None => inl v
            end.

(** The repository and project given on their own, or the project list of
    the configuration file. *)
Definition checkRepos (v : Viper) : Viper + error :=
  if negb (empty (GetString v "jira-project")) || negb (empty (GetString v "repo-name"))
  then
    let repo := GetString v "repo-name" in
    if empty repo then inr "GitHub repository required"
    else if bad_repo repo then inr "GitHub repository must be of form user/repo"
    else
      let project := GetString v "jira-project" in
      if empty project then inr "JIRA project required"
      else
        let projects := [ {| Repo := repo; Key := project |} ] in
        let v := SetProjects v projects in
        let v := Set_ v "repo-name" "" in
        let v := Set_ v "jira-project" "" in
        inl v
  else
    match checkProjects 0 (projectList v) with
    | Some err => inr err
    | None => inl v
    end.

Definition with_config (c : Config) (v : Viper) : Config :=
  {| cmdConfig := v; basicAuth := basicAuth c; since := since c |}.

(** [validateConfig] checks the values provided to all of the
    configuration options.  It returns the configuration as the checks
    have left it, and the error. *)
Definition validateConfig (env : Env) (c : Config) : Config * option error :=
  let token := GetString (cmdConfig c) "github-token" in
  if empty token then (c, Some "GitHub token required")
  else
    let basic := negb (empty (GetString (cmdConfig c) "jira-user"))
                 && negb (empty (GetString (cmdConfig c) "jira-pass")) in
    let c := {| cmdConfig := cmdConfig c; basicAuth := basic; since := since c |} in
    match checkAuth env basic (cmdConfig c) with
    | inr err => (c, Some err)
    | inl v =>
      let c := with_config c v in
      let uri := GetString v "jira-uri" in
      if empty uri then (c, Some "JIRA URI required")
      else
        match ParseRequestURI env uri with
        | Some _ => (c, Some "JIRA URI must be valid URI")
        | None =>
          match checkRepos v with
          | inr err => (c, Some err)
          | inl v =>
            let c := with_config c v in
            let sinceStr := GetString v "since" in
            let v := if empty sinceStr
                     then Set_ v "since" "1970-01-01T00:00:00+0000" else v in
            let c := with_config c v in
            match Parse env sinceStr with
            | Err _ => (c, Some "Since date must be in ISO-8601 format")
            | Ok since =>
              ({| cmdConfig := v; basicAuth := basicAuth c; since := since |}, None)
            end
          end
        end
    end.

(** ** Loading the projects and the field IDs *)

(** The answer of [client.Project.Get]: the project, or a failure with
    the body of the response as [ioutil.ReadAll] reads it. *)
Inductive projectAnswer :=
| Found (project : jira.Project)
| Failed (body : result string).

Record JiraClient := {
  ProjectGet : string -> projectAnswer;
  Fields : FieldClient;
}.

(** The loop of [LoadJIRAConfig] over the configured projects. *)
Fixpoint loadProjects (client : JiraClient) (ps : list Project)
    (projects : gmap string jira.Project) : gmap string jira.Project * option error :=
  match ps with
  | [] => (projects, None)
  | project :: rest =>
    match ProjectGet client (Key project) with
    | Failed (Err err) => (projects, Some err)
    | Failed (Ok body) => (projects, Some body)
    | Found proj => loadProjects client rest (<[Repo project := proj]> projects)
    end
  end.

(** [LoadJIRAConfig] loads the JIRA configuration (projects, custom field
    IDs) from a remote JIRA server.  The field IDs are stored also when
    [getFieldIDs] returns an error. *)
Definition LoadJIRAConfig (client : JiraClient) (v : Viper) (c : cfg.Config)
  : cfg.Config * option error :=
  let '(projects, err) := loadProjects client (projectList v) (cfg.projects c) in
  match err with
  | Some err => ({| cfg.fieldIDs := cfg.fieldIDs c; cfg.projects := projects |}, Some err)
  | None =>
    let '(fieldIDs, err) := getFieldIDs (Fields client) in
    ({| cfg.fieldIDs := fieldIDs; cfg.projects := projects |}, err)
  end.

(** The last project of the list for the repository [repo]. *)
Fixpoint last_repo (repo : string) (ps : list Project) : option Project :=
  match ps with
  | [] => None
  | p :: rest =>
    match last_repo repo rest with
    | Some q => Some q
    | None => if String.eqb (Repo p) repo then Some p else None
    end
  end.

(** The environment with another answer at the password prompt. *)
Definition with_password (env : Env) (answer : result string) : Env :=
  {| ReadPassword := answer; Open := Open env;
     ParseRequestURI := ParseRequestURI env; Parse := Parse env |}.

(** Two configurations with the same project list and the same settings,
    the setting [key] apart. *)
Definition same_but (key : string) (v w : Viper) : Prop :=
  projectList v = projectList w
  /\ forall k, k <> key -> GetString v k = GetString w k.

End Validate.

(** ** A server, some settings and an environment *)

Module Samples.
Import GoString cfg Setup Validate.

Definition custom (name : string) (id : Z) : jiraField := {|
  ID := "customfield_" +:+ Sprint id; Setup.Key := "customfield_" +:+ Sprint id;
  Name := name; Custom := true; Orderable := true; Navigable := true;
  Searchable := true; ClauseNames := [name];
  Schema := {| SchemaType := "string"; System := ""; Items := "";
               SchemaCustom := "com.atlassian.jira.plugin.system.customfieldtypes:textfield";
               CustomID := id |} |}.

(** The fields of a server on which the six custom fields exist, one of
    them twice. *)
Definition six_fields : list jiraField :=
  [ custom "GitHub ID" 10001; custom "GitHub Number" 10002;
    custom "Sprint" 10000; custom "GitHub Labels" 10003;
    custom "GitHub Status" 10009; custom "GitHub Reporter" 10004;
    custom "Last Issue-Sync Update" 10006; custom "GitHub Status" 10005 ].

Definition answers (l : list jiraField) : FieldClient :=
  {| NewRequest := None; Do := Ok l |}.

(** Settings with OAuth credentials and one repository given on its
    own. *)
Definition oauth_settings : Viper := {|
  settings :=
    <["github-token" := "ghp"]> (<["jira-token" := "tok"]> (<["jira-secret" := "sec"]>
    (<["jira-consumer-key" := "issue-sync"]> (<["jira-private-key-path" := "key.pem"]>
    (<["jira-uri" := "https://jira.example.com"]> (<["repo-name" := "coreos/issue-sync"]>
    (<["jira-project" := "PRJ"]> (<["since" := "2017-08-01T12:00:00+0000"]> ∅))))))));
  projectList := [] |}.

Definition fresh (v : Viper) : Validate.Config :=
  {| cmdConfig := v; basicAuth := false; since := 0 |}.

(** An environment in which the key file exists, every URI parses, and a
    date parses unless it is empty. *)
Definition plain_env : Env := {|
  ReadPassword := Err "not a terminal";
  Open := fun _ => None;
  ParseRequestURI := fun _ => None;
  Parse := fun s => if String.eqb s "" then Err "cannot parse" else Ok 1501588800%Z |}.

(** A server with one project. *)
Definition one_project : JiraClient := {|
  ProjectGet := fun key =>
    if String.eqb key "PRJ" then Found (jira.Build_Project "1" "PRJ" "Project")
    else Failed (Ok "No project could be found with key");
  Fields := answers six_fields |}.

Definition listed : Viper :=
  SetProjects oauth_settings [ {| Repo := "coreos/issue-sync"; Validate.Key := "PRJ" |} ].

Definition blank : cfg.Config := {| fieldIDs := noFields; projects := ∅ |}.

End Samples.

Module Sync.
Import GoString Markup.
Import cfg.

(** ** What a pass does to the outside world *)

Inductive level := Debug | Info | Error.

(** The messages of the logger calls, with the arguments of their format
    strings. *)
Inductive logmsg :=
| MsgCollecting                               (* "Collecting issues" *)
| MsgNoIssues                                 (* "There are no GitHub issues; exiting" *)
| MsgCollected                                (* "Collected all JIRA issues" *)
| MsgErrUpdating (key : string) (e : error)   (* "Error updating issue %s. Error: %v" *)
| MsgErrCreating (number : Z) (e : error)     (* "Error creating issue for #%d. Error: %v" *)
| MsgComparing (number : Z) (key : string)    (* "Comparing GitHub issue #%d and JIRA issue %s" *)
| MsgAnyDifferent (b : bool)                  (* "Issues have any differences: %b" *)
| MsgUpdating (key : string) (number : Z)     (* "Updating JIRA %s with GitHub #%d" *)
| MsgUpdated (key : string)                   (* "Successfully updated JIRA issue %s!" *)
| MsgUpToDate (key : string)                  (* "JIRA issue %s is already up to date!" *)
| MsgRetrieveFailed (key : string)            (* "Failed to retrieve JIRA issue %s!" *)
| MsgCreatingIssue (number : Z)               (* "Creating JIRA issue based on GitHub issue #%d" *)
| MsgCreated (key : string).                  (* "Created JIRA issue %s!" *)

(** The calls a pass makes, each with the answer it got, in the order
    made. *)
Inductive event :=
| EvLog (l : level) (m : logmsg)
| EvGitHubListIssues (r : result (list github.Issue))
| EvGitHubGetRepo (r : string)
| EvJiraListIssues (ids : list Z) (r : result (list jira.Issue))
| EvJiraCreateIssue (i : jira.Issue) (r : result jira.Issue)
| EvJiraUpdateIssue (i : jira.Issue) (r : result jira.Issue)
| EvJiraGetIssue (key : string) (r : result jira.Issue)
| EvCompareComments (gh : github.Issue) (j : jira.Issue) (r : option error).

Definition trace : Type := list event.

(** The collaborators of [lib/issues.go]: the two tracker clients
    ([clients.GitHubClient], [clients.JIRAClient]), the comment reconciler
    ([CompareComments]) and the clock.  None of them is part of this file's
    source; each answer may depend on the arguments and on everything that
    happened before. *)
Record World := {
  gh_ListIssues : trace -> result (list github.Issue);
  gh_GetRepo : trace -> string;
  jira_ListIssues : trace -> list Z -> result (list jira.Issue);
  jira_CreateIssue : trace -> jira.Issue -> result jira.Issue;
  jira_UpdateIssue : trace -> jira.Issue -> result jira.Issue;
  jira_GetIssue : trace -> string -> result jira.Issue;
  compare_comments : trace -> github.Issue -> jira.Issue -> option error;
  (** [time.Now().UTC().Format(dateFormat)] *)
  now : trace -> string;
}.

(** ** The monad of the pass: a trace is threaded through, and a nil
    dereference panics. *)

Inductive outcome (A : Type) : Type :=
| Val (a : A)
| Panic.
Arguments Val {A} a.
Arguments Panic {A}.

Definition M (A : Type) : Type := trace -> outcome A * trace.

Definition ret {A} (a : A) : M A := fun t => (Val a, t).

Definition bind {A B} (c : M A) (k : A -> M B) : M B :=
  fun t =>
    match c t with
    | (Val a, t') => k a t'
    | (Panic, t') => (Panic, t')
    end.

Declare Scope go_scope.
Delimit Scope go_scope with go.
Notation "'let*' x ':=' c 'in' k" := (bind c (fun x => k))
  (at level 10, x name, c at level 100, k at level 200) : go_scope.
Notation "c ';;;' k" := (bind c (fun _ => k))
  (at level 100, k at level 200, right associativity) : go_scope.
Local Open Scope go_scope.

Definition panic {A} : M A := fun t => (Panic, t).

(** [*p] *)
Definition deref {A} (p : option A) : M A :=
  match p with
  | Some a => ret a
  | None => panic
  end.

Definition emit (e : event) : M unit := fun t => (Val tt, t ++ [e]).

(** A call to a collaborator: the answer is recorded with the call. *)
Definition call {A} (answer : trace -> A) (ev : A -> event) : M A :=
  fun t => let r := answer t in (Val r, t ++ [ev r]).

Definition log (l : level) (m : logmsg) : M unit := emit (EvLog l m).

(** [for _, x := range l { body }] *)
Fixpoint forM {A} (l : list A) (body : A -> M unit) : M unit :=
  match l with
  | [] => ret tt
  | x :: l' => body x ;;; forM l' body
  end.

(** [for i, x := range l { out[i] = f(x) }] *)
Fixpoint mapM {A B} (f : A -> M B) (l : list A) : M (list B) :=
  match l with
  | [] => ret []
  | x :: l' => let* y := f x in let* ys := mapM f l' in ret (y :: ys)
  end.

(** ** TranslatedIssue *)

Record TranslatedIssue := {
  Issue : github.Issue;            (* the embedded [github.Issue] *)
  TranslatedBody : option string;
}.

Definition NewTranslatedIssue (issue : github.Issue) : M TranslatedIssue :=
  let* b := deref (github.Body issue) in
  let body := GitHubToJiraBody b in
  ret {| Issue := issue; TranslatedBody := Some body |}.

Definition GetTranslatedBody (i : TranslatedIssue) : string :=
  default "" (TranslatedBody i).

Definition is_err (e : option error) : bool :=
  match e with Some _ => true | None => false end.

Section Pass.
Context (W : World) (config : Config).

Definition ghListIssues : M (result (list github.Issue)) :=
  call (gh_ListIssues W) EvGitHubListIssues.
Definition ghGetRepo : M string :=
  call (gh_GetRepo W) EvGitHubGetRepo.
Definition jiraListIssues (ids : list Z) : M (result (list jira.Issue)) :=
  call (fun t => jira_ListIssues W t ids) (EvJiraListIssues ids).
Definition jiraCreateIssue (i : jira.Issue) : M (result jira.Issue) :=
  call (fun t => jira_CreateIssue W t i) (EvJiraCreateIssue i).
Definition jiraUpdateIssue (i : jira.Issue) : M (result jira.Issue) :=
  call (fun t => jira_UpdateIssue W t i) (EvJiraUpdateIssue i).
Definition jiraGetIssue (key : string) : M (result jira.Issue) :=
  call (fun t => jira_GetIssue W t key) (EvJiraGetIssue key).
Definition CompareComments (gh : github.Issue) (j : jira.Issue) : M (option error) :=
  call (fun t => compare_comments W t gh j) (EvCompareComments gh j).
Definition Now : M string := fun t => (Val (now W t), t).

(** [DidIssueChange] tests each of the relevant fields on the provided
    JIRA and GitHub issue and returns whether or not they differ. *)
Definition DidIssueChange (ghIssue : TranslatedIssue) (jIssue : jira.Issue) : M bool :=
  let gh := Issue ghIssue in
  log Debug (MsgComparing (github.GetNumber gh) (jira.Key jIssue)) ;;;
  let anyDifferent := false in
  let* jf := deref (jira.Fields jIssue) in
  let anyDifferent :=
    anyDifferent || negb (String.eqb (github.GetTitle gh) (jira.Summary jf)) in
  let anyDifferent :=
    anyDifferent || negb (String.eqb (GetTranslatedBody ghIssue) (jira.Description jf)) in

  let key := GetFieldKey config GitHubStatus in
  let '(field, err) := jira.String_ (jira.Unknowns jf) key in
  let* differs :=
    if is_err err then ret true
    else let* state := deref (github.State gh) in ret (negb (String.eqb state field)) in
  let anyDifferent := if differs then true else anyDifferent in

  let key := GetFieldKey config GitHubReporter in
  let '(field, err) := jira.String_ (jira.Unknowns jf) key in
  let* differs :=
    if is_err err then ret true
    else let* user := deref (github.User_ gh) in
         let* login := deref (github.Login user) in
         ret (negb (String.eqb login field)) in
  let anyDifferent := if differs then true else anyDifferent in

  let* labels := mapM (fun l => deref (github.Name l)) (github.Labels gh) in

  let key := GetFieldKey config GitHubLabels in
  let '(field, err) := jira.String_ (jira.Unknowns jf) key in
  let anyDifferent :=
    if is_err err && negb (String.eqb (Join labels ",") field)
    then true else anyDifferent in

  log Debug (MsgAnyDifferent anyDifferent) ;;;
  ret anyDifferent.

(** [UpdateIssue] compares each field of a GitHub issue to a JIRA issue;
    if any of them differ, the differing fields of the JIRA issue are
    updated to match the GitHub issue. *)
Definition UpdateIssue (ghIssue : TranslatedIssue) (jIssue : jira.Issue)
  : M (option error) :=
  let gh := Issue ghIssue in
  let* number := deref (github.Number gh) in
  log Debug (MsgUpdating (jira.Key jIssue) number) ;;;
  let* changed := DidIssueChange ghIssue jIssue in
  let* err :=
    if changed then
      let unknowns : gmap string jira.value := ∅ in
      let unknowns :=
        <[GetFieldKey config GitHubStatus := jira.VString (github.GetState gh)]> unknowns in
      let unknowns :=
        <[GetFieldKey config GitHubReporter :=
            jira.VString (github.GetLogin (github.User_ gh))]> unknowns in
      let labels := map github.GetName (github.Labels gh) in
      let unknowns :=
        <[GetFieldKey config GitHubLabels := jira.VString (Join labels ",")]> unknowns in
      let* stamp := Now in
      let unknowns :=
        <[GetFieldKey config LastISUpdate := jira.VString stamp]> unknowns in
      let* jf := deref (jira.Fields jIssue) in
      let fields := {|
        jira.Type_ := jira.Type_ jf;
        jira.Project_ := jira.noProject;
        jira.Summary := github.GetTitle gh;
        jira.Description := GetTranslatedBody ghIssue;
        jira.Unknowns := unknowns |} in
      let issue := {|
        jira.Fields := Some fields;
        jira.Key := jira.Key jIssue;
        jira.ID := jira.ID jIssue |} in
      let* r := jiraUpdateIssue issue in
      match r with
      | Err err => ret (Some err)
      | Ok _ => log Debug (MsgUpdated (jira.Key jIssue)) ;;; ret None
      end
    else
      log Debug (MsgUpToDate (jira.Key jIssue)) ;;; ret None in
  match err with
  | Some err => ret (Some err)
  | None =>
    let* r := jiraGetIssue (jira.Key jIssue) in
    match r with
    | Err err => log Debug (MsgRetrieveFailed (jira.Key jIssue)) ;;; ret (Some err)
    | Ok issue => CompareComments gh issue
    end
  end.

(** [CreateIssue] generates a JIRA issue from the various fields on the
    given GitHub issue, then sends it to the JIRA API. *)
Definition CreateIssue (issue : TranslatedIssue) : M (option error) :=
  let gh := Issue issue in
  let* number := deref (github.Number gh) in
  log Debug (MsgCreatingIssue number) ;;;
  let* repo := ghGetRepo in
  let unknowns : gmap string jira.value := ∅ in
  let unknowns :=
    <[GetFieldKey config GitHubID := jira.VNumber (github.GetID gh)]> unknowns in
  let unknowns :=
    <[GetFieldKey config GitHubNumber := jira.VNumber (github.GetNumber gh)]> unknowns in
  let unknowns :=
    <[GetFieldKey config GitHubStatus := jira.VString (github.GetState gh)]> unknowns in
  let unknowns :=
    <[GetFieldKey config GitHubReporter :=
        jira.VString (github.GetLogin (github.User_ gh))]> unknowns in
  let* strs := mapM (fun v => deref (github.Name v)) (github.Labels gh) in
  let unknowns :=
    <[GetFieldKey config GitHubLabels := jira.VString (Join strs ",")]> unknowns in
  let* stamp := Now in
  let unknowns :=
    <[GetFieldKey config LastISUpdate := jira.VString stamp]> unknowns in
  let fields := {|
    jira.Type_ := {| jira.TypeName := "Task" |};
    jira.Project_ := GetProject config repo;
    jira.Summary := github.GetTitle gh;
    jira.Description := GetTranslatedBody issue;
    jira.Unknowns := unknowns |} in
  let jIssue := {| jira.Fields := Some fields; jira.Key := ""; jira.ID := "" |} in
  let* r := jiraCreateIssue jIssue in
  match r with
  | Err err => ret (Some err)
  | Ok jIssue =>
    let* r := jiraGetIssue (jira.Key jIssue) in
    match r with
    | Err err => ret (Some err)
    | Ok jIssue =>
      log Debug (MsgCreated (jira.Key jIssue)) ;;;
      CompareComments gh jIssue
    end
  end.

(** The link test of the inner loop of [CompareIssues]: the GitHub ID
    field of [jIssue], read as an integer with the read error dropped,
    against the numeric id of [ghIssue]. *)
Definition linked (ghIssue : github.Issue) (jIssue : jira.Issue) : M bool :=
  let* jf := deref (jira.Fields jIssue) in
  let '(id, _) := jira.Int (jira.Unknowns jf) (GetFieldKey config GitHubID) in
  let* ghid := deref (github.ID ghIssue) in
  ret (ghid =? id)%Z.

(** The inner loop of [CompareIssues]: the first linked JIRA issue is
    updated and ends the scan; the result is [found]. *)
Fixpoint scan (ghIssue : github.Issue) (ghTranslatedIssue : TranslatedIssue)
    (jiraIssues : list jira.Issue) : M bool :=
  match jiraIssues with
  | [] => ret false
  | jIssue :: rest =>
    let* same := linked ghIssue jIssue in
    if same then
      let* err := UpdateIssue ghTranslatedIssue jIssue in
      match err with
      | Some err => log Error (MsgErrUpdating (jira.Key jIssue) err)
      | None => ret tt
      end ;;;
      ret true
    else scan ghIssue ghTranslatedIssue rest
  end.

(** The body of the outer loop of [CompareIssues]. *)
Definition reconcile (jiraIssues : list jira.Issue) (ghIssue : github.Issue) : M unit :=
  let* ghTranslatedIssue := NewTranslatedIssue ghIssue in
  let* found := scan ghIssue ghTranslatedIssue jiraIssues in
  if negb found then
    let* err := CreateIssue ghTranslatedIssue in
    match err with
    | Some err =>
      let* number := deref (github.Number ghIssue) in
      log Error (MsgErrCreating number err)
    | None => ret tt
    end
  else ret tt.

(** [CompareIssues] gets the list of GitHub issues updated since the
    [since] date, gets the list of JIRA issues which have GitHub ID custom
    fields in that list, then matches each one.  If a JIRA issue already
    exists for a given GitHub issue, it calls [UpdateIssue]; if no JIRA
    issue already exists, it calls [CreateIssue]. *)
Definition CompareIssues : M (option error) :=
  log Debug MsgCollecting ;;;
  let* r := ghListIssues in
  match r with
  | Err err => ret (Some err)
  | Ok ghIssues =>
    if (List.length ghIssues =? 0)%nat then
      log Info MsgNoIssues ;;; ret None
    else
      let ids := map github.GetID ghIssues in
      let* r := jiraListIssues ids in
      match r with
      | Err err => ret (Some err)
      | Ok jiraIssues =>
        log Debug MsgCollected ;;;
        forM ghIssues (reconcile jiraIssues) ;;;
        ret None
      end
  end.
End Pass.

(** ** Properties of the pass *)

(** The calls that reach the destination tracker. *)
Definition is_destination_call (e : event) : bool :=
  match e with
  | EvJiraListIssues _ _ | EvJiraCreateIssue _ _ | EvJiraUpdateIssue _ _
  | EvJiraGetIssue _ _ => true
  | _ => false
  end.

Definition is_update_call (e : event) : bool :=
  match e with EvJiraUpdateIssue _ _ => true | _ => false end.

Definition is_comment_sync (e : event) : bool :=
  match e with EvCompareComments _ _ _ => true | _ => false end.


(** A create or update submission that failed. *)
Definition is_write_err (e : event) : bool :=
  match e with
  | EvJiraCreateIssue _ (Err _) | EvJiraUpdateIssue _ (Err _) => true
  | _ => false
  end.


(** A custom field is unreadable when [MarshalMap.String] reports an
    error; its content is the string that call returns. *)
Definition unreadable (m : gmap string jira.value) (key : string) : Prop :=
  snd (jira.String_ m key) <> None.
Definition content (m : gmap string jira.value) (key : string) : string :=
  fst (jira.String_ m key).

(** A label list in which every name is present. *)
Definition named (names : list string) : list github.Label :=
  map (fun n => {| github.Name := Some n |}) names.

(** ** Source and destination records as the trackers deliver them *)

Definition present {A} (o : option A) : bool :=
  match o with Some _ => true | None => false end.

(** A source issue with its id, number, body, state, author login and
    label names all set. *)
Definition wf_source (gh : github.Issue) : bool :=
  present (github.ID gh) && present (github.Number gh)
  && present (github.Body gh) && present (github.State gh)
  && match github.User_ gh with
     | Some u => present (github.Login u)
     | None => false
     end
  && forallb (fun l => present (github.Name l)) (github.Labels gh).

(** A destination issue that carries its fields. *)
Definition wf_dest (j : jira.Issue) : bool := present (jira.Fields j).

(** ** The shape of the trace of one reconciliation *)

(** The error-level log that follows a failed [UpdateIssue] or
    [CreateIssue]. *)
Definition errlog (msg : error -> logmsg) (r : option error) : list event :=
  match r with
  | Some e => [EvLog Error (msg e)]
  | None => []
  end.

(** After the comparison: nothing is written when nothing changed,
    otherwise an update is submitted and succeeds. *)
Inductive write_phase (key : string) : bool -> list event -> Prop :=
| WUnchanged :
    write_phase key false [EvLog Debug (MsgUpToDate key)]
| WUpdated issue issue' :
    write_phase key true
      [EvJiraUpdateIssue issue (Ok issue'); EvLog Debug (MsgUpdated key)].

(** The re-fetch by key, and the comment sync when it succeeds. *)
Inductive verify_phase (gh : github.Issue) (key : string)
  : list event -> option error -> Prop :=
| VRefetchFailed e :
    verify_phase gh key
      [EvJiraGetIssue key (Err e); EvLog Debug (MsgRetrieveFailed key)] (Some e)
| VSynced issue r :
    verify_phase gh key
      [EvJiraGetIssue key (Ok issue); EvCompareComments gh issue r] r.

Definition update_header (gh : github.Issue) (key : string) (n : Z) (b : bool)
  : list event :=
  [EvLog Debug (MsgUpdating key n);
   EvLog Debug (MsgComparing (github.GetNumber gh) key);
   EvLog Debug (MsgAnyDifferent b)].

(** The events of [UpdateIssue] and the error it returns. *)
Inductive update_shape (gh : github.Issue) (j : jira.Issue)
  : list event -> option error -> Prop :=
| UWriteFailed n issue e :
    github.Number gh = Some n ->
    update_shape gh j
      (update_header gh (jira.Key j) n true ++ [EvJiraUpdateIssue issue (Err e)])
      (Some e)
| UVerified n b w v r :
    github.Number gh = Some n ->
    write_phase (jira.Key j) b w ->
    verify_phase gh (jira.Key j) v r ->
    update_shape gh j (update_header gh (jira.Key j) n b ++ w ++ v) r.

(** The events of [CreateIssue] and the error it returns. *)
Inductive create_shape (gh : github.Issue) : list event -> option error -> Prop :=
| CWriteFailed n repo issue e :
    github.Number gh = Some n ->
    create_shape gh
      [EvLog Debug (MsgCreatingIssue n); EvGitHubGetRepo repo;
       EvJiraCreateIssue issue (Err e)]
      (Some e)
| CRefetchFailed n repo issue created e :
    github.Number gh = Some n ->
    create_shape gh
      [EvLog Debug (MsgCreatingIssue n); EvGitHubGetRepo repo;
       EvJiraCreateIssue issue (Ok created);
       EvJiraGetIssue (jira.Key created) (Err e)]
      (Some e)
| CSynced n repo issue created fetched r :
    github.Number gh = Some n ->
    create_shape gh
      [EvLog Debug (MsgCreatingIssue n); EvGitHubGetRepo repo;
       EvJiraCreateIssue issue (Ok created);
       EvJiraGetIssue (jira.Key created) (Ok fetched);
       EvLog Debug (MsgCreated (jira.Key fetched));
       EvCompareComments gh fetched r]
      r.

(** The events of one turn of the outer loop of [CompareIssues]: an update
    of a destination issue of the list or a create, and the error log when
    that returned an error. *)
Inductive reconcile_shape (jiraIssues : list jira.Issue) (gh : github.Issue)
  : list event -> Prop :=
| RUpdate j d r :
    In j jiraIssues ->
    update_shape gh j d r ->
    reconcile_shape jiraIssues gh (d ++ errlog (MsgErrUpdating (jira.Key j)) r)
| RCreate n d r :
    github.Number gh = Some n ->
    create_shape gh d r ->
    reconcile_shape jiraIssues gh (d ++ errlog (MsgErrCreating n) r).

(** A create or update submission that failed with [e]. *)
Definition write_failed (d : list event) (e : error) : Prop :=
  exists issue,
    In (EvJiraCreateIssue issue (Err e)) d \/ In (EvJiraUpdateIssue issue (Err e)) d.


(** The last event is the error-level log of a failed update or create
    carrying [e]. *)
Definition failure_logged (d : list event) (e : error) : Prop :=
  exists d0 msg,
    d = d0 ++ [EvLog Error msg]
    /\ ((exists key, msg = MsgErrUpdating key e) \/ (exists n, msg = MsgErrCreating n e)).

(** The first event is the entry of [UpdateIssue] or of [CreateIssue] for
    the source issue. *)
Definition attempted (gh : github.Issue) (d : list event) : Prop :=
  exists n rest,
    github.Number gh = Some n
    /\ ((exists key, d = EvLog Debug (MsgUpdating key n) :: rest)
        \/ d = EvLog Debug (MsgCreatingIssue n) :: rest).

(** The events of a pass before the first source issue is taken up. *)
Definition pass_header (ghIssues : list github.Issue) (jiraIssues : list jira.Issue)
  : list event :=
  [EvLog Debug MsgCollecting;
   EvGitHubListIssues (Ok ghIssues);
   EvJiraListIssues (map github.GetID ghIssues) (Ok jiraIssues);
   EvLog Debug MsgCollected].


(** ** Calls by kind, and destination issues that are not linked *)

Definition is_create_call (e : event) : bool :=
  match e with EvJiraCreateIssue _ _ => true | _ => false end.

(** A re-fetch of a destination issue by key. *)
Definition is_refetch (e : event) : bool :=
  match e with EvJiraGetIssue _ _ => true | _ => false end.

(** A create or update submission. *)
Definition is_write (e : event) : bool := is_create_call e || is_update_call e.

(** The listing of the destination issues. *)
Definition is_listing (e : event) : bool :=
  match e with EvJiraListIssues _ _ => true | _ => false end.

(** The number of events of a kind. *)
Definition count (p : event -> bool) (d : list event) : nat :=
  length (List.filter p d).

(** The destination issue does not carry the id of the source issue: the
    test of the inner loop of [CompareIssues] is false. *)
Definition unlinked (config : Config) (gh : github.Issue) (j : jira.Issue) : Prop :=
  forall u, linked config gh j u = (Val false, u).

(** No string of the list occurs twice. *)
Fixpoint nodupb (l : list string) : bool :=
  match l with
  | [] => true
  | x :: l' => negb (existsb (String.eqb x) l') && nodupb l'
  end.

(** The six custom fields have six different ids. *)
Definition distinct_field_ids (c : Config) : bool :=
  nodupb (map (GetFieldID c)
            [GitHubID; GitHubNumber; GitHubStatus; GitHubReporter; GitHubLabels;
             LastISUpdate]).

(** ** A small configuration, two source issues and a few worlds *)

Module Examples.
Definition config0 : Config := {|
  fieldIDs := {| githubID := "10001"; githubNumber := "10002";
                 githubLabels := "10003"; githubReporter := "10004";
                 githubStatus := "10005"; lastUpdate := "10006" |};
  projects := {[ "coreos/issue-sync" := jira.Build_Project "1" "PRJ" "Project" ]};
|}.

Definition alice : github.User := {| github.Login := Some "alice" |}.

Definition ghA : github.Issue := {|
  github.ID := Some 101%Z; github.Number := Some 1%Z;
  github.State := Some "open"; github.Title := Some "A";
  github.Body := Some "first"; github.User_ := Some alice;
  github.Labels := [ {| github.Name := Some "bug" |} ] |}.

Definition ghB : github.Issue := {|
  github.ID := Some 102%Z; github.Number := Some 2%Z;
  github.State := Some "open"; github.Title := Some "B";
  github.Body := Some "second"; github.User_ := Some alice;
  github.Labels := [] |}.

(** A source issue whose numeric id is 0. *)
Definition ghZero : github.Issue := {|
  github.ID := Some 0%Z; github.Number := Some 3%Z;
  github.State := Some "open"; github.Title := Some "Z";
  github.Body := Some "third"; github.User_ := Some alice;
  github.Labels := [] |}.

Definition translated (gh : github.Issue) : TranslatedIssue :=
  {| Issue := gh;
     TranslatedBody := Some (GitHubToJiraBody (default "" (github.Body gh))) |}.

Definition task : jira.IssueType := {| jira.TypeName := "Task" |}.

(** The destination issue linked to [ghA], in step with it. *)
Definition fieldsA : jira.IssueFields := {|
  jira.Type_ := task; jira.Project_ := jira.noProject;
  jira.Summary := "A"; jira.Description := "first";
  jira.Unknowns :=
    <["customfield_10001" := jira.VNumber 101]>
    (<["customfield_10005" := jira.VString "open"]>
    (<["customfield_10004" := jira.VString "alice"]>
    (<["customfield_10003" := jira.VString "bug"]> ∅))) |}.
Definition jA : jira.Issue :=
  {| jira.Fields := Some fieldsA; jira.Key := "PRJ-1"; jira.ID := "1" |}.

(** The same record with other labels stored. *)
Definition fieldsA' : jira.IssueFields := {|
  jira.Type_ := task; jira.Project_ := jira.noProject;
  jira.Summary := "A"; jira.Description := "first";
  jira.Unknowns :=
    <["customfield_10001" := jira.VNumber 101]>
    (<["customfield_10005" := jira.VString "open"]>
    (<["customfield_10004" := jira.VString "alice"]>
    (<["customfield_10003" := jira.VString "wontfix"]> ∅))) |}.
Definition jA' : jira.Issue :=
  {| jira.Fields := Some fieldsA'; jira.Key := "PRJ-1"; jira.ID := "1" |}.

(** A destination issue without a GitHub ID field. *)
Definition fieldsNoID : jira.IssueFields := {|
  jira.Type_ := task; jira.Project_ := jira.noProject;
  jira.Summary := "stray"; jira.Description := "";
  jira.Unknowns := ∅ |}.
Definition jNoID : jira.Issue :=
  {| jira.Fields := Some fieldsNoID; jira.Key := "PRJ-9"; jira.ID := "9" |}.

Definition jNew : jira.Issue :=
  {| jira.Fields := None; jira.Key := "PRJ-7"; jira.ID := "7" |}.

(** Every write succeeds, every re-fetch by key fails. *)
Definition refetch_fails (ghIssues : list github.Issue)
    (jiraIssues : list jira.Issue) : World := {|
  gh_ListIssues := fun _ => Ok ghIssues;
  gh_GetRepo := fun _ => "coreos/issue-sync";
  jira_ListIssues := fun _ _ => Ok jiraIssues;
  jira_CreateIssue := fun _ _ => Ok jNew;
  jira_UpdateIssue := fun _ i => Ok i;
  jira_GetIssue := fun _ _ => Err "timeout";
  compare_comments := fun _ _ _ => None;
  now := fun _ => "2017-08-01T12:00:00.0+0000" |}.

(** The create of the issue titled A is rejected; everything else
    succeeds. *)
Definition create_of_A_fails (ghIssues : list github.Issue) : World := {|
  gh_ListIssues := fun _ => Ok ghIssues;
  gh_GetRepo := fun _ => "coreos/issue-sync";
  jira_ListIssues := fun _ _ => Ok [];
  jira_CreateIssue := fun _ i =>
    match jira.Fields i with
    | Some f => if String.eqb (jira.Summary f) "A" then Err "rejected" else Ok jNew
    | None => Ok jNew
    end;
  jira_UpdateIssue := fun _ i => Ok i;
  jira_GetIssue := fun _ _ => Ok jNew;
  compare_comments := fun _ _ _ => None;
  now := fun _ => "2017-08-01T12:00:00.0+0000" |}.

(** A source issue without a body. *)
Definition ghNoBody : github.Issue := {|
  github.ID := Some 103%Z; github.Number := Some 4%Z;
  github.State := Some "open"; github.Title := Some "N";
  github.Body := None; github.User_ := Some alice;
  github.Labels := [] |}.

(** The destination listing fails. *)
Definition destination_down (ghIssues : list github.Issue) : World := {|
  gh_ListIssues := fun _ => Ok ghIssues;
  gh_GetRepo := fun _ => "coreos/issue-sync";
  jira_ListIssues := fun _ _ => Err "jira: 503";
  jira_CreateIssue := fun _ _ => Ok jNew;
  jira_UpdateIssue := fun _ i => Ok i;
  jira_GetIssue := fun _ _ => Ok jNew;
  compare_comments := fun _ _ _ => None;
  now := fun _ => "2017-08-01T12:00:00.0+0000" |}.

(** The configuration when no field ID was found. *)
Definition no_field_ids : Config := {|
  fieldIDs := Setup.noFields;
  projects := projects config0 |}.

End Examples.

End Sync.

(* ===================================================================== *)
(** * Properties of Go strings and of the matcher *)
(* ===================================================================== *)

Module GoStringFacts.
Import GoString.

Lemma byteZ_range c : (0 <= byteZ c < 256)%Z.
Proof.
  unfold byteZ. pose proof (N_ascii_bounded c). lia.
Qed.

Lemma lor_ge_l a b : (0 <= a -> 0 <= b -> a <= Z.lor a b)%Z.
Proof.
  intros Ha Hb.
  pose proof (Zbitwise.Z.add_lor_land a b) as H.
  assert (Z.land a b <= b)%Z.
  { rewrite <- (Z2N.id a), <- (Z2N.id b) by assumption.
    rewrite <- N2Z.inj_land. apply N2Z.inj_le. apply N.land_le_r. }
  lia.
Qed.

(** The first rune of a non-empty string: one ASCII byte, or an error of
    width 1, or a rune of two to four bytes that is no ASCII byte. *)
Lemma DecodeRune_cases c0 t0 :
  let rw := DecodeRuneInString (String c0 t0) in
  (snd rw = 1 /\ (fst rw = byteZ c0 /\ (byteZ c0 < 128)%Z \/ fst rw = RuneError))
  \/ (2 <= snd rw <= String.length (String c0 t0) /\ (128 <= fst rw)%Z).
Proof.
  pose proof (byteZ_range c0) as R0.
  cbn zeta. unfold DecodeRuneInString.
  destruct (byteZ c0 <? 128)%Z eqn:E0; [left; cbn; split; [reflexivity|]; left; lia|].
  apply Z.ltb_ge in E0.
  destruct ((byteZ c0 <? 194)%Z || (244 <? byteZ c0)%Z) eqn:E1;
    [left; cbn; split; [reflexivity|]; now right|].
  apply orb_false_iff in E1 as [E1 E2]. apply Z.ltb_ge in E1, E2.
  cbn zeta.
  destruct (acceptRange (byteZ c0)) as [lo hi] eqn:EA.
  set (sz := if (byteZ c0 <? 224)%Z then 2 else if (byteZ c0 <? 240)%Z then 3 else 4).
  destruct (String.length (String c0 t0) <? sz)%nat eqn:EL;
    [left; cbn; split; [reflexivity|]; now right|].
  apply Nat.ltb_ge in EL.
  destruct t0 as [|c1 t1]; [left; cbn; split; [reflexivity|]; now right|].
  pose proof (byteZ_range c1) as R1.
  destruct ((byteZ c1 <? lo)%Z || (hi <? byteZ c1)%Z) eqn:E3;
    [left; cbn; split; [reflexivity|]; now right|].
  apply orb_false_iff in E3 as [E3 E4]. apply Z.ltb_ge in E3, E4.
  assert (Hlo : (128 <= lo)%Z /\ (hi <= 191)%Z).
  { unfold acceptRange in EA.
    repeat match type of EA with (if ?c then _ else _) = _ => destruct c end;
      inversion EA; lia. }
  assert (M1 : (0 <= Z.land (byteZ c1) 63)%Z) by (apply Z.land_nonneg; lia).
  destruct (sz <=? 2)%nat eqn:S2.
  { right. cbn [fst snd]. split; [cbn [String.length] in *; lia|].
    assert (sz = 2) by (apply Nat.leb_le in S2; unfold sz in *;
      repeat match goal with |- context [if ?c then _ else _] => destruct c end; lia).
    assert (byteZ c0 < 224)%Z.
    { unfold sz in H. destruct (byteZ c0 <? 224)%Z eqn:E; [lia|].
      destruct (byteZ c0 <? 240)%Z; discriminate. }
    etransitivity; [|apply lor_ge_l; [apply Z.shiftl_nonneg, Z.land_nonneg; lia|exact M1]].
    rewrite Z.shiftl_mul_pow2 by lia. change 31%Z with (Z.ones 5).
    rewrite Z.land_ones by lia. change (2 ^ 5)%Z with 32%Z. change (2 ^ 6)%Z with 64%Z.
    clear - E1 H0. Z.div_mod_to_equations. lia. }
  apply Nat.leb_gt in S2.
  destruct t1 as [|c2 t2]; [left; cbn; split; [reflexivity|]; now right|].
  pose proof (byteZ_range c2) as R2.
  destruct (negb (cont_byte (byteZ c2))) eqn:E5;
    [left; cbn; split; [reflexivity|]; now right|].
  assert (M2 : (0 <= Z.land (byteZ c2) 63)%Z) by (apply Z.land_nonneg; lia).
  assert (A1 : (byteZ c0 = 224 -> 160 <= byteZ c1)%Z).
  { intros Heq. unfold acceptRange in EA. rewrite Heq in EA. cbn in EA.
    inversion EA. lia. }
  assert (A2 : (byteZ c0 = 240 -> 144 <= byteZ c1)%Z).
  { intros Heq. unfold acceptRange in EA. rewrite Heq in EA. cbn in EA.
    inversion EA. lia. }
  assert (Hge224 : (224 <= byteZ c0)%Z).
  { unfold sz in S2. destruct (byteZ c0 <? 224)%Z eqn:E; [lia|]. now apply Z.ltb_ge in E. }
  destruct (sz <=? 3)%nat eqn:S3.
  { right. cbn [fst snd]. split; [cbn [String.length] in *; lia|].
    assert (byteZ c0 < 240)%Z.
    { apply Nat.leb_le in S3. unfold sz in S3.
      destruct (byteZ c0 <? 224)%Z; [lia|].
      destruct (byteZ c0 <? 240)%Z eqn:E; [now apply Z.ltb_lt in E|lia]. }
    etransitivity; [|apply lor_ge_l; [|exact M2]].
    2:{ apply Z.lor_nonneg. split; apply Z.shiftl_nonneg, Z.land_nonneg; lia. }
    destruct (Z.eq_dec (byteZ c0) 224%Z) as [Heq|Hne].
    - etransitivity; [|rewrite Z.lor_comm; apply lor_ge_l;
                        apply Z.shiftl_nonneg, Z.land_nonneg; lia].
      rewrite Z.shiftl_mul_pow2 by lia. change 63%Z with (Z.ones 6).
      rewrite Z.land_ones by lia. change (2 ^ 6)%Z with 64%Z.
      specialize (A1 Heq). clear - A1 R1 E4 Hlo. Z.div_mod_to_equations. lia.
    - etransitivity; [|apply lor_ge_l; apply Z.shiftl_nonneg, Z.land_nonneg; lia].
      rewrite Z.shiftl_mul_pow2 by lia. change 15%Z with (Z.ones 4).
      rewrite Z.land_ones by lia. change (2 ^ 4)%Z with 16%Z. change (2 ^ 12)%Z with 4096%Z.
      clear - Hge224 H Hne. Z.div_mod_to_equations. lia. }
  apply Nat.leb_gt in S3.
  destruct t2 as [|c3 t3]; [left; cbn; split; [reflexivity|]; now right|].
  pose proof (byteZ_range c3) as R3.
  destruct (negb (cont_byte (byteZ c3))) eqn:E6;
    [left; cbn; split; [reflexivity|]; now right|].
  right. cbn [fst snd]. split; [cbn [String.length] in *; lia|].
  assert (M3 : (0 <= Z.land (byteZ c3) 63)%Z) by (apply Z.land_nonneg; lia).
  assert (Hge240 : (240 <= byteZ c0)%Z).
  { unfold sz in S3. destruct (byteZ c0 <? 224)%Z; [lia|].
    destruct (byteZ c0 <? 240)%Z eqn:E; [lia|]. now apply Z.ltb_ge in E. }
  etransitivity; [|apply lor_ge_l; [|exact M3]].
  2:{ apply Z.lor_nonneg. split; [apply Z.lor_nonneg; split|];
        apply Z.shiftl_nonneg, Z.land_nonneg; lia. }
  etransitivity; [|apply lor_ge_l; [|apply Z.shiftl_nonneg; exact M2]].
  2:{ apply Z.lor_nonneg. split; apply Z.shiftl_nonneg, Z.land_nonneg; lia. }
  destruct (Z.eq_dec (byteZ c0) 240%Z) as [Heq|Hne].
  - etransitivity; [|rewrite Z.lor_comm; apply lor_ge_l;
                      apply Z.shiftl_nonneg, Z.land_nonneg; lia].
    rewrite Z.shiftl_mul_pow2 by lia. change 63%Z with (Z.ones 6).
    rewrite Z.land_ones by lia. change (2 ^ 6)%Z with 64%Z. change (2 ^ 12)%Z with 4096%Z.
    specialize (A2 Heq). clear - A2 R1 E4 Hlo. Z.div_mod_to_equations. lia.
  - etransitivity; [|apply lor_ge_l; apply Z.shiftl_nonneg, Z.land_nonneg; lia].
    rewrite Z.shiftl_mul_pow2 by lia. change 7%Z with (Z.ones 3).
    rewrite Z.land_ones by lia. change (2 ^ 3)%Z with 8%Z. change (2 ^ 18)%Z with 262144%Z.
    clear - Hge240 E2 Hne. Z.div_mod_to_equations. lia.
Qed.

Lemma byteZ_inj a b : byteZ a = byteZ b -> a = b.
Proof.
  unfold byteZ. intros H. apply N2Z.inj in H.
  rewrite <- (ascii_N_embedding a), <- (ascii_N_embedding b). now rewrite H.
Qed.

Lemma DecodeRune_width c0 t0 :
  1 <= snd (DecodeRuneInString (String c0 t0)) <= String.length (String c0 t0).
Proof.
  destruct (DecodeRune_cases c0 t0) as [[H _]|[H _]]; cbn [String.length] in *; lia.
Qed.

Lemma runes_from_widths s : forall k,
  k <= String.length s -> widths (runes_from k s) + k = String.length s.
Proof.
  induction s as [|c s IH]; intros k Hk; cbn [String.length] in *.
  - cbn. lia.
  - destruct k as [|k]; cbn [runes_from].
    + pose proof (DecodeRune_width c s) as Hw. cbn [String.length] in Hw.
      destruct (DecodeRuneInString (String c s)) as [r w] eqn:E. cbn [snd] in *.
      cbn [widths]. specialize (IH (w - 1)). lia.
    + specialize (IH k). lia.
Qed.

Lemma runes_widths s : widths (runes s) = String.length s.
Proof. pose proof (runes_from_widths s 0). unfold runes. lia. Qed.

Lemma runes_from_pos s : forall k, Forall (fun t => 1 <= snd t) (runes_from k s).
Proof.
  induction s as [|c s IH]; intros k; cbn [runes_from]; [constructor|].
  destruct k; [|apply IH].
  constructor; [|apply IH]. apply DecodeRune_width.
Qed.

Lemma avoids_runes_from c s : forall k,
  is_ascii c = true -> avoids c s = true -> nochar c (runes_from k s).
Proof.
  unfold nochar, is_ascii. intros k Hc. revert k.
  induction s as [|b s IH]; intros k Hs; cbn [runes_from]; [constructor|].
  cbn [avoids] in Hs. apply andb_true_iff in Hs as [Hb Hs].
  destruct k; [|now apply IH].
  constructor; [|now apply IH].
  apply Z.ltb_lt in Hc.
  destruct (DecodeRune_cases b s) as [[_ [[H _]|H]]|[_ H]].
  - rewrite H. intros E. apply byteZ_inj in E. subst.
    now rewrite Ascii.eqb_refl in Hb.
  - rewrite H. unfold RuneError. lia.
  - lia.
Qed.

Lemma avoids_runes c s : is_ascii c = true -> avoids c s = true -> nochar c (runes s).
Proof. apply avoids_runes_from. Qed.

Lemma runes_ascii c s :
  is_ascii c = true -> runes (String c s) = (byteZ c, 1) :: runes s.
Proof.
  unfold runes, is_ascii. intros H. cbn [runes_from].
  unfold DecodeRuneInString. rewrite H. reflexivity.
Qed.

Lemma drop_0 s : drop 0 s = s.
Proof. now destruct s. Qed.

Lemma drop_length s : drop (String.length s) s = "".
Proof. induction s as [|a s IH]; [reflexivity|]. exact IH. Qed.

Lemma append_cons a s t : String a s +:+ t = String a (s +:+ t).
Proof. reflexivity. Qed.

Lemma append_nil_l t : "" +:+ t = t.
Proof. reflexivity. Qed.

Lemma append_nil_r s : s +:+ "" = s.
Proof. induction s as [|a s IH]; [reflexivity|]. now rewrite append_cons, IH. Qed.

Lemma substring_full s : substring 0 (String.length s) s = s.
Proof.
  induction s as [|a s IH]; [reflexivity|]. simpl. now rewrite IH.
Qed.

Lemma substring_0_0 s : substring 0 0 s = "".
Proof. now destruct s. Qed.

Lemma avoids_app c a b : avoids c (a +:+ b) = avoids c a && avoids c b.
Proof.
  induction a as [|x a IH]; [reflexivity|].
  rewrite append_cons. cbn [avoids]. now rewrite IH, andb_assoc.
Qed.

Lemma length_app a b : String.length (a +:+ b) = String.length a + String.length b.
Proof.
  induction a as [|x a IH]; [reflexivity|].
  rewrite append_cons. cbn [String.length]. now rewrite IH.
Qed.

Lemma runes_app_ascii pre text :
  all_ascii pre = true ->
  runes (pre +:+ text) = map (fun c => (byteZ c, 1)) (list_ascii_of_string pre) ++ runes text.
Proof.
  induction pre as [|c pre IH]; [reflexivity|].
  cbn [all_ascii]. intros H. apply andb_true_iff in H as [Hc Hp].
  rewrite append_cons, runes_ascii by assumption.
  cbn [list_ascii_of_string map app]. now rewrite IH.
Qed.

Lemma slice_suffix pre text :
  slice (pre +:+ text) (String.length pre) (String.length (pre +:+ text)) = text.
Proof.
  unfold slice. induction pre as [|c pre IH].
  - rewrite append_nil_l. cbn [String.length]. rewrite Nat.sub_0_r. apply substring_full.
  - rewrite append_cons. cbn [String.length Nat.sub substring]. exact IH.
Qed.

End GoStringFacts.

Module RegexpFacts.
Import GoString Regexp GoStringFacts.

(** ** Patterns that cannot match *)

Section Fails.
Context {R : Type} (c : ascii).

Lemma star_fails g cl (k : @cont R) s : forall prev pos cs,
  fails_without c k -> nochar c s -> star g cl prev s pos cs k = None.
Proof.
  induction s as [|[r w] s IH]; intros prev pos cs Hk Hs; cbn [star].
  - now apply Hk.
  - assert (Hs' : nochar c s) by now inversion Hs.
    destruct (in_class cl r); [|now apply Hk].
    destruct g; rewrite IH by assumption; rewrite ?Hk by assumption; reflexivity.
Qed.

Lemma exec_fails m U re : forall (k : @cont R) prev s pos cs,
  fails_without c k -> nochar c s -> exec m U re prev s pos cs k = None.
Proof.
  induction re as [cl|cl|cl| | |n re IH|r1 IH1 r2 IH2|];
    intros k prev s pos cs Hk Hs; cbn [exec].
  - destruct s as [|[r w] s]; [reflexivity|].
    destruct (in_class cl r); [|reflexivity]. apply Hk. now inversion Hs.
  - now apply star_fails.
  - destruct s as [|[r w] s]; [reflexivity|].
    destruct (in_class cl r); [|reflexivity]. apply star_fails; [assumption|].
    now inversion Hs.
  - destruct (at_bol m prev); [now apply Hk|reflexivity].
  - destruct (at_eol m s); [now apply Hk|reflexivity].
  - apply IH; [|assumption]. intros p s' pos' cs' Hs'. now apply Hk.
  - apply IH1; [|assumption]. intros p s' pos' cs' Hs'. now apply IH2.
  - now apply Hk.
Qed.

Lemma exec_requires m U re : forall (k : @cont R) prev s pos cs,
  requires c re = true -> nochar c s -> exec m U re prev s pos cs k = None.
Proof.
  induction re as [cl|cl|cl| | |n re IH|r1 IH1 r2 IH2|];
    intros k prev s pos cs Hr Hs; cbn [requires] in Hr; try discriminate; cbn [exec].
  - destruct cl; try discriminate. apply Ascii.eqb_eq in Hr. subst.
    destruct s as [|[r w] s]; [reflexivity|].
    inversion Hs as [|? ? Hne _]; subst. cbn [fst] in Hne. cbn [in_class].
    apply Z.eqb_neq in Hne. now rewrite Hne.
  - now apply IH.
  - apply orb_true_iff in Hr as [Hr|Hr].
    + now apply IH1.
    + apply exec_fails; [|assumption]. intros p s' pos' cs' Hs'. now apply IH2.
Qed.
End Fails.

Lemma search_requires c re s : forall prev pos,
  requires c (prog re) = true -> nochar c s -> search re prev s pos = None.
Proof.
  induction s as [|[r w] s IH]; intros prev pos Hr Hs; cbn [search];
    unfold match_at; rewrite (exec_requires c) by assumption; [reflexivity|].
  apply IH; [assumption|]. now inversion Hs.
Qed.

Lemma seek_suffix s : forall prev pos target p' s' pos',
  seek prev s pos target = (p', s', pos') -> exists l, s = l ++ s'.
Proof.
  induction s as [|[r w] s IH]; intros prev pos target p' s' pos' H; cbn [seek] in H.
  - destruct (target <=? pos)%nat; inversion H; now exists [].
  - destruct (target <=? pos)%nat.
    + inversion H. now exists [].
    + apply IH in H as [l ->]. now exists ((r, w) :: l).
Qed.

Lemma doExecute_requires c re src pos :
  is_ascii c = true -> requires c (prog re) = true -> avoids c src = true ->
  doExecute re src pos = None.
Proof.
  intros Hc Hr Hs. unfold doExecute.
  destruct (seek None (runes src) 0 pos) as [[p s] q] eqn:E.
  apply seek_suffix in E as [l E].
  apply (search_requires c); [assumption|].
  pose proof (avoids_runes c src Hc Hs) as H. rewrite E in H.
  unfold nochar in *. now apply Forall_app in H as [_ H].
Qed.

(** A rule whose pattern needs a byte that the text does not hold leaves
    the text as it is. *)
Lemma ReplaceAllString_requires c re src repl :
  is_ascii c = true -> requires c (prog re) = true -> avoids c src = true ->
  ReplaceAllString re src repl = src.
Proof.
  intros Hc Hr Hs. unfold ReplaceAllString. cbn [replaceAll_loop].
  rewrite (doExecute_requires c) by assumption.
  now destruct (0 <=? String.length src)%nat.
Qed.

(** ** Patterns anchored at the start of a line *)

Lemma match_at_bol re p s pos :
  begins_bol re = true -> p <> NL -> match_at re (Some p) s pos = None.
Proof.
  unfold begins_bol, match_at. destruct (prog re) as [| | | | | |r1 r2|]; try discriminate.
  destruct r1; try discriminate. intros _ Hp. cbn [exec at_bol].
  apply Z.eqb_neq in Hp. rewrite Hp. now rewrite andb_false_r.
Qed.

Lemma search_bol re s : forall p pos,
  begins_bol re = true -> p <> NL -> nochar newline s ->
  search re (Some p) s pos = None.
Proof.
  induction s as [|[r w] s IH]; intros p pos Hb Hp Hs; cbn [search];
    rewrite match_at_bol by assumption; [reflexivity|].
  inversion Hs as [|? ? Hr Hs']; subst. apply IH; assumption.
Qed.

Lemma seek_here prev s pos : seek prev s pos pos = (prev, s, pos).
Proof. destruct s as [|[r w] s]; cbn [seek]; now rewrite Nat.leb_refl. Qed.

(** A rule anchored at the start of a line leaves a one-line text as it is
    when its pattern does not match at the start of the text. *)
Lemma ReplaceAllString_bol re src repl :
  begins_bol re = true -> avoids newline src = true ->
  match_at re None (runes src) 0 = None ->
  ReplaceAllString re src repl = src.
Proof.
  intros Hb Hs H0. unfold ReplaceAllString. cbn [replaceAll_loop].
  assert (E : doExecute re src 0 = None).
  { unfold doExecute. rewrite seek_here.
    pose proof (avoids_runes newline src eq_refl Hs) as Hn.
    destruct (runes src) as [|[r w] s]; cbn [search]; rewrite H0; [reflexivity|].
    inversion Hn as [|? ? Hr Hn']; subst. now apply search_bol. }
  rewrite E. now destruct (0 <=? String.length src)%nat.
Qed.

(** ** A pattern that matches the whole text *)

Section Star.
Context {R : Type}.

(** A greedy star over runes that are all in the class takes them all
    when the rest of the pattern matches at the end. *)
Lemma star_greedy_all cl (k : @cont R) x s : forall prev pos cs,
  Forall (fun t => in_class cl (fst t) = true) s ->
  k (last_rune prev s) [] (pos + widths s) cs = Some x ->
  star true cl prev s pos cs k = Some x.
Proof.
  induction s as [|[r w] s IH]; intros prev pos cs Hs Hk; cbn [star].
  - cbn [last_rune widths] in Hk. now rewrite Nat.add_0_r in Hk.
  - inversion Hs as [|? ? Hr Hs']; subst. cbn [fst] in Hr. rewrite Hr.
    rewrite (IH (Some r) (pos + w) cs Hs'); [reflexivity|].
    cbn [last_rune widths] in Hk. now rewrite <- Nat.add_assoc.
Qed.
End Star.

Lemma nochar_newline_dot s :
  nochar newline s -> Forall (fun t => in_class CDot (fst t) = true) s.
Proof.
  unfold nochar. apply List.Forall_impl. intros [r w] H. cbn in *.
  apply negb_true_iff, Z.eqb_neq. exact H.
Qed.

Lemma seek_end s : forall prev pos,
  Forall (fun t => 1 <= snd t) s ->
  seek prev s pos (pos + widths s) = (last_rune prev s, [], pos + widths s).
Proof.
  induction s as [|[r w] s IH]; intros prev pos Hs; cbn [seek widths last_rune].
  - rewrite Nat.add_0_r, Nat.leb_refl. reflexivity.
  - inversion Hs as [|? ? Hw Hs']; subst. cbn [snd] in Hw.
    destruct (pos + (w + widths s) <=? pos)%nat eqn:E; [apply Nat.leb_le in E; lia|].
    rewrite Nat.add_assoc. apply IH. assumption.
Qed.

(** A rule whose pattern matches the whole of a text, and needs a byte to
    match at all, replaces the text by the expansion of its template. *)
Lemma ReplaceAllString_whole c re src repl cs :
  requires c (prog re) = true ->
  src <> "" ->
  match_at re None (runes src) 0 = Some (0, String.length src, cs) ->
  ReplaceAllString re src repl
  = expand (String.length repl) repl src ((0, (0, String.length src)) :: cs).
Proof.
  intros Hr Hne H0. unfold ReplaceAllString.
  destruct src as [|c0 src']; [contradiction|].
  set (src := String c0 src') in *.
  assert (E0 : doExecute re src 0 = Some (0, String.length src, cs)).
  { unfold doExecute. rewrite seek_here.
    destruct (runes src) as [|[r w] s]; cbn [search]; now rewrite H0. }
  assert (E1 : doExecute re src (String.length src) = None).
  { unfold doExecute.
    pose proof (seek_end (runes src) None 0 (runes_from_pos src 0)) as Hseek.
    rewrite runes_widths in Hseek. cbn [Nat.add] in Hseek. rewrite Hseek.
    cbn [search]. unfold match_at.
    rewrite (exec_requires c); [reflexivity|assumption|constructor]. }
  cbn [replaceAll_loop]. cbn [Nat.leb]. rewrite E0.
  pose proof (DecodeRune_width c0 src') as Hw. fold src in Hw.
  rewrite drop_0. unfold slice. cbn [Nat.sub]. rewrite substring_0_0.
  assert (Hlen : String.length src = S (String.length src')) by reflexivity.
  replace ((0 <? String.length src)%nat || (0 =? 0)%nat) with true
    by (now rewrite orb_true_r).
  destruct (String.length src <? 0 + snd (DecodeRuneInString src))%nat eqn:Ea;
    [apply Nat.ltb_lt in Ea; lia|].
  destruct (String.length src <? 0 + 1)%nat eqn:Eb; [apply Nat.ltb_lt in Eb; lia|].
  rewrite Hlen at 1. cbn [replaceAll_loop]. rewrite Nat.leb_refl. rewrite E1.
  rewrite drop_length. now rewrite append_nil_l, append_nil_r.
Qed.

(** ** The examples of the package documentation

    A name after a dollar runs as far as letters, digits and underscores
    go: [$1W] is the group named [1W], which is empty, not group 1
    followed by a [W]. *)

Example doc_replace_plain : ReplaceAllString doc_pattern "-ab-axxb-" "T" = "-T-T-".
Proof. reflexivity. Qed.

Example doc_replace_group : ReplaceAllString doc_pattern "-ab-axxb-" "$1" = "--xx-".
Proof. reflexivity. Qed.

Example doc_replace_long_name : ReplaceAllString doc_pattern "-ab-axxb-" "$1W" = "---".
Proof. reflexivity. Qed.

Example doc_replace_braces : ReplaceAllString doc_pattern "-ab-axxb-" "${1}W" = "-W-xxW-".
Proof. reflexivity. Qed.

End RegexpFacts.

(* ===================================================================== *)
(** * Properties of the markup translator *)
(* ===================================================================== *)

Module MarkupFacts.
Import GoString Regexp Markup GoStringFacts RegexpFacts.

Section Lit.
Context {R : Type}.

(** The literal of a pattern consumes itself. *)
Lemma exec_lit m U pre (k : @cont R) rest : forall prev pos cs,
  exec m U (lit pre) prev
    (map (fun c => (byteZ c, 1)) (list_ascii_of_string pre) ++ rest) pos cs k
  = k (last_byte prev pre) rest (pos + String.length pre) cs.
Proof.
  induction pre as [|c pre IH]; intros prev pos cs.
  - cbn. now rewrite Nat.add_0_r.
  - cbn [list_ascii_of_string map app last_byte String.length].
    destruct pre as [|c' pre'].
    + cbn [lit exec in_class last_byte String.length list_ascii_of_string map app].
      now rewrite Z.eqb_refl.
    + change (lit (String c (String c' pre')))
        with (Cat (Chr (CLit c)) (lit (String c' pre'))).
      cbn [exec in_class]. rewrite Z.eqb_refl. rewrite IH.
      f_equal. lia.
Qed.
End Lit.

(** A heading pattern matches the whole of a heading line. *)
Lemma heading_match pre text :
  all_ascii pre = true -> avoids newline text = true ->
  match_at (MustCompile true false (seq [Bol; lit pre; Group 1 (Star CDot); Eol]))
    None (runes (pre +:+ text)) 0
  = Some (0, String.length (pre +:+ text),
          [(1, (String.length pre, String.length (pre +:+ text)))]).
Proof.
  intros Hp Ht. unfold match_at. rewrite runes_app_ascii by assumption.
  cbn [prog flag_m flag_U seq fold_right exec at_bol negb].
  rewrite exec_lit. cbn [exec negb Nat.add].
  rewrite (star_greedy_all CDot _
             (0, String.length (pre +:+ text),
              [(1, (String.length pre, String.length (pre +:+ text)))])).
  - reflexivity.
  - apply nochar_newline_dot. now apply avoids_runes.
  - cbn [at_eol]. rewrite runes_widths, length_app. reflexivity.
Qed.

(** The heading templates: the prefix, then the first submatch. *)
Lemma expand_heading (hp : string) src a b x y :
  existsb (String.eqb hp) ["h1. "; "h2. "; "h3. "; "h5. "; "h6. "] = true ->
  expand (String.length (hp +:+ "$1")) (hp +:+ "$1") src [(0, (a, b)); (1, (x, y))]
  = hp +:+ slice src x y.
Proof.
  intros H. cbn [existsb] in H. rewrite !orb_true_iff in H.
  repeat (destruct H as [H|H];
          [apply String.eqb_eq in H; subst hp;
           rewrite <- (append_nil_r (slice src x y)); reflexivity|]).
  discriminate.
Qed.

(** The heading rule of a level rewrites a line of that level. *)
Lemma rule_heading re pre hp text :
  re = MustCompile true false (seq [Bol; lit pre; Group 1 (Star CDot); Eol]) ->
  all_ascii pre = true -> requires "#" (lit pre) = true ->
  existsb (String.eqb hp) ["h1. "; "h2. "; "h3. "; "h5. "; "h6. "] = true ->
  avoids newline text = true ->
  ReplaceAllString re (pre +:+ text) (hp +:+ "$1") = hp +:+ text.
Proof.
  intros -> Hp Hr Hh Ht.
  rewrite (ReplaceAllString_whole "#" _ _ _
             [(1, (String.length pre, String.length (pre +:+ text)))]).
  - rewrite expand_heading by assumption. now rewrite slice_suffix.
  - cbn [prog seq fold_right requires]. now rewrite Hr.
  - destruct pre; [discriminate|]. rewrite append_cons. discriminate.
  - now apply heading_match.
Qed.

(** A rule anchored at the start of a line leaves a line as it is when its
    pattern already fails on the first bytes of the line. *)
Lemma rule_bol re pre text repl :
  begins_bol re = true ->
  all_ascii pre = true -> avoids newline pre = true ->
  (forall rest,
     match_at re None (map (fun c => (byteZ c, 1)) (list_ascii_of_string pre) ++ rest) 0
     = None) ->
  avoids newline text = true ->
  ReplaceAllString re (pre +:+ text) repl = pre +:+ text.
Proof.
  intros Hb Hp Hn Hm Ht. apply ReplaceAllString_bol; [assumption| |].
  - now rewrite avoids_app, Hn, Ht.
  - rewrite runes_app_ascii by assumption. apply Hm.
Qed.

(** A rule whose pattern needs a byte that a line does not hold leaves the
    line as it is. *)
Lemma rule_requires c re pre text repl :
  is_ascii c = true -> requires c (prog re) = true ->
  avoids c pre = true -> avoids c text = true ->
  ReplaceAllString re (pre +:+ text) repl = pre +:+ text.
Proof.
  intros Hc Hr Hp Ht. apply (ReplaceAllString_requires c); [assumption|assumption|].
  now rewrite avoids_app, Hp, Ht.
Qed.

(** The side conditions of the three lemmas above are closed facts,
    hypotheses, or failures of a match that evaluation shows. *)
Ltac side :=
  first [ reflexivity | assumption | (intros; vm_compute; reflexivity) ].

(** The rules after the headings leave a heading prefix followed by a
    text without markup as it is. *)
Lemma later_rules_plain hp text :
  existsb (String.eqb hp) ["h1. "; "h2. "; "h3. "; "h5. "; "h6. "] = true ->
  plain text = true ->
  let body := hp +:+ text in
  let body := ReplaceAllString regexStrong1 body "*$1*" in
  let body := ReplaceAllString regexStrong2 body "*$1*" in
  let body := ReplaceAllString regexEmphasis1 body "_$1_" in
  let body := ReplaceAllString regexEmphasis2 body "_$1_" in
  let body := ReplaceAllString regexCitation body "??$1??" in
  let body := ReplaceAllString regexDeleted body "-$1-" in
  let body := ReplaceAllString regexInserted body "+$1+" in
  let body := ReplaceAllString regexSuperscript body "^$1^" in
  let body := ReplaceAllString regexSubscript body "~$1~" in
  let body := ReplaceAllString regexMonospaced body "{{$1}}" in
  let body := ReplaceAllString regexQuote body "bq. $1" in
  let body := ReplaceAllString regexImage body "!$2|width=600!" in
  let body := ReplaceAllString regexURL body "[$1]" in
  let body := ReplaceAllString regexAltURL body "[$1|$2]" in
  let body := ReplaceAllString regexCode body "{code:$1}\n$2\n{code}" in
  let body := ReplaceAllString regexNoFormat body "{noformat}\n$2\n{noformat}" in
  body = hp +:+ text.
Proof.
  intros Hh. unfold plain, markup_bytes. cbn [forallb]. rewrite !andb_true_iff.
  intros (Hnl & Hstar & Hund & Hlt & Htil & Htick & Hbr & _).
  cbn [existsb] in Hh. rewrite !orb_true_iff in Hh. cbv zeta.
  repeat (destruct Hh as [Hh|Hh]; [apply String.eqb_eq in Hh; subst hp|]);
    [..|discriminate].
  all: rewrite (rule_requires "*" regexStrong1) by side.
  all: rewrite (rule_requires "_" regexStrong2) by side.
  all: rewrite (rule_requires "*" regexEmphasis1) by side.
  all: rewrite (rule_requires "_" regexEmphasis2) by side.
  all: rewrite (rule_requires "<" regexCitation) by side.
  all: rewrite (rule_requires "~" regexDeleted) by side.
  all: rewrite (rule_requires "<" regexInserted) by side.
  all: rewrite (rule_requires "<" regexSuperscript) by side.
  all: rewrite (rule_requires "<" regexSubscript) by side.
  all: rewrite (rule_requires "`" regexMonospaced) by side.
  all: rewrite (rule_bol regexQuote) by side.
  all: rewrite (rule_requires "[" regexImage) by side.
  all: rewrite (rule_requires "<" regexURL) by side.
  all: rewrite (rule_requires "[" regexAltURL) by side.
  all: rewrite (rule_requires "`" regexCode) by side.
  all: rewrite (rule_requires "`" regexNoFormat) by side.
  all: reflexivity.
Qed.

(** A text that is one heading line: one to six number signs, a space
    and a text of one line without markup bytes.  It is rewritten to the
    heading prefix followed by the text: [h1.], [h2.], [h3.], [h5.], [h6.]
    for the levels 1, 2, 3, 5, 6, and [h3.] for level 4.  The lines of a
    text of several lines are the subject of [LineFacts]. *)
Theorem heading_lines text :
  plain text = true ->
  GitHubToJiraBody ("# " +:+ text) = "h1. " +:+ text
  /\ GitHubToJiraBody ("## " +:+ text) = "h2. " +:+ text
  /\ GitHubToJiraBody ("### " +:+ text) = "h3. " +:+ text
  /\ GitHubToJiraBody ("#### " +:+ text) = "h3. " +:+ text
  /\ GitHubToJiraBody ("##### " +:+ text) = "h5. " +:+ text
  /\ GitHubToJiraBody ("###### " +:+ text) = "h6. " +:+ text.
Proof.
  intros Hplain.
  assert (Hnl : avoids newline text = true).
  { unfold plain in Hplain. now apply andb_true_iff in Hplain as [H _]. }
  unfold GitHubToJiraBody. repeat split.
  - rewrite (rule_bol regexH6 "# ") by side.
    rewrite (rule_bol regexH5 "# ") by side.
    rewrite (rule_bol regexH4 "# ") by side.
    rewrite (rule_bol regexH3 "# ") by side.
    rewrite (rule_bol regexH2 "# ") by side.
    rewrite (rule_heading regexH1 "# " "h1. ") by side.
    now apply later_rules_plain.
  - rewrite (rule_bol regexH6 "## ") by side.
    rewrite (rule_bol regexH5 "## ") by side.
    rewrite (rule_bol regexH4 "## ") by side.
    rewrite (rule_bol regexH3 "## ") by side.
    rewrite (rule_heading regexH2 "## " "h2. ") by side.
    rewrite (rule_bol regexH1 "h2. ") by side.
    now apply later_rules_plain.
  - rewrite (rule_bol regexH6 "### ") by side.
    rewrite (rule_bol regexH5 "### ") by side.
    rewrite (rule_bol regexH4 "### ") by side.
    rewrite (rule_heading regexH3 "### " "h3. ") by side.
    rewrite (rule_bol regexH2 "h3. ") by side.
    rewrite (rule_bol regexH1 "h3. ") by side.
    now apply later_rules_plain.
  - rewrite (rule_bol regexH6 "#### ") by side.
    rewrite (rule_bol regexH5 "#### ") by side.
    rewrite (rule_heading regexH4 "#### " "h3. ") by side.
    rewrite (rule_bol regexH3 "h3. ") by side.
    rewrite (rule_bol regexH2 "h3. ") by side.
    rewrite (rule_bol regexH1 "h3. ") by side.
    now apply later_rules_plain.
  - rewrite (rule_bol regexH6 "##### ") by side.
    rewrite (rule_heading regexH5 "##### " "h5. ") by side.
    rewrite (rule_bol regexH4 "h5. ") by side.
    rewrite (rule_bol regexH3 "h5. ") by side.
    rewrite (rule_bol regexH2 "h5. ") by side.
    rewrite (rule_bol regexH1 "h5. ") by side.
    now apply later_rules_plain.
  - rewrite (rule_heading regexH6 "###### " "h6. ") by side.
    rewrite (rule_bol regexH5 "h6. ") by side.
    rewrite (rule_bol regexH4 "h6. ") by side.
    rewrite (rule_bol regexH3 "h6. ") by side.
    rewrite (rule_bol regexH2 "h6. ") by side.
    rewrite (rule_bol regexH1 "h6. ") by side.
    now apply later_rules_plain.
Qed.

Lemma heading_lines_witness :
  GitHubToJiraBody "#### Release notes" = "h3. Release notes".
Proof.
  exact (proj1 (proj2 (proj2 (proj2 (heading_lines "Release notes" eq_refl))))).
Defined.

(** The text of a heading goes through the later rules like any other
    text, here the monospace rule. *)
Lemma heading_text_is_translated :
  GitHubToJiraBody "# `x`" = "h1. {{x}}"
  /\ GitHubToJiraBody "# `x`" <> "h1. `x`".
Proof. split; [vm_compute; reflexivity | vm_compute; discriminate]. Qed.

(** C6.  The strong rule turns the input into single-asterisk strong text,
    which the emphasis rule then matches; the emphasis template names the
    group [1_], which no pattern has, so the match is replaced by a lone
    underscore.  The translation of a strong span is that underscore. *)
Theorem strong_span_is_lost :
  ReplaceAllString regexStrong1 "**bold**" "*$1*" = "*bold*"
  /\ ReplaceAllString regexEmphasis1 "*bold*" "_$1_" = "_"
  /\ GitHubToJiraBody "**bold**" = "_"
  /\ GitHubToJiraBody "__bold__" = "_".
Proof. vm_compute. repeat split. Qed.

(** C7.  A fenced block never reaches the two block rules: the monospace
    rule, which runs before them, rewrites its backquotes.  On their own
    the block rules write a backslash and an [n] where a line feed is meant,
    and the rule for a block without a tag drops the content, its template
    naming a second group that its pattern does not have. *)
Theorem fenced_block_is_mangled :
  GitHubToJiraBody (fenced "go" "code")
  = "{{}}{{go" +:+ LF +:+ "code" +:+ LF +:+ "}}{{}}"
  /\ GitHubToJiraBody (fenced "" "code")
     = "{{}}{{" +:+ LF +:+ "code" +:+ LF +:+ "}}{{}}"
  /\ ReplaceAllString regexCode (fenced "go" "code") "{code:$1}\n$2\n{code}"
     = "{code:go}\ncode\n{code}"
  /\ ReplaceAllString regexNoFormat (fenced "" "code") "{noformat}\n$2\n{noformat}"
     = "{noformat}\n\n{noformat}".
Proof. vm_compute. repeat split. Qed.

(** C8.  The two link forms translate as given. *)
Theorem link_forms :
  GitHubToJiraBody "[text](http://x)" = "[text|http://x]"
  /\ GitHubToJiraBody "<http://x>" = "[http://x]".
Proof. vm_compute. split; reflexivity. Qed.

(** Two strong spans on one line are matched one by one. *)
Example strong_spans_apart :
  ReplaceAllString regexStrong1 "**bold** and **also bold**" "*$1*"
  = "*bold* and *also bold*".
Proof. reflexivity. Qed.

(** Headings and a quote in a text of several lines. *)
Example several_lines :
  GitHubToJiraBody ("# a" +:+ LF +:+ "## b" +:+ LF +:+ "> q" +:+ LF +:+ "x")
  = "h1. a" +:+ LF +:+ "h2. b" +:+ LF +:+ "bq. q" +:+ LF +:+ "x".
Proof. reflexivity. Qed.

End MarkupFacts.

(* ===================================================================== *)
(** * Further properties of the markup translator *)
(* ===================================================================== *)

Module SpanFacts.
Import GoString Regexp Markup GoStringFacts RegexpFacts MarkupFacts.

(** ** Runes of a text in front of an ASCII byte *)

(** An ASCII byte after a string does not change the first rune of the
    non-empty string: no multi-byte encoding extends over it. *)
Lemma DecodeRune_app_ascii c0 t0 a rest :
  is_ascii a = true ->
  DecodeRuneInString (String c0 (t0 +:+ String a rest))
  = DecodeRuneInString (String c0 t0).
Proof.
  unfold is_ascii. intros Ha. apply Z.ltb_lt in Ha.
  pose proof (byteZ_range a) as Ra.
  unfold DecodeRuneInString.
  destruct (byteZ c0 <? 128)%Z; [reflexivity|].
  destruct ((byteZ c0 <? 194)%Z || (244 <? byteZ c0)%Z); [reflexivity|].
  assert (Hlo : (128 <= fst (acceptRange (byteZ c0)))%Z).
  { unfold acceptRange. repeat (destruct (_ =? _)%Z); cbn; lia. }
  destruct (acceptRange (byteZ c0)) as [lo hi]. cbn [fst] in Hlo.
  assert (Hcont : cont_byte (byteZ a) = false).
  { unfold cont_byte. apply andb_false_iff. left. apply Z.leb_gt. lia. }
  assert (Hrange : ((byteZ a <? lo)%Z || (hi <? byteZ a)%Z) = true).
  { apply orb_true_iff. left. apply Z.ltb_lt. lia. }
  destruct (byteZ c0 <? 224)%Z; [|destruct (byteZ c0 <? 240)%Z].
  all: destruct t0 as [|c1 [|c2 [|c3 t3]]]; rewrite ?append_cons, ?append_nil_l;
    cbn [String.length Nat.ltb Nat.leb];
    rewrite ?Hrange, ?Hcont; cbn [negb];
    repeat match goal with
           | |- context [if ?b then _ else _] => destruct b
           end; reflexivity.
Qed.

Lemma runes_from_app_ascii t a rest : forall k,
  is_ascii a = true -> k <= String.length t ->
  runes_from k (t +:+ String a rest) = runes_from k t ++ runes (String a rest).
Proof.
  induction t as [|c t IH]; intros k Ha Hk.
  - cbn [String.length] in Hk. assert (k = 0) by lia. subst. reflexivity.
  - rewrite append_cons. cbn [runes_from]. destruct k as [|k].
    + rewrite DecodeRune_app_ascii by assumption.
      cbn [app]. f_equal. apply IH; [assumption|].
      pose proof (DecodeRune_width c t). cbn [String.length] in *. lia.
    + apply IH; [assumption|]. cbn [String.length] in Hk. lia.
Qed.

(** The runes of a text followed by an ASCII byte and more. *)
Lemma runes_app_ascii_r t a rest :
  is_ascii a = true ->
  runes (t +:+ String a rest) = runes t ++ runes (String a rest).
Proof. intros Ha. apply runes_from_app_ascii; [assumption|lia]. Qed.

(** ** Patterns that need more bytes than the text holds *)

Section TooFew.
Context {R : Type} (c : ascii).

Lemma star_too_few g cl (k : @cont R) n s : forall prev pos cs,
  fails_below c n k -> occ c s < n -> star g cl prev s pos cs k = None.
Proof.
  induction s as [|[r w] s IH]; intros prev pos cs Hk Hs; cbn [star].
  - now apply Hk.
  - assert (Hs' : occ c s < n) by (cbn [occ] in Hs; lia).
    destruct (in_class cl r); [|now apply Hk].
    destruct g; rewrite IH by assumption; rewrite ?Hk by assumption; reflexivity.
Qed.

Lemma exec_too_few m U re : forall (k : @cont R) n prev s pos cs,
  fails_below c n k -> occ c s < n + min_lits c re ->
  exec m U re prev s pos cs k = None.
Proof.
  induction re as [cl|cl|cl| | |g re IH|r1 IH1 r2 IH2|];
    intros k n prev s pos cs Hk Hs; cbn [min_lits] in Hs; cbn [exec].
  - destruct s as [|[r w] s]; [reflexivity|].
    destruct (in_class cl r) eqn:E; [|reflexivity]. apply Hk.
    cbn [occ] in Hs. destruct cl as [a| | | |]; try lia.
    destruct (Ascii.eqb a c) eqn:Ea; [|lia].
    apply Ascii.eqb_eq in Ea. subst a. cbn [in_class] in E. rewrite E in Hs. lia.
  - apply (star_too_few _ _ _ n); [assumption|]. destruct cl; lia.
  - destruct s as [|[r w] s]; [reflexivity|].
    destruct (in_class cl r); [|reflexivity].
    apply (star_too_few _ _ _ n); [assumption|]. cbn [occ] in Hs. destruct cl; lia.
  - destruct (at_bol m prev); [apply Hk; lia|reflexivity].
  - destruct (at_eol m s); [apply Hk; lia|reflexivity].
  - apply (IH _ n); [|assumption]. intros p s' pos' cs' Hs'. now apply Hk.
  - apply (IH1 _ (n + min_lits c r2)); [|lia].
    intros p s' pos' cs' Hs'. now apply (IH2 _ n).
  - apply Hk. lia.
Qed.
End TooFew.

Lemma match_at_too_few c re prev s pos :
  occ c s < min_lits c (prog re) -> match_at re prev s pos = None.
Proof.
  intros H. unfold match_at. apply (exec_too_few c _ _ _ _ 0); [|assumption].
  intros p s' pos' cs' Hs'. lia.
Qed.

Lemma search_too_few c re s : forall prev pos,
  occ c s < min_lits c (prog re) -> search re prev s pos = None.
Proof.
  induction s as [|[r w] s IH]; intros prev pos Hs; cbn [search];
    rewrite (match_at_too_few c) by assumption; [reflexivity|].
  apply IH. cbn [occ] in Hs. lia.
Qed.

Lemma occ_app c s1 s2 : occ c (s1 ++ s2) = occ c s1 + occ c s2.
Proof.
  induction s1 as [|[r w] s1 IH]; [reflexivity|]. cbn [app occ]. rewrite IH. lia.
Qed.

Lemma occ_runes_from c s : forall k,
  is_ascii c = true -> occ c (runes_from k s) <= Count s c.
Proof.
  unfold is_ascii. intros k Hc. apply Z.ltb_lt in Hc. revert k.
  induction s as [|b s IH]; intros k; cbn [runes_from Count]; [cbn; lia|].
  destruct k as [|k]; cbn iota; [|specialize (IH k); destruct (Ascii.eqb b c); lia].
  cbv zeta. specialize (IH (snd (DecodeRuneInString (String b s)) - 1)).
  destruct (DecodeRuneInString (String b s)) as [r w] eqn:E.
  cbn [snd occ] in *.
  destruct (r =? byteZ c)%Z eqn:Er; [|destruct (Ascii.eqb b c); lia].
  apply Z.eqb_eq in Er.
  pose proof (DecodeRune_cases b s) as H. rewrite E in H. cbn [fst snd] in H.
  destruct H as [[_ [[H _]|H]]|[_ H]].
  - assert (b = c) by (apply byteZ_inj; congruence). subst b.
    rewrite Ascii.eqb_refl. lia.
  - unfold RuneError in H. pose proof (byteZ_range c). lia.
  - pose proof (byteZ_range c). lia.
Qed.

Lemma doExecute_too_few c re src pos :
  is_ascii c = true -> Count src c < min_lits c (prog re) ->
  doExecute re src pos = None.
Proof.
  intros Hc Hs. unfold doExecute.
  destruct (seek None (runes src) 0 pos) as [[p s] q] eqn:E.
  apply seek_suffix in E as [l E].
  apply (search_too_few c).
  pose proof (occ_runes_from c src 0 Hc) as H. fold (runes src) in H.
  rewrite E, occ_app in H. lia.
Qed.

(** A rule whose pattern needs more bytes [c] than the text holds leaves
    the text as it is. *)
Lemma ReplaceAllString_too_few c re src repl :
  is_ascii c = true -> Count src c < min_lits c (prog re) ->
  ReplaceAllString re src repl = src.
Proof.
  intros Hc Hs. unfold ReplaceAllString. cbn [replaceAll_loop].
  rewrite (doExecute_too_few c) by assumption.
  now destruct (0 <=? String.length src)%nat.
Qed.

Lemma Count_append a b c : Count (a +:+ b) c = Count a c + Count b c.
Proof.
  induction a as [|x a IH]; [reflexivity|].
  rewrite append_cons. cbn [Count]. rewrite IH. lia.
Qed.

Lemma Count_avoids s c : avoids c s = true -> Count s c = 0.
Proof.
  induction s as [|b s IH]; [reflexivity|]. cbn [avoids Count].
  intros H. apply andb_true_iff in H as [Hb Hs]. apply negb_true_iff in Hb.
  rewrite Hb. now rewrite IH.
Qed.

(** ** Non-greedy repetition up to a delimiter *)

Section Lazy.
Context {R : Type}.

Lemma star_lazy_skip cl c (k : @cont R) s1 s2 : forall prev pos cs,
  Forall (fun t => in_class cl (fst t) = true) s1 -> nochar c s1 ->
  needs_next c k ->
  star false cl prev (s1 ++ s2) pos cs k
  = star false cl (last_rune prev s1) s2 (pos + widths s1) cs k.
Proof.
  induction s1 as [|[r w] s1 IH]; intros prev pos cs Hcl Hno Hk.
  - cbn [app last_rune widths]. now rewrite Nat.add_0_r.
  - inversion Hcl as [|? ? Hr Hcl']; subst. inversion Hno as [|? ? Hne Hno']; subst.
    cbn [fst] in Hr, Hne. cbn [app star]. rewrite Hr.
    rewrite Hk by assumption. rewrite IH by assumption.
    cbn [last_rune widths]. now rewrite Nat.add_assoc.
Qed.

(** A non-greedy star stops in front of the first rune at which the rest
    of the pattern matches. *)
Lemma star_lazy_reach cl c (k : @cont R) s1 s2 x : forall prev pos cs,
  Forall (fun t => in_class cl (fst t) = true) s1 -> nochar c s1 ->
  needs_next c k ->
  k (last_rune prev s1) s2 (pos + widths s1) cs = Some x ->
  star false cl prev (s1 ++ s2) pos cs k = Some x.
Proof.
  intros prev pos cs Hcl Hno Hk Hx.
  rewrite (star_lazy_skip cl c) by assumption.
  destruct s2 as [|[r w] s2]; cbn [star]; [assumption|].
  destruct (in_class cl r); [|assumption]. now rewrite Hx.
Qed.

Lemma lit_needs_next m U c rest (f : nat -> caps -> caps) (k : @cont R) :
  needs_next c (fun p s pos cs => exec m U (lit (String c rest)) p s pos (f pos cs) k).
Proof.
  intros p r w s pos cs Hr. apply Z.eqb_neq in Hr.
  destruct rest as [|c' rest'].
  - cbn [lit exec in_class]. now rewrite Hr.
  - change (lit (String c (String c' rest')))
      with (Cat (Chr (CLit c)) (lit (String c' rest'))).
    cbn [exec in_class]. now rewrite Hr.
Qed.
End Lazy.

(** ** One span between two delimiters *)

Lemma runes_all_ascii s : all_ascii s = true -> runes s = toks s.
Proof.
  intros H. rewrite <- (append_nil_r s) at 1.
  rewrite runes_app_ascii by assumption. apply app_nil_r.
Qed.

Lemma all_ascii_head c s : all_ascii (String c s) = true -> is_ascii c = true.
Proof. cbn [all_ascii]. intros H. now apply andb_true_iff in H as [H _]. Qed.

(** The runes of a text between two ASCII delimiters. *)
Lemma runes_span op t c close :
  all_ascii op = true -> all_ascii (String c close) = true ->
  runes (op +:+ t +:+ String c close) = toks op ++ runes t ++ toks (String c close).
Proof.
  intros Ho Hc. rewrite runes_app_ascii by assumption. fold (toks op). f_equal.
  rewrite runes_app_ascii_r by now apply all_ascii_head in Hc.
  now rewrite (runes_all_ascii (String c close)).
Qed.

Lemma last_byte_toks prev s : last_rune prev (toks s) = last_byte prev s.
Proof.
  revert prev. induction s as [|c s IH]; intros prev; [reflexivity|].
  cbn [toks list_ascii_of_string map last_rune last_byte]. apply IH.
Qed.

Lemma widths_toks s : widths (toks s) = String.length s.
Proof.
  induction s as [|c s IH]; [reflexivity|].
  cbn [toks list_ascii_of_string map widths String.length]. f_equal. exact IH.
Qed.

Lemma requires_lit_head c rest : requires c (lit (String c rest)) = true.
Proof.
  destruct rest as [|c' rest'].
  - cbn. apply Ascii.eqb_refl.
  - change (lit (String c (String c' rest')))
      with (Cat (Chr (CLit c)) (lit (String c' rest'))).
    cbn [requires]. now rewrite Ascii.eqb_refl.
Qed.

(** A pattern of an opening literal, a non-greedy group and a closing
    literal matches the whole of a text that opens and closes with them
    when the text in between is in the class of the group and does not
    hold the first byte of the closing literal. *)
Lemma span_match m cl op c close t :
  all_ascii op = true -> all_ascii (String c close) = true ->
  Forall (fun x => in_class cl (fst x) = true) (runes t) ->
  avoids c t = true ->
  let src := op +:+ t +:+ String c close in
  match_at (MustCompile m true (seq [lit op; Group 1 (Star cl); lit (String c close)]))
    None (runes src) 0
  = Some (0, String.length src,
          [(1, (String.length op, String.length op + String.length t))]).
Proof.
  intros Ho Hc Hcl Ht src. subst src. unfold match_at.
  rewrite runes_span by assumption. unfold toks at 1.
  cbn [prog flag_m flag_U seq fold_right exec]. rewrite exec_lit.
  cbn [exec negb Nat.add].
  rewrite (star_lazy_reach cl c _ (runes t) (toks (String c close))
             (0, String.length (op +:+ t +:+ String c close),
              [(1, (String.length op, String.length op + String.length t))])).
  - reflexivity.
  - assumption.
  - apply avoids_runes; [now apply all_ascii_head in Hc | assumption].
  - apply (lit_needs_next m true c close
             (fun pos' cs' => (1, (String.length op, pos')) :: cs')).
  - rewrite <- (app_nil_r (toks (String c close))). unfold toks.
    rewrite exec_lit. rewrite runes_widths, !length_app. now rewrite Nat.add_assoc.
Qed.

Lemma slice_middle op t close :
  slice (op +:+ t +:+ close) (String.length op) (String.length op + String.length t) = t.
Proof.
  unfold slice. replace (String.length op + String.length t - String.length op)
    with (String.length t) by lia.
  induction op as [|c op IH].
  - rewrite append_nil_l. cbn [String.length].
    induction t as [|b t IHt]; [now destruct close|].
    rewrite append_cons. cbn [String.length substring]. now rewrite IHt.
  - rewrite append_cons. cbn [String.length substring]. exact IH.
Qed.

(** A rule of an opening literal, a non-greedy group and a closing literal
    rewrites a text that is one such span to the expansion of its
    template. *)
Lemma rule_span m cl op c close t repl :
  all_ascii op = true -> all_ascii (String c close) = true ->
  Forall (fun x => in_class cl (fst x) = true) (runes t) ->
  avoids c t = true ->
  let src := op +:+ t +:+ String c close in
  ReplaceAllString
    (MustCompile m true (seq [lit op; Group 1 (Star cl); lit (String c close)])) src repl
  = expand (String.length repl) repl src
      [(0, (0, String.length src));
       (1, (String.length op, String.length op + String.length t))].
Proof.
  intros Ho Hc Hcl Ht src.
  apply (ReplaceAllString_whole c).
  - cbn [prog seq fold_right requires]. rewrite requires_lit_head.
    now rewrite !orb_true_r.
  - subst src. intros E. apply (f_equal String.length) in E.
    rewrite !length_app in E. cbn [String.length] in E. lia.
  - now apply span_match.
Qed.

Lemma all_in_CAll s : Forall (fun x : tok => in_class CAll (fst x) = true) s.
Proof. induction s; constructor; [reflexivity|assumption]. Qed.

(** The templates of the text effects, the first submatch being the text
    between the delimiters. *)
Lemma expand_strong src e x y :
  expand 4 "*$1*" src [(0, (0, e)); (1, (x, y))] = "*" +:+ slice src x y +:+ "*".
Proof. reflexivity. Qed.

Lemma expand_emphasis src cs : expand 4 "_$1_" src cs = "_".
Proof. reflexivity. Qed.

Lemma expand_monospaced src e x y :
  expand 6 "{{$1}}" src [(0, (0, e)); (1, (x, y))] = "{{" +:+ slice src x y +:+ "}}".
Proof. reflexivity. Qed.

Lemma expand_url src e x y :
  expand 4 "[$1]" src [(0, (0, e)); (1, (x, y))] = "[" +:+ slice src x y +:+ "]".
Proof. reflexivity. Qed.

(** ** Text without markup, and the text effects *)

Lemma avoids_all_cons c l s :
  avoids_all (c :: l) s = true <-> avoids c s = true /\ avoids_all l s = true.
Proof. unfold avoids_all. cbn [forallb]. apply andb_true_iff. Qed.

Ltac avoid_hyps H :=
  unfold pattern_bytes, avoids_all in H; cbn [forallb] in H;
  rewrite ?andb_true_iff in H.

(** The side conditions of the rule lemmas on a text built from literals
    and texts that avoid a byte. *)
Ltac absent :=
  rewrite ?avoids_app; cbn [avoids Ascii.eqb Bool.eqb negb andb];
  repeat match goal with
         | H : avoids ?c ?t = true |- context [avoids ?c ?t] => rewrite H
         end; reflexivity.

Ltac skip c re :=
  rewrite (ReplaceAllString_requires c re) by first [reflexivity | absent].

(** X1.  A text that holds none of the bytes that the patterns need is
    translated to itself. *)
Theorem text_without_markup_is_unchanged s :
  avoids_all pattern_bytes s = true -> GitHubToJiraBody s = s.
Proof.
  intros H. avoid_hyps H.
  destruct H as (Hh & Hs & Hu & Hl & Ht & Hb & Hg & Hq & _).
  unfold GitHubToJiraBody.
  skip "#"%char regexH6. skip "#"%char regexH5. skip "#"%char regexH4.
  skip "#"%char regexH3. skip "#"%char regexH2. skip "#"%char regexH1.
  skip "*"%char regexStrong1. skip "_"%char regexStrong2.
  skip "*"%char regexEmphasis1. skip "_"%char regexEmphasis2.
  skip "<"%char regexCitation. skip "~"%char regexDeleted.
  skip "<"%char regexInserted. skip "<"%char regexSuperscript.
  skip "<"%char regexSubscript. skip "`"%char regexMonospaced.
  skip ">"%char regexQuote. skip "["%char regexImage.
  skip "<"%char regexURL. skip "["%char regexAltURL.
  skip "`"%char regexCode. skip "`"%char regexNoFormat.
  reflexivity.
Qed.

Ltac too_few c re :=
  rewrite (ReplaceAllString_too_few c re)
    by first [ reflexivity
             | rewrite ?Count_append; cbn [Count Ascii.eqb Bool.eqb];
               repeat match goal with
                      | H : avoids ?c ?t = true |- context [Count ?t ?c] =>
                          rewrite (Count_avoids t c H)
                      end; cbn; lia ].

(** The strong rules on one span. *)
Lemma rule_strong1 t :
  avoids "*" t = true ->
  ReplaceAllString regexStrong1 ("**" +:+ t +:+ "**") "*$1*" = "*" +:+ t +:+ "*".
Proof.
  intros Ht. unfold regexStrong1.
  rewrite (rule_span false CAll "**" "*" "*" t "*$1*")
    by first [reflexivity | assumption | apply all_in_CAll].
  change (String.length "*$1*") with 4. rewrite expand_strong.
  now rewrite (slice_middle "**" t "**").
Qed.

Lemma rule_strong2 t :
  avoids "_" t = true ->
  ReplaceAllString regexStrong2 ("__" +:+ t +:+ "__") "*$1*" = "*" +:+ t +:+ "*".
Proof.
  intros Ht. unfold regexStrong2.
  rewrite (rule_span false CAll "__" "_" "_" t "*$1*")
    by first [reflexivity | assumption | apply all_in_CAll].
  change (String.length "*$1*") with 4. rewrite expand_strong.
  now rewrite (slice_middle "__" t "__").
Qed.

(** The emphasis rules on one span: the template names the group [1_]. *)
Lemma rule_emphasis1 t :
  avoids "*" t = true ->
  ReplaceAllString regexEmphasis1 ("*" +:+ t +:+ "*") "_$1_" = "_".
Proof.
  intros Ht. unfold regexEmphasis1.
  rewrite (rule_span false CAll "*" "*" "" t "_$1_")
    by first [reflexivity | assumption | apply all_in_CAll].
  reflexivity.
Qed.

Lemma rule_emphasis2 t :
  avoids "_" t = true ->
  ReplaceAllString regexEmphasis2 ("_" +:+ t +:+ "_") "_$1_" = "_".
Proof.
  intros Ht. unfold regexEmphasis2.
  rewrite (rule_span false CAll "_" "_" "" t "_$1_")
    by first [reflexivity | assumption | apply all_in_CAll].
  reflexivity.
Qed.

(** X2.  A strong or emphasised span, in any of its four forms, comes out as
    a lone underscore: its text is lost. *)
Theorem emphasis_text_is_lost t :
  avoids_all ["#"; "*"; "_"]%char t = true ->
  GitHubToJiraBody ("**" +:+ t +:+ "**") = "_"
  /\ GitHubToJiraBody ("__" +:+ t +:+ "__") = "_"
  /\ GitHubToJiraBody ("*" +:+ t +:+ "*") = "_"
  /\ GitHubToJiraBody ("_" +:+ t +:+ "_") = "_".
Proof.
  intros H. avoid_hyps H. destruct H as (Hh & Hs & Hu & _).
  unfold GitHubToJiraBody. repeat split.
  - skip "#"%char regexH6. skip "#"%char regexH5. skip "#"%char regexH4.
    skip "#"%char regexH3. skip "#"%char regexH2. skip "#"%char regexH1.
    rewrite rule_strong1 by assumption.
    skip "_"%char regexStrong2.
    rewrite rule_emphasis1 by assumption.
    reflexivity.
  - skip "#"%char regexH6. skip "#"%char regexH5. skip "#"%char regexH4.
    skip "#"%char regexH3. skip "#"%char regexH2. skip "#"%char regexH1.
    skip "*"%char regexStrong1.
    rewrite rule_strong2 by assumption.
    rewrite rule_emphasis1 by assumption.
    reflexivity.
  - skip "#"%char regexH6. skip "#"%char regexH5. skip "#"%char regexH4.
    skip "#"%char regexH3. skip "#"%char regexH2. skip "#"%char regexH1.
    too_few "*"%char regexStrong1.
    skip "_"%char regexStrong2.
    rewrite rule_emphasis1 by assumption.
    reflexivity.
  - skip "#"%char regexH6. skip "#"%char regexH5. skip "#"%char regexH4.
    skip "#"%char regexH3. skip "#"%char regexH2. skip "#"%char regexH1.
    skip "*"%char regexStrong1.
    too_few "_"%char regexStrong2.
    skip "*"%char regexEmphasis1.
    rewrite rule_emphasis2 by assumption.
    reflexivity.
Qed.

Ltac bol re pre :=
  rewrite (rule_bol re pre)
    by first [ reflexivity | (intros; vm_compute; reflexivity) | absent ].

(** X3.  A monospaced span is put in double braces. *)
Theorem monospaced_span t :
  avoids_all pattern_bytes t = true ->
  GitHubToJiraBody ("`" +:+ t +:+ "`") = "{{" +:+ t +:+ "}}".
Proof.
  intros H. avoid_hyps H.
  destruct H as (Hh & Hs & Hu & Hl & Ht & Hb & Hg & Hq & _).
  unfold GitHubToJiraBody.
  skip "#"%char regexH6. skip "#"%char regexH5. skip "#"%char regexH4.
  skip "#"%char regexH3. skip "#"%char regexH2. skip "#"%char regexH1.
  skip "*"%char regexStrong1. skip "_"%char regexStrong2.
  skip "*"%char regexEmphasis1. skip "_"%char regexEmphasis2.
  skip "<"%char regexCitation. skip "~"%char regexDeleted.
  skip "<"%char regexInserted. skip "<"%char regexSuperscript.
  skip "<"%char regexSubscript.
  unfold regexMonospaced at 1.
  rewrite (rule_span false CAll "`" "`" "" t "{{$1}}")
    by first [reflexivity | assumption | apply all_in_CAll].
  change (String.length "{{$1}}") with 6. rewrite expand_monospaced.
  rewrite (slice_middle "`" t "`").
  skip ">"%char regexQuote. skip "["%char regexImage.
  skip "<"%char regexURL. skip "["%char regexAltURL.
  skip "`"%char regexCode. skip "`"%char regexNoFormat.
  reflexivity.
Qed.

(** X4.  An address in angle brackets becomes a link in square brackets. *)
Theorem bare_link u :
  avoids_all [newline; "*"; "_"; "<"; ">"; "~"; "`"; "!"; "("]%char u = true ->
  GitHubToJiraBody ("<" +:+ u +:+ ">") = "[" +:+ u +:+ "]".
Proof.
  intros H. avoid_hyps H.
  destruct H as (Hn & Hs & Hu & Hl & Hg & Ht & Hb & He & Hp & _).
  unfold GitHubToJiraBody.
  bol regexH6 "<". bol regexH5 "<". bol regexH4 "<".
  bol regexH3 "<". bol regexH2 "<". bol regexH1 "<".
  skip "*"%char regexStrong1. skip "_"%char regexStrong2.
  skip "*"%char regexEmphasis1. skip "_"%char regexEmphasis2.
  too_few "<"%char regexCitation. skip "~"%char regexDeleted.
  too_few "<"%char regexInserted. too_few "<"%char regexSuperscript.
  too_few "<"%char regexSubscript. skip "`"%char regexMonospaced.
  bol regexQuote "<".
  skip "!"%char regexImage.
  unfold regexURL at 1.
  rewrite (rule_span false CDot "<" ">" "" u "[$1]")
    by first [reflexivity | assumption
             | apply nochar_newline_dot, avoids_runes; [reflexivity|assumption]].
  change (String.length "[$1]") with 4. rewrite expand_url.
  rewrite (slice_middle "<" u ">").
  skip "("%char regexAltURL.
  skip "`"%char regexCode. skip "`"%char regexNoFormat.
  reflexivity.
Qed.

(** ** Links and images: two groups between three delimiters *)

Lemma append_assoc (a b c : string) : (a +:+ b) +:+ c = a +:+ b +:+ c.
Proof.
  induction a as [|x a IH]; [reflexivity|]. rewrite !append_cons. now rewrite IH.
Qed.

(** The runes of two texts between three ASCII delimiters. *)
Lemma runes_link op a c1 mid u c2 close :
  all_ascii op = true -> all_ascii (String c1 mid) = true ->
  all_ascii (String c2 close) = true ->
  runes (op +:+ a +:+ String c1 mid +:+ u +:+ String c2 close)
  = toks op ++ runes a ++ toks (String c1 mid) ++ runes u ++ toks (String c2 close).
Proof.
  intros Ho H1 H2. rewrite runes_app_ascii by assumption. fold (toks op). f_equal.
  rewrite append_cons.
  rewrite runes_app_ascii_r by now apply all_ascii_head in H1. f_equal.
  rewrite <- append_cons.
  rewrite runes_app_ascii by assumption. fold (toks (String c1 mid)). f_equal.
  rewrite runes_app_ascii_r by now apply all_ascii_head in H2.
  now rewrite (runes_all_ascii (String c2 close)).
Qed.

(** A pattern of two non-greedy groups between three literals matches the
    whole of a text of that form when neither text holds the first byte
    of the literal that follows it. *)
Lemma link_match m cl op a c1 mid u c2 close :
  all_ascii op = true -> all_ascii (String c1 mid) = true ->
  all_ascii (String c2 close) = true ->
  Forall (fun x => in_class cl (fst x) = true) (runes a) ->
  Forall (fun x => in_class cl (fst x) = true) (runes u) ->
  avoids c1 a = true -> avoids c2 u = true ->
  let src := op +:+ a +:+ String c1 mid +:+ u +:+ String c2 close in
  let x1 := String.length op in
  let y1 := x1 + String.length a in
  let x2 := y1 + String.length (String c1 mid) in
  let y2 := x2 + String.length u in
  match_at (MustCompile m true
              (seq [lit op; Group 1 (Star cl); lit (String c1 mid);
                    Group 2 (Star cl); lit (String c2 close)]))
    None (runes src) 0
  = Some (0, String.length src, [(2, (x2, y2)); (1, (x1, y1))]).
Proof.
  intros Ho H1 H2 Ha Hu Hna Hnu src x1 y1 x2 y2. subst src. unfold match_at.
  rewrite runes_link by assumption. unfold toks at 1.
  cbn [prog flag_m flag_U seq fold_right exec]. rewrite exec_lit.
  cbn [exec negb Nat.add].
  rewrite (star_lazy_reach cl c1 _ (runes a) _
             (0, String.length (op +:+ a +:+ String c1 mid +:+ u +:+ String c2 close),
              [(2, (x2, y2)); (1, (x1, y1))])).
  - reflexivity.
  - assumption.
  - apply avoids_runes; [now apply all_ascii_head in H1 | assumption].
  - apply (lit_needs_next m true c1 mid
             (fun pos' cs' => (1, (String.length op, pos')) :: cs')).
  - unfold toks at 1. rewrite exec_lit.
    rewrite (star_lazy_reach cl c2 _ (runes u) (toks (String c2 close))
             (0, String.length (op +:+ a +:+ String c1 mid +:+ u +:+ String c2 close),
              [(2, (x2, y2)); (1, (x1, y1))])).
    + reflexivity.
    + assumption.
    + apply avoids_runes; [now apply all_ascii_head in H2 | assumption].
    + apply (lit_needs_next m true c2 close
               (fun pos' cs' =>
                  (2, (String.length op + widths (runes a)
                       + String.length (String c1 mid), pos')) :: cs')).
    + rewrite <- (app_nil_r (toks (String c2 close))). unfold toks.
      rewrite exec_lit. rewrite !runes_widths, !length_app.
      subst x1 y1 x2 y2. cbn [String.length]. now rewrite !Nat.add_assoc.
Qed.

(** A rule of that form rewrites a text that is one such link to the
    expansion of its template. *)
Lemma rule_link m cl op a c1 mid u c2 close repl :
  all_ascii op = true -> all_ascii (String c1 mid) = true ->
  all_ascii (String c2 close) = true ->
  Forall (fun x => in_class cl (fst x) = true) (runes a) ->
  Forall (fun x => in_class cl (fst x) = true) (runes u) ->
  avoids c1 a = true -> avoids c2 u = true ->
  let src := op +:+ a +:+ String c1 mid +:+ u +:+ String c2 close in
  let x1 := String.length op in
  let y1 := x1 + String.length a in
  let x2 := y1 + String.length (String c1 mid) in
  let y2 := x2 + String.length u in
  ReplaceAllString
    (MustCompile m true
       (seq [lit op; Group 1 (Star cl); lit (String c1 mid);
             Group 2 (Star cl); lit (String c2 close)])) src repl
  = expand (String.length repl) repl src
      [(0, (0, String.length src)); (2, (x2, y2)); (1, (x1, y1))].
Proof.
  intros Ho H1 H2 Ha Hu Hna Hnu src x1 y1 x2 y2.
  apply (ReplaceAllString_whole c2).
  - cbn [prog seq fold_right requires]. rewrite requires_lit_head.
    now rewrite !orb_true_r.
  - subst src. intros E. apply (f_equal String.length) in E.
    rewrite !length_app in E. cbn [String.length] in E. lia.
  - now apply link_match.
Qed.

Lemma slice_second op a mid u close :
  slice (op +:+ a +:+ mid +:+ u +:+ close)
    (String.length op + String.length a + String.length mid)
    (String.length op + String.length a + String.length mid + String.length u) = u.
Proof.
  pose proof (slice_middle (op +:+ a +:+ mid) u close) as H.
  rewrite !append_assoc, !length_app, !Nat.add_assoc in H. exact H.
Qed.

Lemma expand_alt_url src e x1 y1 x2 y2 :
  expand 7 "[$1|$2]" src [(0, (0, e)); (2, (x2, y2)); (1, (x1, y1))]
  = "[" +:+ slice src x1 y1 +:+ "|" +:+ slice src x2 y2 +:+ "]".
Proof. reflexivity. Qed.

Lemma expand_image src e x1 y1 x2 y2 :
  expand 14 "!$2|width=600!" src [(0, (0, e)); (2, (x2, y2)); (1, (x1, y1))]
  = "!" +:+ slice src x2 y2 +:+ "|width=600!".
Proof. reflexivity. Qed.

Ltac dot_class :=
  first [ reflexivity | assumption
        | apply nochar_newline_dot, avoids_runes; [reflexivity|assumption] ].

(** X5.  A link with a text becomes the text, a bar and the address in
    square brackets. *)
Theorem text_link a u :
  avoids_all [newline; "*"; "_"; "<"; "~"; "`"; "!"; "]"]%char a = true ->
  avoids_all [newline; "*"; "_"; "<"; "~"; "`"; "!"; ")"]%char u = true ->
  GitHubToJiraBody ("[" +:+ a +:+ "](" +:+ u +:+ ")") = "[" +:+ a +:+ "|" +:+ u +:+ "]".
Proof.
  intros Ha Hu. avoid_hyps Ha. avoid_hyps Hu.
  destruct Ha as (An & As & Au & Al & At & Ab & Ae & Ac & _).
  destruct Hu as (Un & Us & Uu & Ul & Ut & Ub & Ue & Uc & _).
  unfold GitHubToJiraBody.
  bol regexH6 "[". bol regexH5 "[". bol regexH4 "[".
  bol regexH3 "[". bol regexH2 "[". bol regexH1 "[".
  skip "*"%char regexStrong1. skip "_"%char regexStrong2.
  skip "*"%char regexEmphasis1. skip "_"%char regexEmphasis2.
  skip "<"%char regexCitation. skip "~"%char regexDeleted.
  skip "<"%char regexInserted. skip "<"%char regexSuperscript.
  skip "<"%char regexSubscript. skip "`"%char regexMonospaced.
  bol regexQuote "[".
  skip "!"%char regexImage. skip "<"%char regexURL.
  unfold regexAltURL at 1.
  rewrite (rule_link false CDot "[" a "]" "(" u ")" "" "[$1|$2]") by dot_class.
  change (String.length "[$1|$2]") with 7. rewrite expand_alt_url.
  rewrite (slice_middle "[" a), (slice_second "[" a "](" u ")").
  skip "`"%char regexCode. skip "`"%char regexNoFormat.
  reflexivity.
Qed.

(** X6.  An image becomes its address with a fixed width between
    exclamation marks; the alternative text is dropped. *)
Theorem image_link a u :
  avoids_all [newline; "*"; "_"; "<"; "~"; "`"; "]"]%char a = true ->
  avoids_all [newline; "*"; "_"; "<"; "~"; "`"; "["; ")"]%char u = true ->
  GitHubToJiraBody ("![" +:+ a +:+ "](" +:+ u +:+ ")") = "!" +:+ u +:+ "|width=600!".
Proof.
  intros Ha Hu. avoid_hyps Ha. avoid_hyps Hu.
  destruct Ha as (An & As & Au & Al & At & Ab & Ac & _).
  destruct Hu as (Un & Us & Uu & Ul & Ut & Ub & Uo & Uc & _).
  unfold GitHubToJiraBody.
  bol regexH6 "![". bol regexH5 "![". bol regexH4 "![".
  bol regexH3 "![". bol regexH2 "![". bol regexH1 "![".
  skip "*"%char regexStrong1. skip "_"%char regexStrong2.
  skip "*"%char regexEmphasis1. skip "_"%char regexEmphasis2.
  skip "<"%char regexCitation. skip "~"%char regexDeleted.
  skip "<"%char regexInserted. skip "<"%char regexSuperscript.
  skip "<"%char regexSubscript. skip "`"%char regexMonospaced.
  bol regexQuote "![".
  unfold regexImage at 1.
  rewrite (rule_link false CDot "![" a "]" "(" u ")" "" "!$2|width=600!") by dot_class.
  change (String.length "!$2|width=600!") with 14. rewrite expand_image.
  rewrite (slice_second "![" a "](" u ")").
  skip "<"%char regexURL. skip "["%char regexAltURL.
  skip "`"%char regexCode. skip "`"%char regexNoFormat.
  reflexivity.
Qed.

(** ** Quoted lines *)

Section Quote.
Context {R : Type}.

(** A greedy star over white space takes nothing from a text that does not
    start with white space. *)
Lemma star_space_none (k : @cont R) t prev pos cs :
  starts_with_space t = false ->
  star true CSpace prev (runes t) pos cs k = k prev (runes t) pos cs.
Proof.
  destruct t as [|c t]; [reflexivity|]. cbn [starts_with_space]. intros Hc.
  unfold runes. cbn [runes_from]. cbv zeta.
  pose proof (DecodeRune_cases c t) as H. cbv zeta in H.
  destruct (DecodeRuneInString (String c t)) as [r w]. cbn [fst snd] in *.
  cbn [star].
  assert (E : in_class CSpace r = false).
  { destruct H as [[_ [[H _]|H]]|[_ H]].
    - now rewrite H.
    - rewrite H. reflexivity.
    - cbn [in_class]. repeat (apply orb_false_iff; split); apply Z.eqb_neq; lia. }
  now rewrite E.
Qed.
End Quote.

Lemma quote_match t :
  avoids newline t = true -> starts_with_space t = false ->
  match_at regexQuote None (runes ("> " +:+ t)) 0
  = Some (0, String.length ("> " +:+ t), [(1, (2, String.length ("> " +:+ t)))]).
Proof.
  intros Hn Hs. unfold match_at, regexQuote.
  rewrite runes_app_ascii by reflexivity.
  cbn [prog flag_m flag_U seq fold_right exec at_bol negb lit in_class
       list_ascii_of_string map app].
  change ((byteZ ">" =? byteZ ">")%Z) with true. cbn iota.
  change (in_class CSpace (byteZ " ")) with true. cbn iota.
  rewrite star_space_none by assumption.
  rewrite (star_greedy_all CDot _
             (0, String.length ("> " +:+ t), [(1, (2, String.length ("> " +:+ t)))])).
  - reflexivity.
  - apply nochar_newline_dot. now apply avoids_runes.
  - cbn [at_eol]. rewrite runes_widths, length_app. reflexivity.
Qed.

Lemma expand_quote src a b x y :
  expand 6 "bq. $1" src [(0, (a, b)); (1, (x, y))] = "bq. " +:+ slice src x y.
Proof. rewrite <- (append_nil_r (slice src x y)). reflexivity. Qed.

(** X7.  A quoted line becomes a [bq.] line. *)
Theorem quoted_line t :
  plain t = true -> starts_with_space t = false ->
  GitHubToJiraBody ("> " +:+ t) = "bq. " +:+ t.
Proof.
  unfold plain, markup_bytes. cbn [forallb]. rewrite !andb_true_iff.
  intros (Hn & Hs & Hu & Hl & Ht & Hb & Hq & _) Hsp.
  unfold GitHubToJiraBody.
  bol regexH6 "> ". bol regexH5 "> ". bol regexH4 "> ".
  bol regexH3 "> ". bol regexH2 "> ". bol regexH1 "> ".
  skip "*"%char regexStrong1. skip "_"%char regexStrong2.
  skip "*"%char regexEmphasis1. skip "_"%char regexEmphasis2.
  skip "<"%char regexCitation. skip "~"%char regexDeleted.
  skip "<"%char regexInserted. skip "<"%char regexSuperscript.
  skip "<"%char regexSubscript. skip "`"%char regexMonospaced.
  rewrite (ReplaceAllString_whole ">" regexQuote _ _
             [(1, (2, String.length ("> " +:+ t)))])
    by first [reflexivity | discriminate | now apply quote_match].
  change (String.length "bq. $1") with 6. rewrite expand_quote.
  pose proof (slice_suffix "> " t) as E.
  change (String.length "> ") with 2 in E. rewrite E. clear E.
  skip "["%char regexImage. skip "<"%char regexURL. skip "["%char regexAltURL.
  skip "`"%char regexCode. skip "`"%char regexNoFormat.
  reflexivity.
Qed.

(** ** The deleted rule *)

(** The search passes over runes at which the pattern cannot start. *)
Lemma search_skip re s1 s2 : forall prev pos,
  Forall (fun x => forall p s q, match_at re p (x :: s) q = None) s1 ->
  search re prev (s1 ++ s2) pos = search re (last_rune prev s1) s2 (pos + widths s1).
Proof.
  induction s1 as [|[r w] s1 IH]; intros prev pos H.
  - cbn [app last_rune widths]. now rewrite Nat.add_0_r.
  - inversion H as [|? ? Hx H']; subst. cbn [app search]. rewrite Hx.
    rewrite IH by assumption. cbn [last_rune widths]. now rewrite Nat.add_assoc.
Qed.

Lemma deleted_needs_tilde r w s p q :
  r <> byteZ "~" -> match_at regexDeleted p ((r, w) :: s) q = None.
Proof.
  intros Hr. apply Z.eqb_neq in Hr. unfold match_at, regexDeleted.
  cbn [prog flag_m flag_U seq fold_right lit exec in_class]. now rewrite Hr.
Qed.

Lemma deleted_second_tilde r w s p q :
  r <> byteZ "~" -> match_at regexDeleted p ((byteZ "~", 1) :: (r, w) :: s) q = None.
Proof.
  intros Hr. apply Z.eqb_neq in Hr. unfold match_at, regexDeleted.
  cbn [prog flag_m flag_U seq fold_right lit exec in_class].
  now rewrite Z.eqb_refl, Hr.
Qed.

Lemma deleted_one_rune_only r1 w1 r2 w2 s p q :
  r2 <> byteZ "~" ->
  match_at regexDeleted p ((byteZ "~", 1) :: (byteZ "~", 1) :: (r1, w1) :: (r2, w2) :: s) q
  = None.
Proof.
  intros Hr. apply Z.eqb_neq in Hr. unfold match_at, regexDeleted.
  cbn [prog flag_m flag_U seq fold_right lit exec in_class].
  now rewrite !Z.eqb_refl, Hr.
Qed.

Lemma search_next re prev r w s pos :
  match_at re prev ((r, w) :: s) pos = None ->
  search re prev ((r, w) :: s) pos = search re (Some r) s (pos + w).
Proof. intros H. cbn [search]. now rewrite H. Qed.

Lemma ReplaceAllString_none re src repl :
  search re None (runes src) 0 = None -> ReplaceAllString re src repl = src.
Proof.
  intros H. unfold ReplaceAllString. cbn [replaceAll_loop].
  unfold doExecute. rewrite seek_here, H.
  now destruct (0 <=? String.length src)%nat.
Qed.

(** The deleted rule has no star: it finds nothing in a span of two runes
    or more. *)
Lemma rule_deleted_long t repl :
  avoids "~" t = true -> 2 <= length (runes t) ->
  ReplaceAllString regexDeleted ("~~" +:+ t +:+ "~~") repl = "~~" +:+ t +:+ "~~".
Proof.
  intros Ht Hlen. apply ReplaceAllString_none.
  rewrite (runes_span "~~" t "~" "~") by reflexivity.
  pose proof (avoids_runes "~" t eq_refl Ht) as Hno.
  destruct (runes t) as [|[r1 w1] [|[r2 w2] rest]] eqn:E;
    [cbn [length] in Hlen; lia | cbn [length] in Hlen; lia |].
  inversion Hno as [|? ? H1 Hno1]; subst. inversion Hno1 as [|? ? H2 Hno2]; subst.
  cbn [fst] in H1, H2.
  change (toks "~~" ++ ((r1, w1) :: (r2, w2) :: rest) ++ toks "~~")
    with ((byteZ "~", 1) :: (byteZ "~", 1) :: (r1, w1) :: (r2, w2) :: rest ++ toks "~~").
  rewrite search_next by now apply deleted_one_rune_only.
  rewrite search_next by now apply deleted_second_tilde.
  change ((r1, w1) :: (r2, w2) :: rest ++ toks "~~")
    with (((r1, w1) :: (r2, w2) :: rest) ++ toks "~~").
  rewrite (search_skip regexDeleted ((r1, w1) :: (r2, w2) :: rest) (toks "~~")).
  - reflexivity.
  - eapply List.Forall_impl; [|exact Hno].
    intros [r w] Hr p s q. now apply deleted_needs_tilde.
Qed.

Lemma expand_deleted src e x y :
  expand 4 "-$1-" src [(0, (0, e)); (1, (x, y))] = "-" +:+ slice src x y +:+ "-".
Proof. reflexivity. Qed.

(** On a span of one rune the deleted rule does its work. *)
Lemma rule_deleted_one t :
  length (runes t) = 1 ->
  ReplaceAllString regexDeleted ("~~" +:+ t +:+ "~~") "-$1-" = "-" +:+ t +:+ "-".
Proof.
  intros Hlen.
  rewrite (ReplaceAllString_whole "~" regexDeleted _ _
             [(1, (String.length "~~", String.length "~~" + String.length t))]).
  - change (String.length "-$1-") with 4. rewrite expand_deleted.
    now rewrite (slice_middle "~~" t "~~").
  - reflexivity.
  - intros E. apply (f_equal String.length) in E. rewrite !length_app in E.
    cbn [String.length] in E. lia.
  - rewrite (runes_span "~~" t "~" "~") by reflexivity.
    pose proof (runes_widths t) as Hw.
    destruct (runes t) as [|[r w] [|x rest]]; try discriminate Hlen.
    cbn [widths] in Hw. rewrite Nat.add_0_r in Hw. subst w.
    unfold match_at, regexDeleted.
    cbn [prog flag_m flag_U seq fold_right lit exec in_class toks
         list_ascii_of_string map app].
    rewrite !Z.eqb_refl. rewrite !length_app. cbn [String.length].
    cbn [Nat.add]. do 3 f_equal. lia.
Qed.

Lemma deleted_span_cases t :
  avoids_all pattern_bytes t = true ->
  (length (runes t) = 1 ->
   GitHubToJiraBody ("~~" +:+ t +:+ "~~") = "-" +:+ t +:+ "-")
  /\ (2 <= length (runes t) ->
      GitHubToJiraBody ("~~" +:+ t +:+ "~~") = "~~" +:+ t +:+ "~~").
Proof.
  intros H. avoid_hyps H.
  destruct H as (Hh & Hs & Hu & Hl & Ht & Hb & Hg & Hq & _).
  unfold GitHubToJiraBody. split; intros Hlen.
  - skip "#"%char regexH6. skip "#"%char regexH5. skip "#"%char regexH4.
    skip "#"%char regexH3. skip "#"%char regexH2. skip "#"%char regexH1.
    skip "*"%char regexStrong1. skip "_"%char regexStrong2.
    skip "*"%char regexEmphasis1. skip "_"%char regexEmphasis2.
    skip "<"%char regexCitation.
    rewrite rule_deleted_one by assumption.
    skip "<"%char regexInserted. skip "<"%char regexSuperscript.
    skip "<"%char regexSubscript. skip "`"%char regexMonospaced.
    skip ">"%char regexQuote. skip "["%char regexImage.
    skip "<"%char regexURL. skip "["%char regexAltURL.
    skip "`"%char regexCode. skip "`"%char regexNoFormat.
    reflexivity.
  - skip "#"%char regexH6. skip "#"%char regexH5. skip "#"%char regexH4.
    skip "#"%char regexH3. skip "#"%char regexH2. skip "#"%char regexH1.
    skip "*"%char regexStrong1. skip "_"%char regexStrong2.
    skip "*"%char regexEmphasis1. skip "_"%char regexEmphasis2.
    skip "<"%char regexCitation.
    rewrite rule_deleted_long by assumption.
    skip "<"%char regexInserted. skip "<"%char regexSuperscript.
    skip "<"%char regexSubscript. skip "`"%char regexMonospaced.
    skip ">"%char regexQuote. skip "["%char regexImage.
    skip "<"%char regexURL. skip "["%char regexAltURL.
    skip "`"%char regexCode. skip "`"%char regexNoFormat.
    reflexivity.
Qed.

(** X8.  The deleted rule has no star.  It translates a span of exactly one
    rune; a span of any other length is left as it is, tildes included. *)
Theorem deleted_span t :
  avoids_all pattern_bytes t = true ->
  GitHubToJiraBody ("~~" +:+ t +:+ "~~")
  = if (length (runes t) =? 1)%nat then "-" +:+ t +:+ "-" else "~~" +:+ t +:+ "~~".
Proof.
  intros H. destruct (deleted_span_cases t H) as [H1 H2].
  destruct (length (runes t)) as [|[|n]] eqn:E; cbn [Nat.eqb].
  - destruct t as [|c t]; [reflexivity|]. discriminate E.
  - now apply H1.
  - apply H2. lia.
Qed.

(** ** Spans between tags *)

(** A pattern that starts with a literal does not match where the text
    has another rune. *)
Lemma match_at_needs_next re c rest r2 p r w s q :
  prog re = Cat (lit (String c rest)) r2 -> r <> byteZ c ->
  match_at re p ((r, w) :: s) q = None.
Proof.
  intros Hp Hr. unfold match_at. rewrite Hp. cbn [exec].
  now apply (lit_needs_next (flag_m re) (flag_U re) c rest (fun _ cs => cs)).
Qed.

(** A rule whose pattern starts with a literal finds nothing in a text
    made of an opening, a middle part without the first byte of the
    literal, and a closing, when it finds nothing in the opening, however
    the text goes on, and nothing in the closing. *)
Lemma search_tagged re c rest r2 t close : forall prev pos,
  prog re = Cat (lit (String c rest)) r2 ->
  avoids c t = true -> is_ascii c = true ->
  (forall p q, search re p (toks close) q = None) ->
  search re prev (runes t ++ toks close) pos = None.
Proof.
  intros prev pos Hp Ht Hc Hclose.
  rewrite search_skip; [apply Hclose|].
  eapply List.Forall_impl; [|exact (avoids_runes c t Hc Ht)].
  intros [r w] Hr p s q. now apply (match_at_needs_next re c rest r2).
Qed.

Ltac other_tag re :=
  rewrite (ReplaceAllString_none re)
    by (rewrite runes_span by reflexivity;
        unfold toks at 1; cbn [list_ascii_of_string map app];
        repeat (rewrite search_next by (vm_compute; reflexivity));
        eapply (search_tagged re "<"%char);
        [reflexivity | assumption | reflexivity | intros; reflexivity]).

Lemma expand_citation src e x y :
  expand 6 "??$1??" src [(0, (0, e)); (1, (x, y))] = "??" +:+ slice src x y +:+ "??".
Proof. reflexivity. Qed.

Lemma expand_inserted src e x y :
  expand 4 "+$1+" src [(0, (0, e)); (1, (x, y))] = "+" +:+ slice src x y +:+ "+".
Proof. reflexivity. Qed.

Lemma expand_superscript src e x y :
  expand 4 "^$1^" src [(0, (0, e)); (1, (x, y))] = "^" +:+ slice src x y +:+ "^".
Proof. reflexivity. Qed.

Lemma expand_subscript src e x y :
  expand 4 "~$1~" src [(0, (0, e)); (1, (x, y))] = "~" +:+ slice src x y +:+ "~".
Proof. reflexivity. Qed.

Ltac headings :=
  skip "#"%char regexH6; skip "#"%char regexH5; skip "#"%char regexH4;
  skip "#"%char regexH3; skip "#"%char regexH2; skip "#"%char regexH1;
  skip "*"%char regexStrong1; skip "_"%char regexStrong2;
  skip "*"%char regexEmphasis1; skip "_"%char regexEmphasis2.

Ltac closing :=
  skip "`"%char regexMonospaced; skip ">"%char regexQuote; skip "["%char regexImage;
  skip "<"%char regexURL; skip "["%char regexAltURL;
  skip "`"%char regexCode; skip "`"%char regexNoFormat.

(** X9.  A citation, an insertion, a superscript and a subscript are
    recognised when the text stands between two opening tags; the text is
    then put between the marks of the destination. *)
Theorem tagged_spans t :
  avoids_all pattern_bytes t = true ->
  GitHubToJiraBody ("<cite>" +:+ t +:+ "<cite>") = "??" +:+ t +:+ "??"
  /\ GitHubToJiraBody ("<ins>" +:+ t +:+ "<ins>") = "+" +:+ t +:+ "+"
  /\ GitHubToJiraBody ("<sup>" +:+ t +:+ "<sup>") = "^" +:+ t +:+ "^"
  /\ GitHubToJiraBody ("<sub>" +:+ t +:+ "<sub>") = "~" +:+ t +:+ "~".
Proof.
  intros H. avoid_hyps H.
  destruct H as (Hh & Hs & Hu & Hl & Ht & Hb & Hg & Hq & _).
  unfold GitHubToJiraBody. repeat split.
  - headings.
    unfold regexCitation at 1.
    rewrite (rule_span false CAll "<cite>" "<" "cite>" t "??$1??")
      by first [reflexivity | assumption | apply all_in_CAll].
    change (String.length "??$1??") with 6. rewrite expand_citation.
    rewrite (slice_middle "<cite>" t "<cite>").
    skip "~"%char regexDeleted. skip "<"%char regexInserted.
    skip "<"%char regexSuperscript. skip "<"%char regexSubscript.
    closing. reflexivity.
  - headings. other_tag regexCitation. skip "~"%char regexDeleted.
    unfold regexInserted at 1.
    rewrite (rule_span false CAll "<ins>" "<" "ins>" t "+$1+")
      by first [reflexivity | assumption | apply all_in_CAll].
    change (String.length "+$1+") with 4. rewrite expand_inserted.
    rewrite (slice_middle "<ins>" t "<ins>").
    skip "<"%char regexSuperscript. skip "<"%char regexSubscript.
    closing. reflexivity.
  - headings. other_tag regexCitation. skip "~"%char regexDeleted.
    other_tag regexInserted.
    unfold regexSuperscript at 1.
    rewrite (rule_span false CAll "<sup>" "<" "sup>" t "^$1^")
      by first [reflexivity | assumption | apply all_in_CAll].
    change (String.length "^$1^") with 4. rewrite expand_superscript.
    rewrite (slice_middle "<sup>" t "<sup>").
    skip "<"%char regexSubscript.
    closing. reflexivity.
  - headings. other_tag regexCitation. skip "~"%char regexDeleted.
    other_tag regexInserted. other_tag regexSuperscript.
    unfold regexSubscript at 1.
    rewrite (rule_span false CAll "<sub>" "<" "sub>" t "~$1~")
      by first [reflexivity | assumption | apply all_in_CAll].
    change (String.length "~$1~") with 4. rewrite expand_subscript.
    rewrite (slice_middle "<sub>" t "<sub>").
    closing. reflexivity.
Qed.

(** ** Instances *)

Lemma text_without_markup_is_unchanged_witness :
  GitHubToJiraBody ("Steps to reproduce: run it twice." +:+ LF +:+ "It fails (sometimes).")
  = "Steps to reproduce: run it twice." +:+ LF +:+ "It fails (sometimes).".
Proof. apply text_without_markup_is_unchanged. reflexivity. Defined.

Lemma emphasis_text_is_lost_witness :
  GitHubToJiraBody "**very important**" = "_"
  /\ GitHubToJiraBody "__very important__" = "_"
  /\ GitHubToJiraBody "*very important*" = "_"
  /\ GitHubToJiraBody "_very important_" = "_".
Proof. apply (emphasis_text_is_lost "very important"). reflexivity. Defined.

Lemma monospaced_span_witness :
  GitHubToJiraBody "`go build ./...`" = "{{go build ./...}}".
Proof. apply (monospaced_span "go build ./..."). reflexivity. Defined.

Lemma bare_link_witness :
  GitHubToJiraBody "<https://example.com/a#b>" = "[https://example.com/a#b]".
Proof. apply (bare_link "https://example.com/a#b"). reflexivity. Defined.

Lemma text_link_witness :
  GitHubToJiraBody "[the docs](https://example.com/a#b)"
  = "[the docs|https://example.com/a#b]".
Proof. apply (text_link "the docs" "https://example.com/a#b"); reflexivity. Defined.

Lemma image_link_witness :
  GitHubToJiraBody "![a diagram](https://example.com/d.png)"
  = "!https://example.com/d.png|width=600!".
Proof. apply (image_link "a diagram" "https://example.com/d.png"); reflexivity. Defined.

Lemma quoted_line_witness :
  GitHubToJiraBody "> it works on # my > machine" = "bq. it works on # my > machine".
Proof. apply (quoted_line "it works on # my > machine"); reflexivity. Defined.

Lemma deleted_span_witness :
  GitHubToJiraBody "~~x~~" = "-x-" /\ GitHubToJiraBody "~~gone~~" = "~~gone~~".
Proof.
  split; [apply (deleted_span "x") | apply (deleted_span "gone")]; reflexivity.
Defined.

Lemma tagged_spans_witness :
  GitHubToJiraBody "<cite>Knuth<cite>" = "??Knuth??"
  /\ GitHubToJiraBody "<ins>added text<ins>" = "+added text+"
  /\ GitHubToJiraBody "<sup>2<sup>" = "^2^"
  /\ GitHubToJiraBody "<sub>i<sub>" = "~i~".
Proof.
  split; [apply (tagged_spans "Knuth"); reflexivity|].
  split; [apply (tagged_spans "added text"); reflexivity|].
  split; [apply (tagged_spans "2"); reflexivity | apply (tagged_spans "i"); reflexivity].
Defined.

End SpanFacts.

(* ===================================================================== *)
(** * The markup translator line by line *)
(* ===================================================================== *)

Module LineFacts.
Import GoString Regexp Markup GoStringFacts RegexpFacts MarkupFacts SpanFacts.

(** ** A text as its lines *)






Lemma last_rune_app (s1 : list tok) : forall prev s2,
  last_rune prev (s1 ++ s2) = last_rune (last_rune prev s1) s2.
Proof. induction s1 as [|[r w] s1 IH]; intros prev s2; [reflexivity|]. cbn [app last_rune]. apply IH. Qed.

Lemma widths_app (s1 s2 : list tok) : widths (s1 ++ s2) = widths s1 + widths s2.
Proof. induction s1 as [|[r w] s1 IH]; [reflexivity|]. cbn [app widths]. lia. Qed.








(** ** Texts and prefixes *)




(** ** A literal that fails, a greedy star that stops at the line end *)

Section LitFails.
Context {R : Type}.


End LitFails.

(** ** A rule that works line by line

    The pattern [re] starts with [^], does not start at a line feed or at
    the end of the text, and at the start of a line either matches the
    whole line, when [sel] selects it, or fails; [out] is the expansion of
    the template for a selected line.  The loop of [replaceAll] then goes
    from one selected line to the next. *)

Section Lines.
Variable re : Regexp.
Variable repl : string.
Variable good : string -> Prop.
Variable sel : string -> bool.
Variable caps_of : nat -> string -> caps.
Variable out : string -> string.

Hypothesis Hbol : begins_bol re = true.
Hypothesis HNL : forall prev w s pos, match_at re prev ((NL, w) :: s) pos = None.
Hypothesis Hnil : forall prev pos, match_at re prev [] pos = None.
Hypothesis Hgood : forall l, good l -> avoids newline l = true.
Hypothesis Hline : forall l prev rest pos,
  good l -> at_bol true prev = true ->
  rest = [] \/ (exists w rest', rest = (NL, w) :: rest') ->
  match_at re prev (runes l ++ rest) pos
  = if sel l then Some (pos, pos + String.length l, caps_of pos l) else None.
Hypothesis Hsel : forall l, good l -> sel l = true ->
  exists c l', l = String c l' /\ is_ascii c = true.
Hypothesis Hout : forall src pos l,
  good l -> sel l = true -> slice src pos (pos + String.length l) = l ->
  expand (String.length repl) repl src ((0, (pos, pos + String.length l)) :: caps_of pos l)
  = out l.










End Lines.

(** ** The heading rules and the quote rule *)



















End LineFacts.

(* ===================================================================== *)
(** * Properties of the reconciliation pass *)
(* ===================================================================== *)

Module SyncFacts.
Import GoString Markup cfg Sync.
Local Open Scope go_scope.

Lemma mapM_deref_named names t :
  mapM (fun l => deref (github.Name l)) (named names) t = (Val names, t).
Proof.
  induction names as [|n names IH]; [reflexivity|].
  cbn [named map mapM]. unfold bind at 1. cbn.
  unfold bind at 1. fold (named names). now rewrite IH.
Qed.

Lemma eqb_false_iff (a b : string) : negb (String.eqb a b) = true <-> a <> b.
Proof.
  rewrite negb_true_iff. split.
  - intros H ->. now rewrite String.eqb_refl in H.
  - intros H. destruct (String.eqb a b) eqn:E; [|reflexivity].
    apply String.eqb_eq in E. contradiction.
Qed.

(** C1.  On a source issue that has a state, an author login and label
    names, and a destination issue that has fields, [DidIssueChange]
    returns true exactly when the summary differs from the title, or the
    description differs from the translated body, or the state field is
    unreadable or differs from the state, or the reporter field is
    unreadable or differs from the login, or the labels field is unreadable
    and its content differs from the comma-joined label names.  A readable
    labels field that differs does not make the result true when
    everything else agrees. *)
Theorem DidIssueChange_spec config gh tbody jIssue jf state user login names t :
  jira.Fields jIssue = Some jf ->
  github.State gh = Some state ->
  github.User_ gh = Some user ->
  github.Login user = Some login ->
  github.Labels gh = named names ->
  let ghIssue := {| Issue := gh; TranslatedBody := tbody |} in
  let m := jira.Unknowns jf in
  let kS := GetFieldKey config GitHubStatus in
  let kR := GetFieldKey config GitHubReporter in
  let kL := GetFieldKey config GitHubLabels in
  exists b,
    DidIssueChange config ghIssue jIssue t
    = (Val b, t ++ [EvLog Debug (MsgComparing (github.GetNumber gh) (jira.Key jIssue));
                    EvLog Debug (MsgAnyDifferent b)])
    /\ (b = true <->
          github.GetTitle gh <> jira.Summary jf
          \/ GetTranslatedBody ghIssue <> jira.Description jf
          \/ (unreadable m kS \/ content m kS <> state)
          \/ (unreadable m kR \/ content m kR <> login)
          \/ (unreadable m kL /\ content m kL <> Join names ","))
    /\ (github.GetTitle gh = jira.Summary jf ->
        GetTranslatedBody ghIssue = jira.Description jf ->
        m !! kS = Some (jira.VString state) ->
        m !! kR = Some (jira.VString login) ->
        (exists s, m !! kL = Some (jira.VString s)) ->
        b = false).
Proof.
  intros Hf Hs Hu Hl Hn ghIssue m kS kR kL.
  unfold DidIssueChange. cbn [Issue ghIssue].
  rewrite Hf, Hs, Hu, Hn.
  unfold unreadable, content. fold m kS kR kL.
  unfold bind at 1. cbn [log emit]. unfold bind at 1. cbn [deref ret jira.Unknowns].
  fold m.
  destruct (jira.String_ m kS) as [fS eS] eqn:ES.
  destruct (jira.String_ m kR) as [fR eR] eqn:ER.
  destruct (jira.String_ m kL) as [fL eL] eqn:EL.
  cbn [fst snd].
  exists (is_err eL && negb (String.eqb (Join names ",") fL)
          || (is_err eR || negb (String.eqb login fR))
          || (is_err eS || negb (String.eqb state fS))
          || negb (String.eqb (github.GetTitle gh) (jira.Summary jf))
          || negb (String.eqb (GetTranslatedBody ghIssue) (jira.Description jf))).
  split; [|split].
  - unfold bind at 1.
    assert (E1 : forall u, (if is_err eS then ret true
                  else let* state0 := ret state in ret (negb (String.eqb state0 fS))) u
                 = (Val (is_err eS || negb (String.eqb state fS)), u))
      by (intros u; now destruct (is_err eS)).
    rewrite E1. unfold bind at 1.
    assert (E2 : forall u, (if is_err eR then ret true
                  else let* user0 := ret user in
                       let* login0 := deref (github.Login user0) in
                       ret (negb (String.eqb login0 fR))) u
                 = (Val (is_err eR || negb (String.eqb login fR)), u))
      by (intros u; destruct (is_err eR); [easy|]; unfold bind, ret; now rewrite Hl).
    rewrite E2. unfold bind at 1. rewrite mapM_deref_named.
    unfold bind, log, emit, ret. rewrite <- app_assoc. cbn [app].
    repeat f_equal;
      destruct (is_err eL), (is_err eR), (is_err eS),
        (String.eqb (Join names ",") fL), (String.eqb login fR), (String.eqb state fS),
        (String.eqb (github.GetTitle gh) (jira.Summary jf)),
        (String.eqb (GetTranslatedBody ghIssue) (jira.Description jf)); reflexivity.
  - rewrite !orb_true_iff, andb_true_iff, !eqb_false_iff.
    assert (Herr : forall e, is_err e = true <-> e <> None)
      by (intros [e|]; cbn; split; congruence).
    rewrite !Herr. intuition congruence.
  - intros H1 H2 H3 H4 [s H5].
    unfold jira.String_ in ES, ER, EL. rewrite H3 in ES. rewrite H4 in ER. rewrite H5 in EL.
    inversion ES; inversion ER; inversion EL; subst.
    rewrite H1, H2, !String.eqb_refl. reflexivity.
Qed.

(** C4.  When the source tracker returns an empty issue list,
    [CompareIssues] returns nil at once: it logs that there is nothing to
    do and makes no call to the destination tracker. *)
Theorem CompareIssues_empty W config t :
  gh_ListIssues W (t ++ [EvLog Debug MsgCollecting]) = Ok [] ->
  exists d,
    CompareIssues W config t = (Val None, t ++ d)
    /\ d = [EvLog Debug MsgCollecting; EvGitHubListIssues (Ok []);
            EvLog Info MsgNoIssues]
    /\ forallb (fun e => negb (is_destination_call e)) d = true.
Proof.
  intros H. eexists. split; [|split; [reflexivity|reflexivity]].
  unfold CompareIssues, bind, log, emit, ghListIssues, call, ret.
  rewrite H. cbn. now rewrite <- !app_assoc.
Qed.

(** C10.  A destination issue whose GitHub ID field is absent or holds no
    number reads as id 0, the read error being dropped: it is linked to a
    source issue exactly when that issue's numeric id is 0.  The scan of
    [CompareIssues] passes over it for a nonzero id and hands it to
    [UpdateIssue] as the link match for id 0. *)
Theorem linked_unreadable_id W config gh ght jIssue jf n rest t :
  jira.Fields jIssue = Some jf ->
  snd (jira.Int (jira.Unknowns jf) (GetFieldKey config GitHubID)) <> None ->
  github.ID gh = Some n ->
  fst (jira.Int (jira.Unknowns jf) (GetFieldKey config GitHubID)) = 0%Z
  /\ linked config gh jIssue t = (Val (n =? 0)%Z, t)
  /\ (n <> 0%Z ->
      scan W config gh ght (jIssue :: rest) t = scan W config gh ght rest t)
  /\ (n = 0%Z ->
      scan W config gh ght (jIssue :: rest) t
      = (let* err := UpdateIssue W config ght jIssue in
         match err with
         | Some err => log Error (MsgErrUpdating (jira.Key jIssue) err)
         | None => ret tt
         end ;;;
         ret true) t).
Proof.
  intros Hf He Hid.
  assert (H0 : fst (jira.Int (jira.Unknowns jf) (GetFieldKey config GitHubID)) = 0%Z).
  { unfold jira.Int in *.
    destruct (jira.Unknowns jf !! GetFieldKey config GitHubID) as [[ | |]|];
      cbn in *; congruence. }
  assert (HL : linked config gh jIssue t = (Val (n =? 0)%Z, t)).
  { unfold linked. rewrite Hf, Hid. unfold bind, deref, ret.
    destruct (jira.Int _ _) as [id e]. cbn in H0. now subst id. }
  split; [exact H0|]. split; [exact HL|]. split.
  - intros Hn. cbn [scan]. unfold bind at 1. rewrite HL.
    apply Z.eqb_neq in Hn. now rewrite Hn.
  - intros ->. cbn [scan]. unfold bind at 1. rewrite HL. reflexivity.
Qed.

Lemma wf_source_inv gh :
  wf_source gh = true ->
  exists id n body state user login,
    github.ID gh = Some id /\ github.Number gh = Some n
    /\ github.Body gh = Some body /\ github.State gh = Some state
    /\ github.User_ gh = Some user /\ github.Login user = Some login
    /\ forallb (fun l => present (github.Name l)) (github.Labels gh) = true.
Proof.
  unfold wf_source. rewrite !andb_true_iff.
  intros [[[[[H1 H2] H3] H4] H5] H6].
  destruct (github.ID gh) as [id|]; [|discriminate].
  destruct (github.Number gh) as [n|]; [|discriminate].
  destruct (github.Body gh) as [body|]; [|discriminate].
  destruct (github.State gh) as [state|]; [|discriminate].
  destruct (github.User_ gh) as [user|]; [|discriminate].
  destruct (github.Login user) as [login|] eqn:EL; [|discriminate].
  exists id, n, body, state, user, login. repeat split; assumption.
Qed.

Lemma mapM_deref_present labels t :
  forallb (fun l => present (github.Name l)) labels = true ->
  mapM (fun l => deref (github.Name l)) labels t = (Val (map github.GetName labels), t).
Proof.
  induction labels as [|l labels IH]; [reflexivity|].
  cbn [forallb]. rewrite andb_true_iff. intros [Hl Hr].
  cbn [mapM map]. unfold bind at 1. unfold github.GetName at 1.
  destruct (github.Name l) as [n|]; [|discriminate]. cbn.
  unfold bind at 1. now rewrite (IH Hr).
Qed.

Lemma DidIssueChange_run config ghIssue jIssue t :
  wf_source (Issue ghIssue) = true ->
  wf_dest jIssue = true ->
  exists b,
    DidIssueChange config ghIssue jIssue t
    = (Val b, t ++ [EvLog Debug (MsgComparing (github.GetNumber (Issue ghIssue))
                                              (jira.Key jIssue));
                    EvLog Debug (MsgAnyDifferent b)]).
Proof.
  intros Hwf Hj.
  destruct (wf_source_inv _ Hwf) as (id & n & body & state & user & login
    & Hid & Hn & Hb & Hs & Hu & Hl & Hlab).
  unfold wf_dest in Hj. destruct (jira.Fields jIssue) as [jf|] eqn:Hf; [|discriminate].
  unfold DidIssueChange. rewrite Hf, Hs, Hu.
  unfold bind at 1. cbn [log emit]. unfold bind at 1. cbn [deref ret].
  destruct (jira.String_ _ (GetFieldKey config GitHubStatus)) as [fS eS].
  destruct (jira.String_ _ (GetFieldKey config GitHubReporter)) as [fR eR].
  destruct (jira.String_ _ (GetFieldKey config GitHubLabels)) as [fL eL].
  unfold bind at 1.
  destruct (is_err eS); cbn [ret bind];
    unfold bind at 1; destruct (is_err eR); cbn [ret bind deref]; rewrite ?Hl;
    cbn [ret bind deref];
    unfold bind at 1; rewrite (mapM_deref_present _ _ Hlab);
    unfold bind, log, emit, ret; rewrite <- app_assoc; cbn [app];
    eexists; reflexivity.
Qed.

Lemma UpdateIssue_run W config ghIssue jIssue t :
  wf_source (Issue ghIssue) = true ->
  wf_dest jIssue = true ->
  exists d r,
    UpdateIssue W config ghIssue jIssue t = (Val r, t ++ d)
    /\ update_shape (Issue ghIssue) jIssue d r.
Proof.
  intros Hwf Hj.
  destruct (wf_source_inv _ Hwf) as (id & n & body & state & user & login
    & Hid & Hn & Hb & Hs & Hu & Hl & Hlab).
  unfold UpdateIssue. rewrite Hn.
  unfold bind at 1. cbn [deref ret]. unfold bind at 1. cbn [log emit].
  unfold bind at 1.
  destruct (DidIssueChange_run config ghIssue jIssue
              (t ++ [EvLog Debug (MsgUpdating (jira.Key jIssue) n)]) Hwf Hj) as [b Hb'].
  rewrite Hb'. rewrite <- app_assoc. cbn [app].
  unfold wf_dest in Hj. destruct (jira.Fields jIssue) as [jf|] eqn:Hf; [|discriminate].
  set (t1 := t ++ _).
  assert (Hver : forall u, exists v r,
    (let* r := jiraGetIssue W (jira.Key jIssue) in
     match r with
     | Err err => log Debug (MsgRetrieveFailed (jira.Key jIssue)) ;;; ret (Some err)
     | Ok issue => CompareComments W (Issue ghIssue) issue
     end) u = (Val r, u ++ v)
    /\ verify_phase (Issue ghIssue) (jira.Key jIssue) v r).
  { intros u. unfold bind at 1, jiraGetIssue, call.
    destruct (jira_GetIssue W u (jira.Key jIssue)) as [issue|e] eqn:EG.
    - unfold CompareComments, call. do 2 eexists. split.
      + rewrite <- app_assoc. reflexivity.
      + constructor.
    - unfold bind, log, emit, ret. do 2 eexists. split.
      + rewrite <- app_assoc. reflexivity.
      + constructor. }
  destruct b.
  - unfold bind at 1. unfold bind at 1. unfold Now at 1.
    unfold bind at 1. cbn [deref ret]. unfold bind at 1.
    unfold jiraUpdateIssue at 1, call.
    match goal with |- context [jira_UpdateIssue W t1 ?i] =>
      set (issue := i); destruct (jira_UpdateIssue W t1 issue) as [issue'|e] eqn:EU end.
    + unfold bind at 1. cbn [log emit ret].
      rewrite <- app_assoc. cbn [app].
      match goal with |- context [bind _ _ ?u] => destruct (Hver u) as (v & r & Hv & Sv) end.
      rewrite Hv. exists (update_header (Issue ghIssue) (jira.Key jIssue) n true
        ++ [EvJiraUpdateIssue issue (Ok issue'); EvLog Debug (MsgUpdated (jira.Key jIssue))]
        ++ v), r.
      split.
      * unfold t1, update_header. now rewrite <- !app_assoc.
      * apply UVerified; [assumption|constructor|assumption].
    + cbn [ret]. exists (update_header (Issue ghIssue) (jira.Key jIssue) n true
        ++ [EvJiraUpdateIssue issue (Err e)]), (Some e).
      split.
      * unfold t1, update_header. now rewrite <- !app_assoc.
      * now apply UWriteFailed.
  - unfold bind at 1. unfold bind at 1. cbn [log emit ret].
    match goal with |- context [bind _ _ ?u] => destruct (Hver u) as (v & r & Hv & Sv) end.
    rewrite Hv. exists (update_header (Issue ghIssue) (jira.Key jIssue) n false
        ++ [EvLog Debug (MsgUpToDate (jira.Key jIssue))] ++ v), r.
    split.
    + unfold t1, update_header. now rewrite <- !app_assoc.
    + apply UVerified; [assumption|constructor|assumption].
Qed.

Lemma CreateIssue_run W config issue t :
  wf_source (Issue issue) = true ->
  exists d r,
    CreateIssue W config issue t = (Val r, t ++ d)
    /\ create_shape (Issue issue) d r.
Proof.
  intros Hwf.
  destruct (wf_source_inv _ Hwf) as (id & n & body & state & user & login
    & Hid & Hn & Hb & Hs & Hu & Hl & Hlab).
  unfold CreateIssue. rewrite Hn.
  unfold bind at 1. cbn [deref ret]. unfold bind at 1. cbn [log emit].
  unfold bind at 1. unfold ghGetRepo at 1, call.
  unfold bind at 1. rewrite (mapM_deref_present _ _ Hlab).
  unfold bind at 1. unfold Now at 1.
  unfold bind at 1. unfold jiraCreateIssue at 1, call.
  set (t1 := (t ++ _) ++ _).
  match goal with |- context [jira_CreateIssue W t1 ?i] =>
    set (jIssue := i); destruct (jira_CreateIssue W t1 jIssue) as [created|e] eqn:EC end.
  - unfold bind at 1. unfold jiraGetIssue at 1, call.
    destruct (jira_GetIssue W _ (jira.Key created)) as [fetched|e] eqn:EG.
    + unfold bind, log, emit, CompareComments, call.
      do 2 eexists. split.
      * unfold t1. rewrite <- !app_assoc. cbn [app]. reflexivity.
      * now apply CSynced.
    + cbn [ret]. do 2 eexists. split.
      * unfold t1. rewrite <- !app_assoc. cbn [app]. reflexivity.
      * now apply CRefetchFailed.
  - cbn [ret]. do 2 eexists. split.
    + unfold t1. rewrite <- !app_assoc. cbn [app]. reflexivity.
    + now apply CWriteFailed.
Qed.

Lemma linked_run config gh jIssue t :
  wf_source gh = true -> wf_dest jIssue = true ->
  exists b, linked config gh jIssue t = (Val b, t).
Proof.
  intros Hwf Hj.
  destruct (wf_source_inv _ Hwf) as (id & n & body & state & user & login
    & Hid & Hn & Hb & Hs & Hu & Hl & Hlab).
  unfold wf_dest in Hj. destruct (jira.Fields jIssue) as [jf|] eqn:Hf; [|discriminate].
  unfold linked. rewrite Hf, Hid. unfold bind, deref, ret.
  destruct (jira.Int _ _). eexists. reflexivity.
Qed.

(** The scan either finds no link and leaves no trace, or runs one
    [UpdateIssue] and logs its error. *)
Lemma scan_run W config gh ght jiraIssues t :
  Issue ght = gh ->
  wf_source gh = true ->
  forallb wf_dest jiraIssues = true ->
  scan W config gh ght jiraIssues t = (Val false, t)
  \/ exists j d r,
       In j jiraIssues
       /\ update_shape gh j d r
       /\ scan W config gh ght jiraIssues t
          = (Val true, t ++ d ++ errlog (MsgErrUpdating (jira.Key j)) r).
Proof.
  intros Hg Hwf. induction jiraIssues as [|j js IH]; intros Hjs.
  - left. reflexivity.
  - cbn [forallb] in Hjs. apply andb_true_iff in Hjs as [Hj Hjs].
    destruct (linked_run config gh j t Hwf Hj) as [b Hb].
    assert (E : scan W config gh ght (j :: js) t
      = if b then
          (let* err := UpdateIssue W config ght j in
           match err with
           | Some err => log Error (MsgErrUpdating (jira.Key j) err)
           | None => ret tt
           end ;;; ret true) t
        else scan W config gh ght js t).
    { cbn [scan]. unfold bind at 1. rewrite Hb. now destruct b. }
    rewrite E. clear E. destruct b.
    + right.
      assert (Hwf' : wf_source (Issue ght) = true) by now rewrite Hg.
      destruct (UpdateIssue_run W config ght j t Hwf' Hj) as (d & r & Hr & Sr).
      rewrite Hg in Sr.
      exists j, d, r. split; [now left|]. split; [assumption|].
      unfold bind at 1. unfold bind at 1. rewrite Hr.
      destruct r as [e|]; cbn [errlog log emit ret].
      * now rewrite app_assoc.
      * now rewrite app_nil_r.
    + destruct (IH Hjs) as [H|(j' & d & r & Hin & Sr & Hr)].
      * now left.
      * right. exists j', d, r. split; [now right|]. now split.
Qed.

Lemma reconcile_run W config jiraIssues gh t :
  wf_source gh = true ->
  forallb wf_dest jiraIssues = true ->
  exists d,
    reconcile W config jiraIssues gh t = (Val tt, t ++ d)
    /\ reconcile_shape jiraIssues gh d.
Proof.
  intros Hwf Hjs.
  destruct (wf_source_inv _ Hwf) as (id & n & body & state & user & login
    & Hid & Hn & Hb & Hs & Hu & Hl & Hlab).
  unfold reconcile. unfold bind at 1. unfold NewTranslatedIssue.
  rewrite Hb. unfold bind at 1. cbn [deref ret].
  set (ght := {| Issue := gh; TranslatedBody := _ |}).
  unfold bind at 1.
  destruct (scan_run W config gh ght jiraIssues t eq_refl Hwf Hjs)
    as [H|(j & d & r & Hin & Sr & H)]; rewrite H; cbn [negb].
  - unfold bind at 1.
    destruct (CreateIssue_run W config ght t Hwf) as (d & r & Hr & Sr).
    rewrite Hr. exists (d ++ errlog (MsgErrCreating n) r). split.
    + destruct r as [e|]; cbn [errlog].
      * rewrite Hn. unfold bind, deref, ret, log, emit. now rewrite app_assoc.
      * now rewrite app_nil_r.
    + now apply RCreate.
  - eexists. split; [reflexivity|]. now apply (RUpdate _ _ j).
Qed.

Lemma forM_reconcile_run W config jiraIssues ghIssues t :
  forallb wf_source ghIssues = true ->
  forallb wf_dest jiraIssues = true ->
  exists ds,
    forM ghIssues (reconcile W config jiraIssues) t = (Val tt, t ++ concat ds)
    /\ Forall2 (reconcile_shape jiraIssues) ghIssues ds.
Proof.
  intros Hg Hjs. revert t. induction ghIssues as [|gh ghs IH]; intros t.
  - exists []. split; [cbn; now rewrite app_nil_r | constructor].
  - cbn [forallb] in Hg. apply andb_true_iff in Hg as [Hwf Hg].
    destruct (reconcile_run W config jiraIssues gh t Hwf Hjs) as (d & Hd & Sd).
    destruct (IH Hg (t ++ d)) as (ds & Hds & Sds).
    exists (d :: ds). split.
    + cbn [forM concat]. unfold bind. rewrite Hd, Hds. now rewrite app_assoc.
    + now constructor.
Qed.

(** A pass over a non-empty source list whose two listings succeed takes
    up every source issue in turn and returns nil. *)
Lemma CompareIssues_run W config t ghIssues jiraIssues :
  gh_ListIssues W (t ++ [EvLog Debug MsgCollecting]) = Ok ghIssues ->
  ghIssues <> [] ->
  jira_ListIssues W (t ++ [EvLog Debug MsgCollecting; EvGitHubListIssues (Ok ghIssues)])
    (map github.GetID ghIssues) = Ok jiraIssues ->
  forallb wf_source ghIssues = true ->
  forallb wf_dest jiraIssues = true ->
  exists ds,
    CompareIssues W config t
    = (Val None, t ++ pass_header ghIssues jiraIssues ++ concat ds)
    /\ Forall2 (reconcile_shape jiraIssues) ghIssues ds.
Proof.
  intros HG Hne HJ Hwf Hjs.
  unfold CompareIssues. unfold bind at 1. cbn [log emit].
  unfold bind at 1. unfold ghListIssues, call. rewrite HG.
  destruct ghIssues as [|gh ghs]; [contradiction|].
  cbn [List.length Nat.eqb].
  unfold bind at 1. unfold jiraListIssues, call.
  rewrite <- app_assoc. cbn [app]. rewrite HJ.
  unfold bind at 1. cbn [log emit]. unfold bind at 1.
  match goal with |- context [forM _ _ ?u] =>
    destruct (forM_reconcile_run W config jiraIssues (gh :: ghs) u Hwf Hjs)
      as (ds & Hds & Sds) end.
  rewrite Hds. exists ds. split; [|assumption].
  cbn [ret]. unfold pass_header. rewrite <- !app_assoc. reflexivity.
Qed.

Lemma mapM_deref_cases labels t :
  (exists names, mapM (fun l => deref (github.Name l)) labels t = (Val names, t))
  \/ mapM (fun l => deref (github.Name l)) labels t = (Panic, t).
Proof.
  induction labels as [|l labels IH]; [left; now exists []|].
  assert (E : mapM (fun l => deref (github.Name l)) (l :: labels) t
    = match github.Name l with
      | Some n =>
        match mapM (fun l => deref (github.Name l)) labels t with
        | (Val ns, t') => (Val (n :: ns), t')
        | (Panic, t') => (Panic, t')
        end
      | None => (Panic, t)
      end).
  { cbn [mapM]. unfold bind at 1. destruct (github.Name l); [|reflexivity].
    cbn [deref ret]. unfold bind at 1.
    now destruct (mapM _ labels t) as [[ns|] t']. }
  rewrite E. clear E. destruct (github.Name l) as [n|]; [|now right].
  destruct IH as [[names H]|H]; rewrite H.
  - left. now exists (n :: names).
  - now right.
Qed.

(** When [DidIssueChange] returns, all it has done is log twice. *)
Lemma DidIssueChange_trace config ghIssue jIssue t b t1 :
  DidIssueChange config ghIssue jIssue t = (Val b, t1) ->
  t1 = t ++ [EvLog Debug (MsgComparing (github.GetNumber (Issue ghIssue))
                                       (jira.Key jIssue));
             EvLog Debug (MsgAnyDifferent b)].
Proof.
  unfold DidIssueChange.
  unfold bind at 1. cbn [log emit]. unfold bind at 1.
  destruct (jira.Fields jIssue) as [jf|]; cbn [deref ret panic]; [|discriminate].
  destruct (jira.String_ _ (GetFieldKey config GitHubStatus)) as [fS eS].
  destruct (jira.String_ _ (GetFieldKey config GitHubReporter)) as [fR eR].
  destruct (jira.String_ _ (GetFieldKey config GitHubLabels)) as [fL eL].
  set (t0 := t ++ _).
  assert (H1 : forall u, exists o,
    (if is_err eS then ret true
     else let* state := deref (github.State (Issue ghIssue)) in
          ret (negb (String.eqb state fS))) u = (o, u)).
  { intros u. destruct (is_err eS); [now eexists|].
    unfold bind. destruct (github.State (Issue ghIssue)); now eexists. }
  assert (H2 : forall u, exists o,
    (if is_err eR then ret true
     else let* user := deref (github.User_ (Issue ghIssue)) in
          let* login := deref (github.Login user) in
          ret (negb (String.eqb login fR))) u = (o, u)).
  { intros u. destruct (is_err eR); [now eexists|].
    unfold bind. destruct (github.User_ (Issue ghIssue)) as [user|]; [|now eexists].
    cbn [deref ret]. destruct (github.Login user); now eexists. }
  unfold bind at 1. destruct (H1 t0) as [o1 E1]. rewrite E1. clear E1 H1.
  destruct o1 as [c1|]; [|discriminate].
  unfold bind at 1. destruct (H2 t0) as [o2 E2]. rewrite E2. clear E2 H2.
  destruct o2 as [c2|]; [|discriminate].
  unfold bind at 1.
  destruct (mapM_deref_cases (github.Labels (Issue ghIssue)) t0) as [[names E]|E];
    rewrite E; [|discriminate].
  unfold bind, log, emit, ret. intros H. inversion H. subst.
  unfold t0. now rewrite <- app_assoc.
Qed.

(** C9 (amended).  On a linked destination issue for which
    [DidIssueChange] returns false, [UpdateIssue] submits no update; it
    still re-fetches the destination record by key and, when that re-fetch
    succeeds, still hands over to the comment sync, whose error it returns.
    When the re-fetch fails it returns that error without a comment
    sync. *)
Theorem UpdateIssue_unchanged W config ghIssue jIssue n t :
  github.Number (Issue ghIssue) = Some n ->
  fst (DidIssueChange config ghIssue jIssue
         (t ++ [EvLog Debug (MsgUpdating (jira.Key jIssue) n)])) = Val false ->
  let gh := Issue ghIssue in
  let key := jira.Key jIssue in
  let d := update_header gh key n false ++ [EvLog Debug (MsgUpToDate key)] in
  UpdateIssue W config ghIssue jIssue t
  = match jira_GetIssue W (t ++ d) key with
    | Ok issue =>
      let r := compare_comments W (t ++ d ++ [EvJiraGetIssue key (Ok issue)]) gh issue in
      (Val r, t ++ d ++ [EvJiraGetIssue key (Ok issue); EvCompareComments gh issue r])
    | Err e =>
      (Val (Some e),
       t ++ d ++ [EvJiraGetIssue key (Err e); EvLog Debug (MsgRetrieveFailed key)])
    end
  /\ forallb (fun e => negb (is_update_call e)) d = true.
Proof.
  intros Hn Hc gh key d. split; [|reflexivity].
  unfold UpdateIssue. rewrite Hn.
  unfold bind at 1. cbn [deref ret]. unfold bind at 1. cbn [log emit].
  unfold bind at 1.
  destruct (DidIssueChange config ghIssue jIssue _) as [o t1] eqn:E.
  cbn [fst] in Hc. subst o. apply DidIssueChange_trace in E. subst t1.
  unfold bind at 1. unfold bind at 1. cbn [log emit ret].
  unfold bind at 1. unfold jiraGetIssue, call.
  fold gh key.
  replace (((t ++ [EvLog Debug (MsgUpdating key n)]) ++
            [EvLog Debug (MsgComparing (github.GetNumber gh) key);
             EvLog Debug (MsgAnyDifferent false)]) ++
           [EvLog Debug (MsgUpToDate key)]) with (t ++ d)
    by (unfold d, update_header; now rewrite <- !app_assoc).
  destruct (jira_GetIssue W (t ++ d) key) as [issue|e].
  - unfold CompareComments, call. cbn zeta. now rewrite <- !app_assoc.
  - unfold bind, log, emit, ret. now rewrite <- !app_assoc.
Qed.

Lemma reconcile_shape_attempted jiraIssues gh d :
  reconcile_shape jiraIssues gh d -> attempted gh d.
Proof.
  intros [j d' r Hin Hu | n d' r Hn Hc].
  - destruct Hu as [n issue e Hn | n b w v r Hn Hw Hv];
      exists n; eexists; (split; [exact Hn|]); left; exists (jira.Key j);
      unfold update_header; cbn [app]; reflexivity.
  - destruct Hc; exists n; eexists; (split; [assumption|]); right;
      cbn [app]; replace n0 with n by congruence; reflexivity.
Qed.

Ltac in_cases H :=
  cbn in H;
  repeat (destruct H as [H|H]; [try discriminate H|]);
  try contradiction.

Lemma in_errlog_log msg r ev : In ev (errlog msg r) -> exists m, ev = EvLog Error m.
Proof. destruct r; cbn; [intros [<-|[]]; now eexists | intros []]. Qed.

Lemma update_shape_write_failed gh j d r issue e :
  update_shape gh j d r ->
  In (EvJiraCreateIssue issue (Err e)) d \/ In (EvJiraUpdateIssue issue (Err e)) d ->
  r = Some e.
Proof.
  intros [n issue' e' Hn | n b w v r' Hn Hw Hv] H.
  - destruct H as [H|H]; in_cases H. congruence.
  - exfalso. destruct Hw, Hv; destruct H as [H|H]; in_cases H.
Qed.

Lemma create_shape_write_failed gh d r issue e :
  create_shape gh d r ->
  In (EvJiraCreateIssue issue (Err e)) d \/ In (EvJiraUpdateIssue issue (Err e)) d ->
  r = Some e.
Proof.
  intros [n repo issue' e' Hn | n repo issue' created e' Hn
          | n repo issue' created fetched r' Hn] H.
  - destruct H as [H|H]; in_cases H. congruence.
  - exfalso. destruct H as [H|H]; in_cases H.
  - exfalso. destruct H as [H|H]; in_cases H.
Qed.



(** A failed submission is followed by the error log, which ends the
    reconciliation of its issue. *)
Lemma reconcile_shape_write_failed jiraIssues gh d e :
  reconcile_shape jiraIssues gh d -> write_failed d e -> failure_logged d e.
Proof.
  intros [j d' r Hin Hu | n d' r Hn Hc] [issue Hw].
  - assert (H : In (EvJiraCreateIssue issue (Err e)) d'
                \/ In (EvJiraUpdateIssue issue (Err e)) d').
    { destruct Hw as [Hw|Hw]; apply in_app_or in Hw as [Hw|Hw]; auto;
        apply in_errlog_log in Hw as [m Hm]; discriminate. }
    rewrite (update_shape_write_failed _ _ _ _ _ _ Hu H). cbn [errlog].
    exists d'. eexists. split; [reflexivity|]. left. now eexists.
  - assert (H : In (EvJiraCreateIssue issue (Err e)) d'
                \/ In (EvJiraUpdateIssue issue (Err e)) d').
    { destruct Hw as [Hw|Hw]; apply in_app_or in Hw as [Hw|Hw]; auto;
        apply in_errlog_log in Hw as [m Hm]; discriminate. }
    rewrite (create_shape_write_failed _ _ _ _ _ Hc H). cbn [errlog].
    exists d'. eexists. split; [reflexivity|]. right. now eexists.
Qed.



(** C3.  In a pass over source issues with A before B, whatever happens to
    A, B is reconciled after it: the trace holds the events of A's
    reconciliation and later those of B's, which start with the entry of
    B's update or create.  When a create or update submission of A fails,
    A's events end with the error log of that failure; the pass returns
    nil. *)
Theorem write_failure_does_not_abort_batch W config t pre A mid B post jiraIssues :
  let ghIssues := pre ++ A :: mid ++ B :: post in
  gh_ListIssues W (t ++ [EvLog Debug MsgCollecting]) = Ok ghIssues ->
  jira_ListIssues W (t ++ [EvLog Debug MsgCollecting; EvGitHubListIssues (Ok ghIssues)])
    (map github.GetID ghIssues) = Ok jiraIssues ->
  forallb wf_source ghIssues = true ->
  forallb wf_dest jiraIssues = true ->
  exists t1 dA t2 dB t3,
    CompareIssues W config t = (Val None, t ++ t1 ++ dA ++ t2 ++ dB ++ t3)
    /\ reconcile_shape jiraIssues A dA
    /\ reconcile_shape jiraIssues B dB
    /\ attempted B dB
    /\ forall e, write_failed dA e -> failure_logged dA e.
Proof.
  intros ghIssues HG HJ Hwf Hjs.
  assert (Hne : ghIssues <> []) by (unfold ghIssues; now destruct pre).
  destruct (CompareIssues_run W config t ghIssues jiraIssues HG Hne HJ Hwf Hjs)
    as (ds & Hrun & Hshape).
  unfold ghIssues in Hshape.
  apply Forall2_app_inv_l in Hshape as (ds1 & dsA & H1 & HA & ->).
  inversion HA as [|? dA ? dsM SA HM]; subst.
  apply Forall2_app_inv_l in HM as (ds2 & dsB & H2 & HB & ->).
  inversion HB as [|? dB ? ds3 SB H3]; subst.
  exists (pass_header ghIssues jiraIssues ++ concat ds1), dA, (concat ds2), dB, (concat ds3).
  split; [|split; [exact SA|split; [exact SB|split]]].
  - rewrite Hrun. f_equal. f_equal.
    rewrite !concat_app. cbn [concat]. rewrite concat_app. cbn [concat].
    now rewrite <- !app_assoc.
  - now apply (reconcile_shape_attempted jiraIssues).
  - intros e. now apply (reconcile_shape_write_failed jiraIssues A).
Qed.

(** ** The theorems at concrete inputs *)

Import Examples.

(** On [ghA] and a linked record whose labels field is readable and
    differs, the result is false. *)
Lemma DidIssueChange_spec_witness :
  fst (DidIssueChange config0 (translated ghA) jA' []) = Val false.
Proof.
  destruct (DidIssueChange_spec config0 ghA (TranslatedBody (translated ghA)) jA'
              fieldsA' "open" alice "alice" ["bug"] []
              eq_refl eq_refl eq_refl eq_refl eq_refl) as (b & E & _ & H).
  change (DidIssueChange config0 (translated ghA) jA' [] = (Val b,
           [] ++ [EvLog Debug (MsgComparing (github.GetNumber ghA) (jira.Key jA'));
                  EvLog Debug (MsgAnyDifferent b)])) in E.
  rewrite E. cbn [fst]. f_equal.
  apply H; try reflexivity. exists "wontfix". reflexivity.
Defined.

Lemma CompareIssues_empty_witness :
  fst (CompareIssues (refetch_fails [] []) config0 []) = Val None.
Proof.
  destruct (CompareIssues_empty (refetch_fails [] []) config0 [] eq_refl)
    as (d & E & _).
  rewrite E. reflexivity.
Defined.

Lemma linked_unreadable_id_witness :
  linked config0 ghZero jNoID [] = (Val true, []).
Proof.
  refine (proj1 (proj2 (linked_unreadable_id (refetch_fails [] []) config0 ghZero
            (translated ghZero) jNoID fieldsNoID 0%Z [] [] eq_refl _ eq_refl))).
  vm_compute. discriminate.
Defined.



(** A pass over [ghA] then [ghB] in which the create of [ghA] is
    rejected. *)
Lemma write_failure_does_not_abort_batch_witness :
  existsb is_write_err (snd (CompareIssues (create_of_A_fails [ghA; ghB]) config0 [])) = true
  /\ exists t1 dA t2 dB t3,
      CompareIssues (create_of_A_fails [ghA; ghB]) config0 []
      = (Val None, [] ++ t1 ++ dA ++ t2 ++ dB ++ t3)
      /\ reconcile_shape [] ghA dA
      /\ reconcile_shape [] ghB dB
      /\ attempted ghB dB
      /\ forall e, write_failed dA e -> failure_logged dA e.
Proof.
  split; [vm_compute; reflexivity|].
  apply (write_failure_does_not_abort_batch (create_of_A_fails [ghA; ghB]) config0
           [] [] ghA [] ghB [] []); reflexivity.
Defined.

(** C9, counterexample to the statement as the specification has it:
    [DidIssueChange] returns false on [ghA] and [jA], the re-fetch fails,
    and [UpdateIssue] makes no comment sync. *)
Lemma unchanged_refetch_failure_no_comment_sync :
  fst (DidIssueChange config0 (translated ghA) jA
         [EvLog Debug (MsgUpdating "PRJ-1" 1)]) = Val false
  /\ UpdateIssue (refetch_fails [ghA] [jA]) config0 (translated ghA) jA []
     = (Val (Some "timeout"),
        [EvLog Debug (MsgUpdating "PRJ-1" 1);
         EvLog Debug (MsgComparing 1 "PRJ-1");
         EvLog Debug (MsgAnyDifferent false);
         EvLog Debug (MsgUpToDate "PRJ-1");
         EvJiraGetIssue "PRJ-1" (Err "timeout");
         EvLog Debug (MsgRetrieveFailed "PRJ-1")])
  /\ existsb is_comment_sync
       (snd (UpdateIssue (refetch_fails [ghA] [jA]) config0 (translated ghA) jA []))
     = false.
Proof. vm_compute. repeat split. Qed.

(** On [ghA] and [jA] in a world whose re-fetch succeeds: no update, a
    re-fetch, a comment sync. *)
Lemma UpdateIssue_unchanged_witness :
  UpdateIssue (create_of_A_fails [ghA]) config0 (translated ghA) jA []
  = (Val None,
     [EvLog Debug (MsgUpdating "PRJ-1" 1);
      EvLog Debug (MsgComparing 1 "PRJ-1");
      EvLog Debug (MsgAnyDifferent false);
      EvLog Debug (MsgUpToDate "PRJ-1");
      EvJiraGetIssue "PRJ-1" (Ok jNew);
      EvCompareComments ghA jNew None]).
Proof.
  destruct (UpdateIssue_unchanged (create_of_A_fails [ghA]) config0 (translated ghA) jA
              1%Z [] eq_refl eq_refl) as [E _].
  rewrite E. reflexivity.
Defined.

End SyncFacts.

(* ===================================================================== *)
(** * Further properties of the reconciliation pass *)
(* ===================================================================== *)

Module PassFacts.
Import GoString Markup cfg Sync SyncFacts.
Local Open Scope go_scope.

(** ** The inner loop: which destination issue is taken *)

Lemma scan_unlinked W config gh ght jis t :
  Forall (unlinked config gh) jis ->
  scan W config gh ght jis t = (Val false, t).
Proof.
  induction 1 as [|j jis Hj _ IH]; [reflexivity|].
  cbn [scan]. unfold bind at 1. rewrite Hj. exact IH.
Qed.

Lemma scan_skips W config gh ght pre rest t :
  Forall (unlinked config gh) pre ->
  scan W config gh ght (pre ++ rest) t = scan W config gh ght rest t.
Proof.
  induction 1 as [|j jis Hj _ IH]; [reflexivity|].
  cbn [app scan]. unfold bind at 1. rewrite Hj. exact IH.
Qed.

Lemma scan_linked W config gh ght j rest t :
  (forall u, linked config gh j u = (Val true, u)) ->
  scan W config gh ght (j :: rest) t
  = (let* err := UpdateIssue W config ght j in
     match err with
     | Some err => log Error (MsgErrUpdating (jira.Key j) err)
     | None => ret tt
     end ;;;
     ret true) t.
Proof. intros Hj. cbn [scan]. unfold bind at 1. now rewrite Hj. Qed.

Lemma bind_ext {A B} (c : M A) (k1 k2 : A -> M B) t :
  (forall a u, k1 a u = k2 a u) -> bind c k1 t = bind c k2 t.
Proof.
  intros H. unfold bind. destruct (c t) as [[a|] u]; [apply H|reflexivity].
Qed.

Lemma bind_congr {A B} (c1 c2 : M A) (k : A -> M B) t :
  c1 t = c2 t -> bind c1 k t = bind c2 k t.
Proof. intros H. unfold bind. now rewrite H. Qed.

(** X10.  When several destination issues of the list carry the id of the
    source issue, the first of them in list order is the one that is
    updated; the issues before it and after it play no part. *)
Theorem first_link_wins W config gh pre j post t :
  Forall (unlinked config gh) pre ->
  (forall u, linked config gh j u = (Val true, u)) ->
  reconcile W config (pre ++ j :: post) gh t = reconcile W config [j] gh t.
Proof.
  intros Hpre Hj. unfold reconcile.
  apply bind_ext. intros ght u. apply bind_congr.
  rewrite scan_skips by assumption.
  rewrite (scan_linked W config gh ght j post) by assumption.
  now rewrite (scan_linked W config gh ght j []) by assumption.
Qed.

(** ** The issue that a create submits *)

Lemma GetFieldKey_inj c a b :
  GetFieldKey c a = GetFieldKey c b -> GetFieldID c a = GetFieldID c b.
Proof. unfold GetFieldKey. apply (inj (String.append "customfield_")). Qed.

Lemma distinct_field_keys c :
  distinct_field_ids c = true ->
  let k := GetFieldKey c in
  k GitHubID <> k GitHubNumber /\ k GitHubID <> k GitHubStatus
  /\ k GitHubID <> k GitHubReporter /\ k GitHubID <> k GitHubLabels
  /\ k GitHubID <> k LastISUpdate
  /\ k GitHubNumber <> k GitHubStatus /\ k GitHubNumber <> k GitHubReporter
  /\ k GitHubNumber <> k GitHubLabels /\ k GitHubNumber <> k LastISUpdate
  /\ k GitHubStatus <> k GitHubReporter /\ k GitHubStatus <> k GitHubLabels
  /\ k GitHubStatus <> k LastISUpdate
  /\ k GitHubReporter <> k GitHubLabels /\ k GitHubReporter <> k LastISUpdate
  /\ k GitHubLabels <> k LastISUpdate.
Proof.
  unfold distinct_field_ids. cbn [map nodupb existsb].
  rewrite !andb_true_iff, !negb_true_iff, !orb_false_iff.
  intros H. cbv zeta.
  assert (E : forall a b, String.eqb (GetFieldID c a) (GetFieldID c b) = false ->
                          GetFieldKey c a <> GetFieldKey c b).
  { intros a b Hab Hk. apply GetFieldKey_inj in Hk. rewrite Hk, String.eqb_refl in Hab.
    discriminate. }
  repeat split; apply E; tauto.
Qed.

(** The issue that [CreateIssue] submits. *)
Lemma CreateIssue_payload W config issue n t :
  wf_source (Issue issue) = true ->
  github.Number (Issue issue) = Some n ->
  let gh := Issue issue in
  let t1 := t ++ [EvLog Debug (MsgCreatingIssue n)] in
  let repo := gh_GetRepo W t1 in
  let t2 := t1 ++ [EvGitHubGetRepo repo] in
  let payload := {|
    jira.Fields := Some {|
      jira.Type_ := {| jira.TypeName := "Task" |};
      jira.Project_ := GetProject config repo;
      jira.Summary := github.GetTitle gh;
      jira.Description := GetTranslatedBody issue;
      jira.Unknowns :=
        <[GetFieldKey config LastISUpdate := jira.VString (now W t2)]>
        (<[GetFieldKey config GitHubLabels :=
             jira.VString (Join (map github.GetName (github.Labels gh)) ",")]>
        (<[GetFieldKey config GitHubReporter :=
             jira.VString (github.GetLogin (github.User_ gh))]>
        (<[GetFieldKey config GitHubStatus := jira.VString (github.GetState gh)]>
        (<[GetFieldKey config GitHubNumber := jira.VNumber (github.GetNumber gh)]>
        (<[GetFieldKey config GitHubID := jira.VNumber (github.GetID gh)]> ∅))))) |};
    jira.Key := ""; jira.ID := "" |} in
  exists r rest,
    CreateIssue W config issue t
    = (Val r, t2 ++ EvJiraCreateIssue payload (jira_CreateIssue W t2 payload) :: rest)
    /\ forallb (fun e => negb (is_write e)) rest = true.
Proof.
  intros Hwf Hn gh t1 repo t2 payload.
  destruct (wf_source_inv _ Hwf) as (id & n' & body & state & user & login
    & Hid & Hn' & Hb & Hs & Hu & Hl & Hlab).
  unfold CreateIssue. rewrite Hn.
  unfold bind at 1. cbn [deref ret]. unfold bind at 1. cbn [log emit].
  unfold bind at 1. unfold ghGetRepo at 1, call.
  unfold bind at 1. rewrite (mapM_deref_present _ _ Hlab).
  unfold bind at 1. unfold Now at 1.
  unfold bind at 1. unfold jiraCreateIssue at 1, call.
  fold gh t1 repo t2. fold payload.
  destruct (jira_CreateIssue W t2 payload) as [created|e] eqn:EC.
  - unfold bind at 1. unfold jiraGetIssue at 1, call.
    destruct (jira_GetIssue W _ (jira.Key created)) as [fetched|e] eqn:EG.
    + unfold bind, log, emit, CompareComments, call.
      do 2 eexists. split.
      * rewrite <- !app_assoc. cbn [app]. reflexivity.
      * reflexivity.
    + cbn [ret]. do 2 eexists. split.
      * rewrite <- !app_assoc. cbn [app]. reflexivity.
      * reflexivity.
  - cbn [ret]. do 2 eexists. split.
    + reflexivity.
    + reflexivity.
Qed.

(** [DidIssueChange] on a destination issue that agrees with the source
    issue and whose labels field can be read. *)
Lemma DidIssueChange_agree config ghIssue jIssue jf state user login s t :
  jira.Fields jIssue = Some jf ->
  github.State (Issue ghIssue) = Some state ->
  github.User_ (Issue ghIssue) = Some user ->
  github.Login user = Some login ->
  forallb (fun l => present (github.Name l)) (github.Labels (Issue ghIssue)) = true ->
  jira.Summary jf = github.GetTitle (Issue ghIssue) ->
  jira.Description jf = GetTranslatedBody ghIssue ->
  jira.Unknowns jf !! GetFieldKey config GitHubStatus = Some (jira.VString state) ->
  jira.Unknowns jf !! GetFieldKey config GitHubReporter = Some (jira.VString login) ->
  jira.Unknowns jf !! GetFieldKey config GitHubLabels = Some (jira.VString s) ->
  fst (DidIssueChange config ghIssue jIssue t) = Val false.
Proof.
  intros Hf Hs Hu Hl Hlab HS HD H1 H2 H3.
  unfold DidIssueChange. rewrite Hf, Hs, Hu.
  unfold bind at 1. cbn [log emit]. unfold bind at 1. cbn [deref ret].
  unfold jira.String_. rewrite H1, H2, H3. cbn [is_err].
  unfold bind at 1. unfold bind at 1. cbn [ret].
  unfold bind at 1. unfold bind at 1. cbn [ret]. unfold bind at 1. rewrite Hl. cbn [deref ret].
  unfold bind at 1. rewrite (mapM_deref_present _ _ Hlab).
  unfold bind, log, emit, ret. cbn [fst andb].
  now rewrite HS, HD, !String.eqb_refl.
Qed.

(** X11.  When the six custom fields have six different IDs, [CreateIssue]
    submits one issue for a source issue; that issue passes the link test
    of [CompareIssues] against the source issue, and [DidIssueChange]
    reports no difference between the two. *)
Theorem created_issue_matches_source W config issue t :
  wf_source (Issue issue) = true ->
  distinct_field_ids config = true ->
  exists r d,
    CreateIssue W config issue t = (Val r, t ++ d)
    /\ length (List.filter is_create_call d) = 1
    /\ forall payload res, In (EvJiraCreateIssue payload res) d ->
         (forall u, linked config (Issue issue) payload u = (Val true, u))
         /\ (forall u, fst (DidIssueChange config issue payload u) = Val false).
Proof.
  intros Hwf Hd.
  destruct (wf_source_inv _ Hwf) as (id & n & body & state & user & login
    & Hid & Hn & Hb & Hs & Hu & Hl & Hlab).
  destruct (CreateIssue_payload W config issue n t Hwf Hn) as (r & rest & Hrun & Hrest).
  cbv zeta in Hrun.
  destruct (distinct_field_keys config Hd)
    as (K1 & K2 & K3 & K4 & K5 & K6 & K7 & K8 & K9 & K10 & K11 & K12 & K13 & K14 & K15).
  cbv zeta in K1, K2, K3, K4, K5, K6, K7, K8, K9, K10, K11, K12, K13, K14, K15.
  eexists r, _. split; [rewrite Hrun; rewrite <- !app_assoc; reflexivity|].
  cbn [app List.filter is_create_call].
  assert (Hnone : List.filter is_create_call rest = []).
  { clear - Hrest. induction rest as [|e rest IH]; [reflexivity|].
    cbn [forallb] in Hrest. apply andb_true_iff in Hrest as [He Hr].
    cbn [List.filter]. unfold is_write in He. apply negb_true_iff, orb_false_iff in He as [He _].
    rewrite He. now apply IH. }
  split; [now rewrite Hnone|].
  intros payload res Hin.
  destruct Hin as [Hin|[Hin|[Hin|Hin]]]; try discriminate.
  2:{ exfalso. assert (Hin2 : In (EvJiraCreateIssue payload res) (List.filter is_create_call rest))
        by (apply filter_In; split; [exact Hin|reflexivity]).
      now rewrite Hnone in Hin2. }
  injection Hin as Hp _. subst payload. split.
  - intros u. unfold linked, bind, deref, ret, jira.Int.
    cbn [jira.Fields jira.Unknowns].
    rewrite lookup_insert_ne, lookup_insert_ne, lookup_insert_ne, lookup_insert_ne,
      lookup_insert_ne, lookup_insert_eq by congruence.
    unfold github.GetID. rewrite Hid. now rewrite Z.eqb_refl.
  - intros u.
    eapply (DidIssueChange_agree config issue _ _ state user login);
      [reflexivity|..];
      cbn [jira.Fields jira.Unknowns jira.Summary jira.Description];
      try reflexivity; try assumption.
    + rewrite lookup_insert_ne, lookup_insert_ne, lookup_insert_ne, lookup_insert_eq
        by congruence.
      unfold github.GetState. now rewrite Hs.
    + rewrite lookup_insert_ne, lookup_insert_ne, lookup_insert_eq by congruence.
      unfold github.GetLogin. now rewrite Hu, Hl.
    + rewrite lookup_insert_ne, lookup_insert_eq by congruence. reflexivity.
Qed.

(** ** Counting the calls *)

Lemma count_app p d1 d2 : count p (d1 ++ d2) = (count p d1 + count p d2)%nat.
Proof. unfold count. now rewrite List.filter_app, length_app. Qed.

Lemma count_errlog p msg r :
  (forall l m, p (EvLog l m) = false) -> count p (errlog msg r) = 0%nat.
Proof. intros H. destruct r; unfold count; cbn; now rewrite ?H. Qed.

Lemma count_concat p ds :
  count p (concat ds) = list_sum (map (count p) ds).
Proof.
  induction ds as [|d ds IH]; [reflexivity|].
  cbn [concat map list_sum]. now rewrite count_app, IH.
Qed.

Local Ltac conjs := repeat match goal with |- _ /\ _ => split end.

Lemma update_shape_calls gh j d r :
  update_shape gh j d r ->
  (count is_write d <= 1 /\ count is_refetch d <= 1
   /\ count is_comment_sync d <= count is_refetch d
   /\ count is_create_call d = 0
   /\ (forall e, In e d -> is_write_err e = true ->
         count is_refetch d = 0 /\ count is_comment_sync d = 0))%nat.
Proof.
  intros H. destruct H as [n issue e Hn | n b w v r Hn Hw Hv].
  - conjs; try (cbn; lia).
  - destruct Hw, Hv; conjs; try (cbn; lia);
      intros ev Hin He; cbn in Hin;
      repeat (destruct Hin as [<-|Hin]; [discriminate He|]); destruct Hin.
Qed.

Lemma create_shape_calls gh d r :
  create_shape gh d r ->
  (count is_write d = 1 /\ count is_refetch d <= 1
   /\ count is_comment_sync d <= count is_refetch d
   /\ count is_update_call d = 0
   /\ (forall e, In e d -> is_write_err e = true ->
         count is_refetch d = 0 /\ count is_comment_sync d = 0))%nat.
Proof.
  intros H. destruct H; conjs; try (cbn; lia);
    intros ev Hin He; cbn in Hin;
    repeat (destruct Hin as [<-|Hin]; [discriminate He|]); destruct Hin.
Qed.

Lemma in_errlog_not_write_err msg r e :
  In e (errlog msg r) -> is_write_err e = false.
Proof. destruct r; cbn; [intros [<-|[]]; reflexivity | intros []]. Qed.

Lemma reconcile_shape_calls jis gh d :
  reconcile_shape jis gh d ->
  (count is_write d <= 1 /\ count is_refetch d <= 1
   /\ count is_comment_sync d <= count is_refetch d
   /\ (forall e, In e d -> is_write_err e = true ->
         count is_refetch d = 0 /\ count is_comment_sync d = 0))%nat.
Proof.
  intros H. destruct H as [j d r Hj Hu | n d r Hn Hc].
  - destruct (update_shape_calls _ _ _ _ Hu) as (H1 & H2 & H3 & _ & H5).
    rewrite !count_app, !count_errlog by reflexivity. rewrite !Nat.add_0_r.
    conjs; try assumption.
    all: intros e Hin He; apply in_app_or in Hin as [Hin|Hin];
      [now apply (H5 e) | apply in_errlog_not_write_err in Hin; congruence].
  - destruct (create_shape_calls _ _ _ Hc) as (H1 & H2 & H3 & _ & H5).
    rewrite !count_app, !count_errlog by reflexivity. rewrite !Nat.add_0_r.
    conjs; try assumption; try lia.
    all: intros e Hin He; apply in_app_or in Hin as [Hin|Hin];
      [now apply (H5 e) | apply in_errlog_not_write_err in Hin; congruence].
Qed.

(** ** The order of the calls of one turn *)

Lemma split_at_nil {A} (d1 : list A) e d2 : [] = d1 ++ e :: d2 -> False.
Proof. destruct d1; discriminate. Qed.

Lemma split_at_cons {A} (x : A) l d1 e d2 :
  x :: l = d1 ++ e :: d2 ->
  (d1 = [] /\ e = x /\ d2 = l) \/ (exists d1', d1 = x :: d1' /\ l = d1' ++ e :: d2).
Proof.
  destruct d1 as [|y d1]; cbn [app]; intros H; injection H as -> ->; [now left|right; eauto].
Qed.

(** The positions of an event in a trace that is written out. *)
Local Ltac positions H :=
  repeat first
    [ apply split_at_nil in H; destruct H
    | apply split_at_cons in H; destruct H as [(-> & He & ->)|(? & -> & H)] ].

(** In the trace of one turn the comment sync follows the re-fetch that
    succeeded and ends the calls; no write follows a re-fetch. *)
Lemma reconcile_shape_order jis gh d :
  reconcile_shape jis gh d ->
  (forall d1 g j r d2, d = d1 ++ EvCompareComments g j r :: d2 ->
     g = gh /\ (exists key, In (EvJiraGetIssue key (Ok j)) d1)
     /\ count is_destination_call d2 = 0%nat)
  /\ (forall d1 key res d2, d = d1 ++ EvJiraGetIssue key res :: d2 ->
        count is_write d2 = 0%nat).
Proof.
  intros H.
  destruct H as [j d r Hj Hu | n d r Hn Hc];
    [destruct Hu as [? ? e ?|? ? ? ? r ? Hw Hv]; [|destruct Hw, Hv] | destruct Hc];
    repeat match goal with r : option error |- _ => destruct r end;
    split; intros until d2; intros Heq; cbn [app update_header errlog] in Heq;
    positions Heq; try discriminate He; injection He; intros; subst.
  all: try reflexivity.
  all: conjs; try reflexivity.
  all: eexists; cbn [In]; repeat first [left; reflexivity | right].
Qed.

(** X12.  One source issue costs at most one write, one re-fetch and one
    comment sync.  The comment sync is handed the source issue and the
    destination issue that the re-fetch before it returned, and no call to
    the destination follows it; no write follows a re-fetch; a failed
    write is the last call for that issue. *)
Theorem reconcile_calls W config jiraIssues gh t :
  wf_source gh = true ->
  forallb wf_dest jiraIssues = true ->
  exists d,
    reconcile W config jiraIssues gh t = (Val tt, t ++ d)
    /\ (count is_write d <= 1)%nat
    /\ (count is_refetch d <= 1)%nat
    /\ (count is_comment_sync d <= count is_refetch d)%nat
    /\ (forall e, In e d -> is_write_err e = true ->
          count is_refetch d = 0%nat /\ count is_comment_sync d = 0%nat)
    /\ (forall d1 g j r d2, d = d1 ++ EvCompareComments g j r :: d2 ->
          g = gh /\ (exists key, In (EvJiraGetIssue key (Ok j)) d1)
          /\ count is_destination_call d2 = 0%nat)
    /\ (forall d1 key res d2, d = d1 ++ EvJiraGetIssue key res :: d2 ->
          count is_write d2 = 0%nat).
Proof.
  intros Hg Hj.
  destruct (reconcile_run W config jiraIssues gh t Hg Hj) as (d & Hrun & Hshape).
  exists d. split; [exact Hrun|].
  destruct (reconcile_shape_calls jiraIssues gh d Hshape) as (H1 & H2 & H3 & H4).
  destruct (reconcile_shape_order jiraIssues gh d Hshape) as (H5 & H6).
  conjs; assumption.
Qed.

Lemma Forall2_calls jis ghIssues ds :
  Forall2 (reconcile_shape jis) ghIssues ds ->
  (count is_write (concat ds) <= length ghIssues
   /\ count is_refetch (concat ds) <= length ghIssues
   /\ count is_comment_sync (concat ds) <= length ghIssues)%nat.
Proof.
  induction 1 as [|gh d ghs ds Hd _ IH]; [cbn; lia|].
  destruct (reconcile_shape_calls _ _ _ Hd) as (H1 & H2 & H3 & _).
  cbn [concat length]. rewrite !count_app. lia.
Qed.

Lemma destination_calls_split d :
  (count is_destination_call d
   = count is_write d + count is_refetch d
     + count (fun e => match e with EvJiraListIssues _ _ => true | _ => false end) d)%nat.
Proof.
  induction d as [|e d IH]; [reflexivity|].
  unfold count in *. destruct e; cbn; try lia.
Qed.

Lemma reconcile_shape_no_listing jis gh d :
  reconcile_shape jis gh d ->
  count (fun e => match e with EvJiraListIssues _ _ => true | _ => false end) d = 0%nat.
Proof.
  intros H. destruct H as [j d r Hj Hu | n d r Hn Hc];
    rewrite count_app, count_errlog by reflexivity.
  - destruct Hu as [|? ? ? ? ? ? Hw Hv]; [reflexivity|]. now destruct Hw, Hv.
  - now destruct Hc.
Qed.

(** X13.  A pass over [n] source issues returns nil after one listing of the
    destination issues, at most [n] create or update submissions and at
    most [n] re-fetches by key: at most [1 + 2 * n] calls of its own on
    the JIRA client.  It hands over to the comment reconciliation at most
    [n] times; what [CompareComments], which is not part of
    [lib/issues.go], calls on the client it is given is not counted. *)
Theorem CompareIssues_call_budget W config t ghIssues jiraIssues :
  gh_ListIssues W (t ++ [EvLog Debug MsgCollecting]) = Ok ghIssues ->
  ghIssues <> [] ->
  jira_ListIssues W (t ++ [EvLog Debug MsgCollecting; EvGitHubListIssues (Ok ghIssues)])
    (map github.GetID ghIssues) = Ok jiraIssues ->
  forallb wf_source ghIssues = true ->
  forallb wf_dest jiraIssues = true ->
  exists d,
    CompareIssues W config t = (Val None, t ++ d)
    /\ count is_listing d = 1%nat
    /\ (count is_write d <= length ghIssues)%nat
    /\ (count is_refetch d <= length ghIssues)%nat
    /\ count is_destination_call d
       = (count is_listing d + count is_write d + count is_refetch d)%nat
    /\ (count is_destination_call d <= 1 + 2 * length ghIssues)%nat
    /\ (count is_comment_sync d <= length ghIssues)%nat.
Proof.
  intros Hg Hne Hj Hwg Hwj.
  destruct (CompareIssues_run W config t ghIssues jiraIssues Hg Hne Hj Hwg Hwj)
    as (ds & Hrun & Hshape).
  exists (pass_header ghIssues jiraIssues ++ concat ds). split; [exact Hrun|].
  destruct (Forall2_calls _ _ _ Hshape) as (H1 & H2 & H3).
  assert (H4 : count is_listing (concat ds) = 0%nat).
  { clear - Hshape. induction Hshape as [|gh d ghs ds Hd _ IH]; [reflexivity|].
    cbn [concat]. rewrite count_app, IH, Nat.add_0_r.
    exact (reconcile_shape_no_listing _ _ _ Hd). }
  rewrite destination_calls_split. fold is_listing.
  rewrite !count_app, H4.
  change (count is_write (pass_header ghIssues jiraIssues)) with 0%nat.
  change (count is_comment_sync (pass_header ghIssues jiraIssues)) with 0%nat.
  change (count is_refetch (pass_header ghIssues jiraIssues)) with 0%nat.
  change (count is_listing (pass_header ghIssues jiraIssues)) with 1%nat.
  conjs; lia.
Qed.

(** ** The issue that an update submits *)

(** The issue that [UpdateIssue] submits when a difference was found. *)
Lemma UpdateIssue_payload W config ghIssue jIssue jf n t :
  github.Number (Issue ghIssue) = Some n ->
  jira.Fields jIssue = Some jf ->
  fst (DidIssueChange config ghIssue jIssue
         (t ++ [EvLog Debug (MsgUpdating (jira.Key jIssue) n)])) = Val true ->
  let gh := Issue ghIssue in
  let t1 := t ++ update_header gh (jira.Key jIssue) n true in
  let payload := {|
    jira.Fields := Some {|
      jira.Type_ := jira.Type_ jf;
      jira.Project_ := jira.noProject;
      jira.Summary := github.GetTitle gh;
      jira.Description := GetTranslatedBody ghIssue;
      jira.Unknowns :=
        <[GetFieldKey config LastISUpdate := jira.VString (now W t1)]>
        (<[GetFieldKey config GitHubLabels :=
             jira.VString (Join (map github.GetName (github.Labels gh)) ",")]>
        (<[GetFieldKey config GitHubReporter :=
             jira.VString (github.GetLogin (github.User_ gh))]>
        (<[GetFieldKey config GitHubStatus := jira.VString (github.GetState gh)]> ∅))) |};
    jira.Key := jira.Key jIssue;
    jira.ID := jira.ID jIssue |} in
  exists r rest,
    UpdateIssue W config ghIssue jIssue t
    = (Val r, t1 ++ EvJiraUpdateIssue payload (jira_UpdateIssue W t1 payload) :: rest)
    /\ forallb (fun e => negb (is_write e)) rest = true.
Proof.
  intros Hn Hf Hc gh t1 payload.
  unfold UpdateIssue. rewrite Hn.
  unfold bind at 1. cbn [deref ret]. unfold bind at 1. cbn [log emit].
  unfold bind at 1.
  destruct (DidIssueChange config ghIssue jIssue _) as [o t2] eqn:E.
  cbn [fst] in Hc. subst o. apply DidIssueChange_trace in E.
  assert (Ht : t2 = t1).
  { subst t2. unfold t1, update_header. now rewrite <- app_assoc. }
  clear E. subst t2.
  unfold bind at 1. unfold bind at 1. unfold Now at 1.
  unfold bind at 1. rewrite Hf. cbn [deref ret]. unfold bind at 1.
  unfold jiraUpdateIssue at 1, call. fold gh. fold payload.
  destruct (jira_UpdateIssue W t1 payload) as [issue'|e] eqn:EU.
  - unfold bind at 1. cbn [log emit ret].
    unfold bind at 1, jiraGetIssue, call.
    match goal with |- context [jira_GetIssue W ?u ?k] =>
      destruct (jira_GetIssue W u k) as [issue|e] end.
    + unfold CompareComments, call. do 2 eexists. split.
      * rewrite <- !app_assoc. cbn [app]. reflexivity.
      * reflexivity.
    + unfold bind, log, emit, ret. do 2 eexists. split.
      * rewrite <- !app_assoc. cbn [app]. reflexivity.
      * reflexivity.
  - cbn [ret]. exists (Some e), []. split; reflexivity.
Qed.

(** X14.  When [DidIssueChange] reports a difference and the six custom
    fields have six different IDs, [UpdateIssue] submits one update and no
    create.  The issue it submits keeps the key, the id and the issue type
    of the destination issue, leaves the GitHub-ID and GitHub-number
    fields unset, and agrees with the source issue: [DidIssueChange]
    reports no difference between the two. *)
Theorem update_request_matches_source W config ghIssue jIssue jf t :
  wf_source (Issue ghIssue) = true ->
  distinct_field_ids config = true ->
  jira.Fields jIssue = Some jf ->
  fst (DidIssueChange config ghIssue jIssue
         (t ++ [EvLog Debug (MsgUpdating (jira.Key jIssue)
                               (github.GetNumber (Issue ghIssue)))])) = Val true ->
  exists r d,
    UpdateIssue W config ghIssue jIssue t = (Val r, t ++ d)
    /\ count is_update_call d = 1%nat
    /\ count is_create_call d = 0%nat
    /\ forall payload res, In (EvJiraUpdateIssue payload res) d ->
         jira.Key payload = jira.Key jIssue
         /\ jira.ID payload = jira.ID jIssue
         /\ (exists pf, jira.Fields payload = Some pf
               /\ jira.Type_ pf = jira.Type_ jf
               /\ jira.Unknowns pf !! GetFieldKey config GitHubID = None
               /\ jira.Unknowns pf !! GetFieldKey config GitHubNumber = None)
         /\ (forall u, fst (DidIssueChange config ghIssue payload u) = Val false).
Proof.
  intros Hwf Hd Hf Hc.
  destruct (wf_source_inv _ Hwf) as (id & n & body & state & user & login
    & Hid & Hn & Hb & Hs & Hu & Hl & Hlab).
  assert (HN : github.GetNumber (Issue ghIssue) = n)
    by (unfold github.GetNumber; now rewrite Hn).
  rewrite HN in Hc.
  destruct (UpdateIssue_payload W config ghIssue jIssue jf n t Hn Hf Hc)
    as (r & rest & Hrun & Hrest).
  cbv zeta in Hrun.
  destruct (distinct_field_keys config Hd)
    as (K1 & K2 & K3 & K4 & K5 & K6 & K7 & K8 & K9 & K10 & K11 & K12 & K13 & K14 & K15).
  cbv zeta in K1, K2, K3, K4, K5, K6, K7, K8, K9, K10, K11, K12, K13, K14, K15.
  eexists r, _. split; [rewrite Hrun; rewrite <- !app_assoc; reflexivity|].
  assert (Hnone : List.filter is_write rest = []).
  { clear - Hrest. induction rest as [|e rest IH]; [reflexivity|].
    cbn [forallb] in Hrest. apply andb_true_iff in Hrest as [He Hr].
    cbn [List.filter]. apply negb_true_iff in He. rewrite He. now apply IH. }
  assert (Hrest' : forall e, In e rest -> is_write e = false).
  { intros e He. destruct (is_write e) eqn:Ew; [|reflexivity].
    assert (In e (List.filter is_write rest)) by (apply filter_In; now split).
    rewrite Hnone in *. contradiction. }
  assert (Hcount : forall p, (forall e, p e = true -> is_write e = true) ->
            count p rest = 0%nat).
  { intros p Hp. unfold count. clear - Hrest' Hp.
    induction rest as [|e rest IH]; [reflexivity|]. cbn [List.filter].
    destruct (p e) eqn:Ep.
    - apply Hp in Ep. rewrite Hrest' in Ep by now left. discriminate.
    - apply IH. intros e' He'. apply Hrest'. now right. }
  split; [|split].
  - rewrite count_app. cbn [update_header]. unfold count at 1. cbn [List.filter is_update_call length].
    change (count is_update_call (?e :: rest)) with (S (count is_update_call rest)).
    rewrite Hcount; [reflexivity|]. intros e He. unfold is_write. rewrite He. apply orb_true_r.
  - rewrite count_app. unfold count at 1. cbn [update_header List.filter is_create_call length].
    change (count is_create_call (?e :: rest)) with (count is_create_call rest).
    rewrite Hcount; [reflexivity|]. intros e He. unfold is_write. now rewrite He.
  - intros payload res Hin. apply in_app_or in Hin as [Hin|Hin].
    { cbn in Hin. repeat (destruct Hin as [Hin|Hin]; [discriminate|]). destruct Hin. }
    destruct Hin as [Hin|Hin].
    2:{ apply Hrest' in Hin. discriminate. }
    injection Hin as Hp _. subst payload. cbn [jira.Key jira.ID jira.Fields].
    split; [reflexivity|]. split; [reflexivity|]. split.
    + eexists. split; [reflexivity|]. cbn [jira.Type_ jira.Unknowns].
      split; [reflexivity|]. split.
      * rewrite !lookup_insert_ne by congruence. apply lookup_empty.
      * rewrite !lookup_insert_ne by congruence. apply lookup_empty.
    + intros u.
      eapply (DidIssueChange_agree config ghIssue _ _ state user login);
        [reflexivity|..];
        cbn [jira.Fields jira.Unknowns jira.Summary jira.Description];
        try reflexivity; try assumption.
      * rewrite lookup_insert_ne, lookup_insert_ne, lookup_insert_ne, lookup_insert_eq
          by congruence.
        unfold github.GetState. now rewrite Hs.
      * rewrite lookup_insert_ne, lookup_insert_ne, lookup_insert_eq by congruence.
        unfold github.GetLogin. now rewrite Hu, Hl.
      * rewrite lookup_insert_ne, lookup_insert_eq by congruence. reflexivity.
Qed.

(** ** Create or update *)

Lemma count_write_split d :
  count is_write d = (count is_create_call d + count is_update_call d)%nat.
Proof.
  unfold count. induction d as [|e d IH]; [reflexivity|].
  destruct e; cbn; lia.
Qed.

(** X15.  A source issue that no destination issue of the list carries is
    created, once, and nothing is updated. *)
Theorem unlinked_issue_is_created W config jiraIssues gh t :
  wf_source gh = true ->
  Forall (unlinked config gh) jiraIssues ->
  exists d,
    reconcile W config jiraIssues gh t = (Val tt, t ++ d)
    /\ count is_create_call d = 1%nat
    /\ count is_update_call d = 0%nat.
Proof.
  intros Hwf Hun.
  destruct (wf_source_inv _ Hwf) as (id & n & body & state & user & login
    & Hid & Hn & Hb & Hs & Hu & Hl & Hlab).
  unfold reconcile. unfold bind at 1. unfold NewTranslatedIssue.
  rewrite Hb. unfold bind at 1. cbn [deref ret].
  set (ght := {| Issue := gh; TranslatedBody := _ |}).
  unfold bind at 1. rewrite (scan_unlinked W config gh ght jiraIssues t Hun).
  cbn [negb]. unfold bind at 1.
  destruct (CreateIssue_run W config ght t Hwf) as (d & r & Hr & Sr).
  rewrite Hr. exists (d ++ errlog (MsgErrCreating n) r).
  destruct (create_shape_calls _ _ _ Sr) as (H1 & _ & _ & H4 & _).
  rewrite count_write_split in H1.
  rewrite !count_app, !count_errlog by reflexivity.
  split; [|lia].
  destruct r as [e|]; cbn [errlog].
  - rewrite Hn. unfold bind, deref, ret, log, emit. now rewrite app_assoc.
  - now rewrite app_nil_r.
Qed.

(** X16.  A source issue that a destination issue of the list carries is
    updated against the first such issue and never created. *)
Theorem linked_issue_is_not_created W config gh pre j post t :
  wf_source gh = true ->
  wf_dest j = true ->
  Forall (unlinked config gh) pre ->
  (forall u, linked config gh j u = (Val true, u)) ->
  exists d,
    reconcile W config (pre ++ j :: post) gh t = (Val tt, t ++ d)
    /\ count is_create_call d = 0%nat
    /\ (count is_update_call d <= 1)%nat.
Proof.
  intros Hwf Hj Hpre Hl.
  destruct (wf_source_inv _ Hwf) as (id & n & body & state & user & login
    & Hid & Hn & Hb & Hs & Hu & Hlg & Hlab).
  unfold reconcile. unfold bind at 1. unfold NewTranslatedIssue.
  rewrite Hb. unfold bind at 1. cbn [deref ret].
  set (ght := {| Issue := gh; TranslatedBody := _ |}).
  unfold bind at 1. rewrite scan_skips by assumption.
  rewrite (scan_linked W config gh ght j post) by assumption.
  unfold bind at 1. unfold bind at 1.
  destruct (UpdateIssue_run W config ght j t Hwf Hj) as (d & r & Hr & Sr).
  rewrite Hr. exists (d ++ errlog (MsgErrUpdating (jira.Key j)) r).
  destruct (update_shape_calls _ _ _ _ Sr) as (H1 & _ & _ & H4 & _).
  rewrite count_write_split in H1.
  rewrite !count_app, !count_errlog by reflexivity.
  split; [|lia].
  destruct r as [e|]; cbn [errlog negb ret].
  - unfold bind, log, emit, ret. cbn [negb]. now rewrite app_assoc.
  - now rewrite app_nil_r.
Qed.

(** ** Failing listings, and a source issue without a body *)

(** An error of the source listing is returned as it is, before any call
    to the destination tracker. *)
Lemma source_listing_error_is_returned W config t e :
  gh_ListIssues W (t ++ [EvLog Debug MsgCollecting]) = Err e ->
  exists d,
    CompareIssues W config t = (Val (Some e), t ++ d)
    /\ count is_destination_call d = 0%nat
    /\ count is_comment_sync d = 0%nat.
Proof.
  intros HG. exists [EvLog Debug MsgCollecting; EvGitHubListIssues (Err e)].
  split; [|split; reflexivity].
  unfold CompareIssues. unfold bind at 1. cbn [log emit].
  unfold bind at 1. unfold ghListIssues, call. rewrite HG.
  cbn [ret]. now rewrite <- app_assoc.
Qed.

(** X17.  An error of the destination listing is returned as it is; no source
    issue is translated, written, re-fetched or handed to the comment
    sync, whatever the source issues hold. *)
Theorem destination_listing_error_is_returned W config t ghIssues e :
  gh_ListIssues W (t ++ [EvLog Debug MsgCollecting]) = Ok ghIssues ->
  ghIssues <> [] ->
  jira_ListIssues W (t ++ [EvLog Debug MsgCollecting; EvGitHubListIssues (Ok ghIssues)])
    (map github.GetID ghIssues) = Err e ->
  CompareIssues W config t
  = (Val (Some e),
     t ++ [EvLog Debug MsgCollecting; EvGitHubListIssues (Ok ghIssues);
           EvJiraListIssues (map github.GetID ghIssues) (Err e)]).
Proof.
  intros HG Hne HJ.
  unfold CompareIssues. unfold bind at 1. cbn [log emit].
  unfold bind at 1. unfold ghListIssues, call. rewrite HG.
  destruct ghIssues as [|gh ghs]; [contradiction|].
  cbn [List.length Nat.eqb].
  unfold bind at 1. unfold jiraListIssues, call.
  rewrite <- app_assoc. cbn [app]. rewrite HJ.
  cbn [ret]. now rewrite <- app_assoc.
Qed.

Lemma forM_app {A} (l1 l2 : list A) (body : A -> M unit) t :
  forM (l1 ++ l2) body t = (forM l1 body ;;; forM l2 body) t.
Proof.
  revert t. induction l1 as [|x l1 IH]; intros t; [reflexivity|].
  cbn [app forM]. unfold bind.
  destruct (body x t) as [[[]|] u]; [|reflexivity].
  rewrite IH. reflexivity.
Qed.

Lemma reconcile_no_body W config jiraIssues gh t :
  github.Body gh = None -> reconcile W config jiraIssues gh t = (Panic, t).
Proof.
  intros Hb. unfold reconcile, NewTranslatedIssue. now rewrite Hb.
Qed.

(** X18.  A source issue without a body stops the pass with a nil dereference
    when its turn comes: the issues before it are reconciled, no event is
    recorded for it, and the issues after it are never taken up. *)
Theorem missing_body_stops_pass W config t pre gh post jiraIssues :
  let ghIssues := pre ++ gh :: post in
  gh_ListIssues W (t ++ [EvLog Debug MsgCollecting]) = Ok ghIssues ->
  jira_ListIssues W (t ++ [EvLog Debug MsgCollecting; EvGitHubListIssues (Ok ghIssues)])
    (map github.GetID ghIssues) = Ok jiraIssues ->
  forallb wf_source pre = true ->
  forallb wf_dest jiraIssues = true ->
  github.Body gh = None ->
  exists ds,
    CompareIssues W config t
    = (Panic, t ++ pass_header ghIssues jiraIssues ++ concat ds)
    /\ Forall2 (reconcile_shape jiraIssues) pre ds.
Proof.
  intros ghIssues HG HJ Hwf Hjs Hb. subst ghIssues.
  unfold CompareIssues. unfold bind at 1. cbn [log emit].
  unfold bind at 1. unfold ghListIssues, call. rewrite HG.
  assert (Hlen : (List.length (pre ++ gh :: post) =? 0)%nat = false).
  { rewrite length_app. cbn [List.length]. apply Nat.eqb_neq. lia. }
  rewrite Hlen.
  unfold bind at 1. unfold jiraListIssues, call.
  rewrite <- app_assoc. cbn [app]. rewrite HJ.
  unfold bind at 1. cbn [log emit]. unfold bind at 1.
  rewrite forM_app. unfold bind at 1.
  match goal with |- context [forM pre _ ?u] =>
    destruct (forM_reconcile_run W config jiraIssues pre u Hwf Hjs)
      as (ds & Hds & Sds) end.
  rewrite Hds. cbn [forM]. unfold bind at 1.
  rewrite reconcile_no_body by assumption.
  exists ds. split; [|assumption].
  unfold pass_header. rewrite <- !app_assoc. reflexivity.
Qed.

(** ** Field IDs that coincide *)

(** X19.  When the GitHub-ID field and the last-update field have the same
    ID, as they do when no field ID was found, the time stamp overwrites
    the id in the issue that [CreateIssue] submits: that issue fails the
    link test of [CompareIssues] against its own source issue, unless the
    id of the source issue is 0. *)
Theorem shared_field_id_unlinks_created_issue W config issue id t :
  wf_source (Issue issue) = true ->
  github.ID (Issue issue) = Some id -> id <> 0%Z ->
  GetFieldID config GitHubID = GetFieldID config LastISUpdate ->
  exists r d payload res,
    CreateIssue W config issue t = (Val r, t ++ d)
    /\ In (EvJiraCreateIssue payload res) d
    /\ forall u, linked config (Issue issue) payload u = (Val false, u).
Proof.
  intros Hwf Hid Hnz Hsame.
  destruct (wf_source_inv _ Hwf) as (id' & n & body & state & user & login
    & Hid' & Hn & Hb & Hs & Hu & Hl & Hlab).
  destruct (CreateIssue_payload W config issue n t Hwf Hn) as (r & rest & Hrun & _).
  cbv zeta in Hrun.
  eexists r, _, _, _. split; [rewrite Hrun; rewrite <- !app_assoc; reflexivity|].
  split; [cbn [app]; right; right; left; reflexivity|].
  intros u. unfold linked, bind, deref, ret, jira.Int.
  cbn [jira.Fields jira.Unknowns].
  assert (K : GetFieldKey config GitHubID = GetFieldKey config LastISUpdate)
    by (unfold GetFieldKey; now rewrite Hsame).
  rewrite <- K, lookup_insert_eq. rewrite Hid.
  apply Z.eqb_neq in Hnz. now rewrite Hnz.
Qed.

(** ** Instances *)

Import Examples.

Lemma first_link_wins_witness :
  reconcile (refetch_fails [ghA] []) config0 ([jNoID] ++ jA' :: [jA]) ghA []
  = reconcile (refetch_fails [ghA] []) config0 [jA'] ghA [].
Proof.
  apply (first_link_wins (refetch_fails [ghA] []) config0 ghA [jNoID] jA' [jA] []).
  - constructor; [intros u; reflexivity | constructor].
  - intros u. reflexivity.
Defined.

Lemma created_issue_matches_source_witness :
  exists r d,
    CreateIssue (refetch_fails [ghA] []) config0 (translated ghA) [] = (Val r, [] ++ d)
    /\ length (List.filter is_create_call d) = 1
    /\ forall payload res, In (EvJiraCreateIssue payload res) d ->
         (forall u, linked config0 (Issue (translated ghA)) payload u = (Val true, u))
         /\ (forall u, fst (DidIssueChange config0 (translated ghA) payload u) = Val false).
Proof.
  apply (created_issue_matches_source (refetch_fails [ghA] []) config0 (translated ghA) []);
    reflexivity.
Defined.

Lemma update_request_matches_source_witness :
  exists r d,
    UpdateIssue (refetch_fails [ghB] [jA]) config0 (translated ghB) jA [] = (Val r, [] ++ d)
    /\ count is_update_call d = 1%nat
    /\ count is_create_call d = 0%nat
    /\ forall payload res, In (EvJiraUpdateIssue payload res) d ->
         jira.Key payload = jira.Key jA
         /\ jira.ID payload = jira.ID jA
         /\ (exists pf, jira.Fields payload = Some pf
               /\ jira.Type_ pf = jira.Type_ fieldsA
               /\ jira.Unknowns pf !! GetFieldKey config0 GitHubID = None
               /\ jira.Unknowns pf !! GetFieldKey config0 GitHubNumber = None)
         /\ (forall u, fst (DidIssueChange config0 (translated ghB) payload u) = Val false).
Proof.
  apply (update_request_matches_source (refetch_fails [ghB] [jA]) config0 (translated ghB)
           jA fieldsA []); reflexivity.
Defined.

Lemma reconcile_calls_witness :
  exists d,
    reconcile (create_of_A_fails [ghA]) config0 [jNoID] ghA [] = (Val tt, [] ++ d)
    /\ (count is_write d <= 1)%nat
    /\ (count is_refetch d <= 1)%nat
    /\ (count is_comment_sync d <= count is_refetch d)%nat
    /\ (forall e, In e d -> is_write_err e = true ->
          count is_refetch d = 0%nat /\ count is_comment_sync d = 0%nat)
    /\ (forall d1 g j r d2, d = d1 ++ EvCompareComments g j r :: d2 ->
          g = ghA /\ (exists key, In (EvJiraGetIssue key (Ok j)) d1)
          /\ count is_destination_call d2 = 0%nat)
    /\ (forall d1 key res d2, d = d1 ++ EvJiraGetIssue key res :: d2 ->
          count is_write d2 = 0%nat).
Proof.
  apply (reconcile_calls (create_of_A_fails [ghA]) config0 [jNoID] ghA []); reflexivity.
Defined.

Lemma CompareIssues_call_budget_witness :
  exists d,
    CompareIssues (refetch_fails [ghA; ghB] [jA']) config0 [] = (Val None, [] ++ d)
    /\ count is_listing d = 1%nat
    /\ (count is_write d <= 2)%nat
    /\ (count is_refetch d <= 2)%nat
    /\ count is_destination_call d
       = (count is_listing d + count is_write d + count is_refetch d)%nat
    /\ (count is_destination_call d <= 5)%nat
    /\ (count is_comment_sync d <= 2)%nat.
Proof.
  apply (CompareIssues_call_budget (refetch_fails [ghA; ghB] [jA']) config0 []
           [ghA; ghB] [jA']); [reflexivity | discriminate | reflexivity..].
Defined.

Lemma unlinked_issue_is_created_witness :
  exists d,
    reconcile (refetch_fails [ghB] [jA]) config0 [jA; jNoID] ghB [] = (Val tt, [] ++ d)
    /\ count is_create_call d = 1%nat
    /\ count is_update_call d = 0%nat.
Proof.
  apply (unlinked_issue_is_created (refetch_fails [ghB] [jA]) config0 [jA; jNoID] ghB []).
  - reflexivity.
  - repeat constructor; intros u; reflexivity.
Defined.

Lemma linked_issue_is_not_created_witness :
  exists d,
    reconcile (refetch_fails [ghA] []) config0 ([jNoID] ++ jA' :: [jA]) ghA []
    = (Val tt, [] ++ d)
    /\ count is_create_call d = 0%nat
    /\ (count is_update_call d <= 1)%nat.
Proof.
  apply (linked_issue_is_not_created (refetch_fails [ghA] []) config0 ghA [jNoID] jA' [jA] []).
  - reflexivity.
  - reflexivity.
  - constructor; [intros u; reflexivity | constructor].
  - intros u. reflexivity.
Defined.

Lemma destination_listing_error_is_returned_witness :
  CompareIssues (destination_down [ghNoBody; ghA]) config0 []
  = (Val (Some "jira: 503"),
     [] ++ [EvLog Debug MsgCollecting; EvGitHubListIssues (Ok [ghNoBody; ghA]);
            EvJiraListIssues (map github.GetID [ghNoBody; ghA]) (Err "jira: 503")]).
Proof.
  apply (destination_listing_error_is_returned (destination_down [ghNoBody; ghA]) config0 []
           [ghNoBody; ghA] "jira: 503"); [reflexivity | discriminate | reflexivity].
Defined.

Lemma missing_body_stops_pass_witness :
  exists ds,
    CompareIssues (refetch_fails [ghA; ghNoBody; ghB] []) config0 []
    = (Panic, [] ++ pass_header ([ghA] ++ ghNoBody :: [ghB]) [] ++ concat ds)
    /\ Forall2 (reconcile_shape []) [ghA] ds.
Proof.
  apply (missing_body_stops_pass (refetch_fails [ghA; ghNoBody; ghB] []) config0 []
           [ghA] ghNoBody [ghB] []); reflexivity.
Defined.

Lemma shared_field_id_unlinks_created_issue_witness :
  exists r d payload res,
    CreateIssue (refetch_fails [ghA] []) no_field_ids (translated ghA) [] = (Val r, [] ++ d)
    /\ In (EvJiraCreateIssue payload res) d
    /\ forall u, linked no_field_ids (Issue (translated ghA)) payload u = (Val false, u).
Proof.
  apply (shared_field_id_unlinks_created_issue (refetch_fails [ghA] []) no_field_ids
           (translated ghA) 101%Z []); [reflexivity | reflexivity | discriminate | reflexivity].
Defined.

End PassFacts.

(* ===================================================================== *)
(** * Properties of the configuration *)
(* ===================================================================== *)

Module SetupFacts.
Import GoString cfg Setup GoStringFacts SpanFacts Validate.

(** ** Decimal numerals *)

Lemma Sprint_nonempty n : Sprint n <> "".
Proof.
  unfold Sprint. destruct (Z.to_int n) as [d|d]; cbn.
  - destruct d; cbn; discriminate.
  - discriminate.
Qed.

Lemma to_int_not_nil z : Z.to_int z <> Decimal.Pos Decimal.Nil /\ Z.to_int z <> Decimal.Neg Decimal.Nil.
Proof.
  split; intros H; pose proof (DecimalZ.of_to z) as E; rewrite H in E; cbn in E;
    subst z; discriminate H.
Qed.

Lemma Sprint_inj a b : Sprint a = Sprint b -> a = b.
Proof.
  unfold Sprint. intros H.
  destruct (to_int_not_nil a) as [A1 A2]. destruct (to_int_not_nil b) as [B1 B2].
  pose proof (NilZero.isi _ A1 A2) as Ia. pose proof (NilZero.isi _ B1 B2) as Ib.
  rewrite H in Ia. rewrite Ia in Ib. injection Ib as E.
  rewrite <- (DecimalZ.of_to a), <- (DecimalZ.of_to b). now rewrite E.
Qed.

(** ** [strings.Split] *)

Lemma Split_nonempty s sep : Split s sep <> [].
Proof.
  destruct s as [|c s]; cbn [Split]; [discriminate|].
  destruct (Ascii.eqb c sep); [discriminate|]. destruct (Split s sep); discriminate.
Qed.

Lemma length_Split s sep : length (Split s sep) = S (Count s sep).
Proof.
  induction s as [|c s IH]; [reflexivity|]. cbn [Split Count].
  destruct (Ascii.eqb c sep); cbn [length]; [now rewrite IH|].
  destruct (Split s sep) as [|p rest] eqn:E; [now apply Split_nonempty in E|].
  cbn [length] in *. lia.
Qed.

Lemma Join_cons x y l sep : Join (x :: y :: l) sep = x +:+ sep +:+ Join (y :: l) sep.
Proof. reflexivity. Qed.

(** Joining the pieces with the separator gives the string back. *)
Lemma Join_Split s sep : Join (Split s sep) (String sep "") = s.
Proof.
  induction s as [|c s IH]; [reflexivity|]. cbn [Split].
  destruct (Split s sep) as [|p rest] eqn:E; [now apply Split_nonempty in E|].
  destruct (Ascii.eqb c sep) eqn:Ec.
  - apply Ascii.eqb_eq in Ec. subst c. rewrite Join_cons, IH. reflexivity.
  - destruct rest as [|q rest].
    + cbn [Join] in *. now rewrite IH.
    + rewrite Join_cons in *. rewrite append_cons. now rewrite IH.
Qed.

Lemma Split_avoids s sep : Forall (fun p => avoids sep p = true) (Split s sep).
Proof.
  induction s as [|c s IH]; [repeat constructor|]. cbn [Split].
  destruct (Ascii.eqb c sep) eqn:Ec; [now constructor|].
  destruct (Split s sep) as [|p rest]; [repeat constructor; cbn; now rewrite Ec|].
  inversion IH; subst. constructor; [|assumption]. cbn [avoids]. now rewrite Ec.
Qed.

Lemma Count_0_avoids s c : Count s c = 0 <-> avoids c s = true.
Proof.
  split; [|apply Count_avoids].
  induction s as [|b s IH]; [reflexivity|]. cbn [Count avoids].
  destruct (Ascii.eqb b c); [discriminate|]. exact IH.
Qed.

(** ** Repository names *)

Lemma bad_repo_iff repo : bad_repo repo = false <-> Count repo "/" = 1.
Proof.
  unfold bad_repo, Contains. rewrite length_Split.
  rewrite orb_false_iff, !negb_false_iff, negb_true_iff. rewrite Nat.eqb_eq.
  split.
  - intros [_ H]. lia.
  - intros H. split; [|lia].
    destruct (avoids "/" repo) eqn:E; [|reflexivity].
    apply Count_0_avoids in E. lia.
Qed.

(** X20.  The repository test of [validateConfig] accepts exactly the names
    with one slash; it does not ask for a text on either side of the
    slash. *)
Theorem repo_test_counts_slashes repo :
  (bad_repo repo = false <-> Count repo "/" = 1)
  /\ (avoids "/" repo = true ->
      bad_repo (repo +:+ "/") = false /\ bad_repo ("/" +:+ repo) = false).
Proof.
  split; [apply bad_repo_iff|]. intros H. apply Count_avoids in H.
  split; apply bad_repo_iff.
  - rewrite Count_append, H. reflexivity.
  - rewrite Count_append, H. reflexivity.
Qed.

(** A repository name that passed the test is safe for [GetRepo]. *)
Lemma GetRepo_good repo :
  bad_repo repo = false ->
  exists user name,
    GetRepo repo = Some (user, name)
    /\ repo = user +:+ "/" +:+ name
    /\ avoids "/" user = true /\ avoids "/" name = true.
Proof.
  intros H. apply bad_repo_iff in H.
  pose proof (length_Split repo "/") as Hlen. rewrite H in Hlen.
  pose proof (Join_Split repo "/") as HJ.
  pose proof (Split_avoids repo "/") as HA.
  unfold GetRepo.
  destruct (Split repo "/") as [|u [|r [|x rest]]]; try discriminate Hlen.
  exists u, r. cbn [Join] in HJ.
  rewrite !Forall_cons in HA. destruct HA as (Hu & Hr & _).
  repeat split; [now rewrite <- HJ | assumption..].
Qed.

(** X21.  [GetRepo] panics exactly on the names without a slash, and on a
    name with more than one slash it returns the first two pieces and
    drops the rest. *)
Theorem GetRepo_pieces repo :
  (GetRepo repo = None <-> avoids "/" repo = true)
  /\ forall user name rest,
       avoids "/" user = true -> avoids "/" name = true ->
       GetRepo (user +:+ "/" +:+ name +:+ "/" +:+ rest) = Some (user, name).
Proof.
  split.
  - pose proof (length_Split repo "/") as Hlen. unfold GetRepo.
    rewrite <- Count_0_avoids.
    destruct (Split repo "/") as [|u [|r rest]]; cbn [length] in Hlen.
    + lia.
    + split; [intros _; lia | reflexivity].
    + split; [discriminate | intros H; lia].
  - intros user name rest Hu Hn. unfold GetRepo.
    assert (E : forall a tl, avoids "/" a = true ->
              Split (a +:+ "/" +:+ tl) "/" = a :: Split tl "/").
    { intros a tl Ha. induction a as [|c a IH]; [reflexivity|].
      cbn [avoids] in Ha. apply andb_true_iff in Ha as [Hc Ha].
      apply negb_true_iff in Hc. rewrite append_cons. cbn [Split].
      rewrite Hc, (IH Ha). reflexivity. }
    rewrite (E user) by assumption. now rewrite (E name) by assumption.
Qed.

(** ** The custom field IDs *)

Lemma field_name_inj k1 k2 : field_name k1 = field_name k2 -> k1 = k2.
Proof. destruct k1, k2; cbn; intros H; try reflexivity; discriminate H. Qed.

(** One turn of the loop of [getFieldIDs] sets the ID of the field that
    has the name of [field] and leaves the others. *)
Lemma setFieldID_spec ids field key :
  field_of (setFieldID ids field) key
  = if String.eqb (Name field) (field_name key)
    then Sprint (CustomID (Schema field))
    else field_of ids key.
Proof.
  unfold setFieldID. destruct ids as [gid gnum glab grep gstat upd].
  destruct (String.eqb (Name field) "GitHub ID") eqn:E1;
    [apply String.eqb_eq in E1; rewrite E1; now destruct key|].
  destruct (String.eqb (Name field) "GitHub Number") eqn:E2;
    [apply String.eqb_eq in E2; rewrite E2; now destruct key|].
  destruct (String.eqb (Name field) "GitHub Labels") eqn:E3;
    [apply String.eqb_eq in E3; rewrite E3; now destruct key|].
  destruct (String.eqb (Name field) "GitHub Status") eqn:E4;
    [apply String.eqb_eq in E4; rewrite E4; now destruct key|].
  destruct (String.eqb (Name field) "GitHub Reporter") eqn:E5;
    [apply String.eqb_eq in E5; rewrite E5; now destruct key|].
  destruct (String.eqb (Name field) "Last Issue-Sync Update") eqn:E6;
    [apply String.eqb_eq in E6; rewrite E6; now destruct key|].
  destruct key; cbn [field_name]; now rewrite ?E1, ?E2, ?E3, ?E4, ?E5, ?E6.
Qed.

Lemma fold_setFieldID l : forall ids key,
  field_of (fold_left setFieldID l ids) key
  = match last_named (field_name key) l with
    | Some f => Sprint (CustomID (Schema f))
    | None => field_of ids key
    end.
Proof.
  induction l as [|f l IH]; intros ids key; [reflexivity|].
  cbn [fold_left last_named]. rewrite IH.
  destruct (last_named (field_name key) l); [reflexivity|].
  rewrite setFieldID_spec. now destruct (String.eqb (Name f) (field_name key)).
Qed.

Lemma last_named_Some name l f :
  last_named name l = Some f -> In f l /\ Name f = name.
Proof.
  induction l as [|g l IH]; [discriminate|]. cbn [last_named].
  destruct (last_named name l) as [h|].
  - intros H. injection H as ->. destruct (IH eq_refl) as [Hin Hn]. split; [now right|assumption].
  - destruct (String.eqb (Name g) name) eqn:E; [|discriminate].
    intros H. injection H as ->. apply String.eqb_eq in E. split; [now left|assumption].
Qed.

Lemma last_named_None name l :
  last_named name l = None <-> forall f, In f l -> Name f <> name.
Proof.
  induction l as [|g l IH]; cbn [last_named].
  - split; [intros _ f []|reflexivity].
  - destruct (last_named name l) as [h|] eqn:E.
    + split; [discriminate|]. intros H. apply last_named_Some in E as [Hin Hn].
      exfalso. apply (H h); [now right|assumption].
    + destruct (String.eqb (Name g) name) eqn:Eg.
      * split; [discriminate|]. intros H. apply String.eqb_eq in Eg.
        exfalso. apply (H g); [now left|assumption].
      * split; [|reflexivity]. intros _ f [<-|Hin].
        -- now apply String.eqb_neq in Eg.
        -- now apply (proj1 IH eq_refl).
Qed.

Lemma field_of_noFields key : field_of noFields key = "".
Proof. now destruct key. Qed.

(** The IDs that [getFieldIDs] returns once the request has been
    answered. *)
Lemma getFieldIDs_ids client l key :
  NewRequest client = None -> Do client = Ok l ->
  field_of (fst (getFieldIDs client)) key
  = match last_named (field_name key) l with
    | Some f => Sprint (CustomID (Schema f))
    | None => ""
    end.
Proof.
  intros HN HD. unfold getFieldIDs. rewrite HN, HD.
  assert (E : forall e1 e2 : fields * option error, fst e1 = fst e2 ->
            field_of (fst e1) key = field_of (fst e2) key) by (intros ? ? ->; reflexivity).
  rewrite <- (field_of_noFields key), <- fold_setFieldID.
  repeat match goal with
         | |- context [if ?b then _ else _] => destruct b
         end; reflexivity.
Qed.

Lemma eqb_empty_false s : s <> "" -> String.eqb s "" = false.
Proof. intros H. now apply String.eqb_neq. Qed.

Lemma field_of_ids (ids : fields) :
  githubID ids = field_of ids GitHubID
  /\ githubNumber ids = field_of ids GitHubNumber
  /\ githubLabels ids = field_of ids GitHubLabels
  /\ githubStatus ids = field_of ids GitHubStatus
  /\ githubReporter ids = field_of ids GitHubReporter
  /\ lastUpdate ids = field_of ids LastISUpdate.
Proof. repeat split. Qed.

(** [getFieldIDs] returns no error exactly when none of the six IDs it
    has collected is empty. *)
Lemma getFieldIDs_no_error client l :
  NewRequest client = None -> Do client = Ok l ->
  (snd (getFieldIDs client) = None
   <-> forall key, String.eqb (field_of (fold_left setFieldID l noFields) key) "" = false).
Proof.
  intros HN HD. unfold getFieldIDs. rewrite HN, HD. cbv zeta.
  set (ids := fold_left setFieldID l noFields).
  destruct (field_of_ids ids) as (-> & -> & -> & -> & -> & ->).
  split.
  - destruct (String.eqb (field_of ids GitHubID) "") eqn:E1; [discriminate|].
    destruct (String.eqb (field_of ids GitHubNumber) "") eqn:E2; [discriminate|].
    destruct (String.eqb (field_of ids GitHubLabels) "") eqn:E3; [discriminate|].
    destruct (String.eqb (field_of ids GitHubStatus) "") eqn:E4; [discriminate|].
    destruct (String.eqb (field_of ids GitHubReporter) "") eqn:E5; [discriminate|].
    destruct (String.eqb (field_of ids LastISUpdate) "") eqn:E6; [discriminate|].
    intros _ k. now destruct k.
  - intros Hall. now rewrite !Hall.
Qed.

(** An ID is collected exactly for the names that occur in the answer. *)
Lemma collected_iff_named l key :
  String.eqb (field_of (fold_left setFieldID l noFields) key) "" = false
  <-> exists f, last_named (field_name key) l = Some f.
Proof.
  rewrite fold_setFieldID, field_of_noFields.
  destruct (last_named (field_name key) l) as [f|].
  - split; [intros _; now exists f|]. intros _. apply eqb_empty_false, Sprint_nonempty.
  - split; [discriminate|]. intros [f Hf]. discriminate Hf.
Qed.

(** X22.  When the request is answered, [getFieldIDs] succeeds exactly when
    each of the six field names occurs in the answer; names are compared
    byte for byte. *)
Theorem getFieldIDs_succeeds_iff client l :
  NewRequest client = None -> Do client = Ok l ->
  (snd (getFieldIDs client) = None
   <-> forall key, exists f, In f l /\ Name f = field_name key).
Proof.
  intros HN HD. rewrite (getFieldIDs_no_error client l HN HD).
  split; intros H key; specialize (H key).
  - apply collected_iff_named in H as [f Hf]. exists f. now apply last_named_Some.
  - apply collected_iff_named. destruct H as (f & Hin & Hn).
    destruct (last_named (field_name key) l) as [g|] eqn:E; [now exists g|].
    exfalso. apply (proj1 (last_named_None _ _) E f Hin Hn).
Qed.

(** X23.  The ID that [getFieldIDs] returns for a field is the decimal
    numeral of the custom ID of the last field of the answer with that
    name, and the empty string when there is none; it returns these IDs
    also when it returns an error. *)
Theorem getFieldIDs_last_wins client pre f post key :
  NewRequest client = None -> Do client = Ok (pre ++ f :: post) ->
  Name f = field_name key ->
  (forall g, In g post -> Name g <> field_name key) ->
  field_of (fst (getFieldIDs client)) key = Sprint (CustomID (Schema f)).
Proof.
  intros HN HD Hf Hpost. rewrite (getFieldIDs_ids client _ key HN HD).
  assert (E : last_named (field_name key) (pre ++ f :: post) = Some f).
  { clear HD. induction pre as [|g pre IH]; cbn [app last_named].
    - rewrite (proj2 (last_named_None _ _) Hpost).
      now rewrite (proj2 (String.eqb_eq _ _) Hf).
    - now rewrite IH. }
  now rewrite E.
Qed.

(** X24.  When the fields that [getFieldIDs] picks have different custom IDs,
    the six IDs of the configuration are different. *)
Theorem getFieldIDs_distinct client l ps :
  NewRequest client = None -> Do client = Ok l ->
  snd (getFieldIDs client) = None ->
  (forall k1 k2 f1 f2,
     last_named (field_name k1) l = Some f1 ->
     last_named (field_name k2) l = Some f2 ->
     k1 <> k2 -> CustomID (Schema f1) <> CustomID (Schema f2)) ->
  Sync.distinct_field_ids {| fieldIDs := fst (getFieldIDs client); projects := ps |} = true.
Proof.
  intros HN HD Hok Hdist.
  pose proof (proj1 (getFieldIDs_no_error client l HN HD) Hok) as Hall.
  assert (Hne : forall k1 k2, k1 <> k2 ->
            String.eqb (field_of (fst (getFieldIDs client)) k1)
                       (field_of (fst (getFieldIDs client)) k2) = false).
  { intros k1 k2 Hk. apply String.eqb_neq.
    rewrite !(getFieldIDs_ids client l _ HN HD).
    destruct (proj1 (collected_iff_named l k1) (Hall k1)) as [f1 E1].
    destruct (proj1 (collected_iff_named l k2) (Hall k2)) as [f2 E2].
    rewrite E1, E2. intros E. apply Sprint_inj in E. now apply (Hdist k1 k2 f1 f2). }
  unfold Sync.distinct_field_ids. cbn [map Sync.nodupb existsb].
  change (GetFieldID {| fieldIDs := fst (getFieldIDs client); projects := ps |})
    with (field_of (fst (getFieldIDs client))).
  rewrite !Hne by discriminate. reflexivity.
Qed.

(** ** Validation of the settings *)

Lemma empty_true s : empty s = true <-> s = "".
Proof. apply String.eqb_eq. Qed.

Lemma empty_false s : empty s = false <-> s <> "".
Proof. apply String.eqb_neq. Qed.

(** Basic authentication is chosen only with a user and a password, so the
    checks of its branch never fail and never prompt. *)
Lemma checkAuth_basic env v :
  empty (GetString v "jira-user") = false -> empty (GetString v "jira-pass") = false ->
  checkAuth env true v = inl v.
Proof. intros Hu Hp. unfold checkAuth. now rewrite Hu, Hp. Qed.

Lemma checkAuth_password env answer basic v :
  basic = negb (empty (GetString v "jira-user")) && negb (empty (GetString v "jira-pass")) ->
  checkAuth (with_password env answer) basic v = checkAuth env basic v.
Proof.
  intros ->. destruct (empty (GetString v "jira-user")) eqn:Hu;
    destruct (empty (GetString v "jira-pass")) eqn:Hp; cbn [negb andb]; try reflexivity.
  now rewrite !checkAuth_basic.
Qed.

Lemma checkAuth_unchanged env basic v v' :
  basic = negb (empty (GetString v "jira-user")) && negb (empty (GetString v "jira-pass")) ->
  checkAuth env basic v = inl v' -> v' = v.
Proof.
  intros -> H. destruct (empty (GetString v "jira-user")) eqn:Hu;
    destruct (empty (GetString v "jira-pass")) eqn:Hp; cbn [negb andb] in H.
  4:{ rewrite checkAuth_basic in H by assumption. now injection H. }
  all: unfold checkAuth in H;
    repeat match type of H with
           | context [if ?b then _ else _] => destruct b
           | context [match ?x with _ => _ end] => destruct x
           end; try discriminate H; now injection H.
Qed.

(** X25.  [validateConfig] never reaches the password prompt: its result does
    not depend on what is typed there. *)
Theorem password_prompt_is_unreachable env answer c :
  validateConfig (with_password env answer) c = validateConfig env c.
Proof.
  unfold validateConfig.
  destruct (empty (GetString (cmdConfig c) "github-token")); [reflexivity|].
  cbv zeta. cbn [cmdConfig]. rewrite checkAuth_password by reflexivity.
  reflexivity.
Qed.

(** A user name without a password selects OAuth: without an access
    token the validation fails asking for one, and nothing is asked at the
    terminal. *)
Lemma user_without_password_selects_oauth env c :
  empty (GetString (cmdConfig c) "github-token") = false ->
  empty (GetString (cmdConfig c) "jira-pass") = true ->
  empty (GetString (cmdConfig c) "jira-token") = true ->
  validateConfig env c
  = ({| cmdConfig := cmdConfig c; basicAuth := false; since := since c |},
     Some "JIRA access token required").
Proof.
  intros Hg Hp Ht. unfold validateConfig. rewrite Hg, Hp.
  rewrite andb_false_r. cbv zeta. cbn [cmdConfig].
  unfold checkAuth. now rewrite Ht.
Qed.

Lemma checkProjects_ok ps : forall i,
  checkProjects i ps = None ->
  Forall (fun p => empty (Repo p) = false /\ bad_repo (Repo p) = false
                   /\ empty (Key p) = false) ps.
Proof.
  induction ps as [|p ps IH]; intros i H; [constructor|]. cbn [checkProjects] in H.
  destruct (empty (Repo p)) eqn:E1; [discriminate|].
  destruct (bad_repo (Repo p)) eqn:E2; [discriminate|].
  destruct (empty (Key p)) eqn:E3; [discriminate|].
  constructor; [auto|]. now apply (IH (i + 1)%Z).
Qed.

Lemma checkProjects_index ps : forall i j,
  checkProjects i ps = None -> checkProjects j ps = None.
Proof.
  induction ps as [|p ps IH]; intros i j H; [reflexivity|]. cbn [checkProjects] in *.
  destruct (empty (Repo p)); [discriminate|].
  destruct (bad_repo (Repo p)); [discriminate|].
  destruct (empty (Key p)); [discriminate|].
  now apply (IH (i + 1)%Z).
Qed.

Lemma checkRepos_ok v v' :
  checkRepos v = inl v' ->
  Forall (fun p => empty (Repo p) = false /\ bad_repo (Repo p) = false
                   /\ empty (Key p) = false) (projectList v').
Proof.
  unfold checkRepos.
  destruct (negb (empty (GetString v "jira-project"))
            || negb (empty (GetString v "repo-name"))).
  - destruct (empty (GetString v "repo-name")) eqn:E1; [discriminate|].
    destruct (bad_repo (GetString v "repo-name")) eqn:E2; [discriminate|].
    destruct (empty (GetString v "jira-project")) eqn:E3; [discriminate|].
    intros H. injection H as <-. cbn [projectList Set_ SetProjects].
    constructor; [auto|constructor].
  - destruct (checkProjects 0 (projectList v)) eqn:E; [discriminate|].
    intros H. injection H as <-. now apply (checkProjects_ok _ 0%Z).
Qed.

(** What a successful validation went through. *)
Lemma validateConfig_ok env c c' :
  validateConfig env c = (c', None) ->
  exists v1 v2 t,
    empty (GetString (cmdConfig c) "github-token") = false
    /\ checkAuth env (negb (empty (GetString (cmdConfig c) "jira-user"))
                      && negb (empty (GetString (cmdConfig c) "jira-pass")))
         (cmdConfig c) = inl v1
    /\ empty (GetString v1 "jira-uri") = false
    /\ ParseRequestURI env (GetString v1 "jira-uri") = None
    /\ checkRepos v1 = inl v2
    /\ Parse env (GetString v2 "since") = Ok t
    /\ c' = {| cmdConfig := if empty (GetString v2 "since")
                            then Set_ v2 "since" "1970-01-01T00:00:00+0000" else v2;
               basicAuth := negb (empty (GetString (cmdConfig c) "jira-user"))
                            && negb (empty (GetString (cmdConfig c) "jira-pass"));
               since := t |}.
Proof.
  unfold validateConfig.
  destruct (empty (GetString (cmdConfig c) "github-token")) eqn:Eg; [discriminate|].
  cbv zeta. cbn [cmdConfig basicAuth with_config].
  destruct (checkAuth env _ (cmdConfig c)) as [v1|e] eqn:Ea; [|discriminate].
  destruct (empty (GetString v1 "jira-uri")) eqn:Eu; [discriminate|].
  destruct (ParseRequestURI env (GetString v1 "jira-uri")) eqn:Ep; [discriminate|].
  destruct (checkRepos v1) as [v2|e] eqn:Er; [|discriminate].
  destruct (Parse env (GetString v2 "since")) as [t|e] eqn:Et; [|discriminate].
  intros H. injection H as <-. exists v1, v2, t. repeat split; assumption.
Qed.

(** X26.  In a configuration that [validateConfig] accepted, every project
    has a key and a repository name on which [GetRepo] does not panic and
    returns the two names that, joined by a slash, are the repository
    name: the index into the pieces is safe, as [GetRepo] assumes. *)
Theorem validated_repos_are_safe env c c' :
  validateConfig env c = (c', None) ->
  Forall (fun p =>
            Key p <> ""
            /\ exists user name,
                 GetRepo (Repo p) = Some (user, name)
                 /\ Repo p = user +:+ "/" +:+ name)
         (projectList (cmdConfig c')).
Proof.
  intros H. apply validateConfig_ok in H
    as (v1 & v2 & t & _ & _ & _ & _ & Hr & _ & ->).
  apply checkRepos_ok in Hr. cbn [cmdConfig].
  assert (E : projectList (if empty (GetString v2 "since")
                           then Set_ v2 "since" "1970-01-01T00:00:00+0000" else v2)
              = projectList v2) by now destruct (empty _).
  rewrite E. eapply List.Forall_impl; [|exact Hr].
  intros p (_ & Hb & Hk). split; [now apply empty_false|].
  destruct (GetRepo_good _ Hb) as (u & n & Hg & Hj & _). now exists u, n.
Qed.

Lemma GetString_Set_ne v k x k' : k <> k' -> GetString (Set_ v k x) k' = GetString v k'.
Proof. intros H. unfold GetString, Set_. cbn [settings]. now rewrite lookup_insert_ne. Qed.

Lemma GetString_Set_eq v k x : GetString (Set_ v k x) k = x.
Proof. unfold GetString, Set_. cbn [settings]. now rewrite lookup_insert_eq. Qed.

(** The repository check writes the keys of the repository and of the
    project only. *)
Lemma same_but_Set v key x : same_but key v (Set_ v key x).
Proof.
  split; [reflexivity|]. intros k Hk. symmetry. apply GetString_Set_ne. congruence.
Qed.

Lemma GetString_Set v k x k' :
  GetString (Set_ v k x) k' = if decide (k = k') then x else GetString v k'.
Proof.
  destruct (decide (k = k')) as [->|Hk];
    [apply GetString_Set_eq | now apply GetString_Set_ne].
Qed.

(** The credentials are checked without a look at the date. *)
Lemma checkAuth_reads env v w :
  (forall k, k <> "since" -> GetString v k = GetString w k) ->
  checkAuth env (negb (empty (GetString w "jira-user"))
                 && negb (empty (GetString w "jira-pass"))) w = inl w ->
  checkAuth env (negb (empty (GetString v "jira-user"))
                 && negb (empty (GetString v "jira-pass"))) v = inl v.
Proof.
  intros H. unfold checkAuth.
  rewrite !(H _) by discriminate.
  destruct (empty (GetString w "jira-user")); destruct (empty (GetString w "jira-pass"));
    cbn [negb andb]; try reflexivity;
    repeat match goal with
           | |- context [if ?b then _ else _] => destruct b
           | |- context [match ?x with _ => _ end] => destruct x
           end; try discriminate; reflexivity.
Qed.

(** So are the repositories. *)
Lemma checkRepos_reads v w w2 :
  same_but "since" v w ->
  checkRepos w = inl w2 ->
  exists v2, checkRepos v = inl v2 /\ same_but "since" v2 w2
             /\ GetString v2 "since" = GetString v "since".
Proof.
  intros [Hp H]. unfold checkRepos.
  rewrite !(H _) by discriminate. rewrite Hp.
  repeat match goal with
         | |- context [if ?b then _ else _] => destruct b
         | |- context [match checkProjects ?i ?l with _ => _ end] =>
             destruct (checkProjects i l)
         end; try discriminate; intros E; injection E as <-;
    eexists; (split; [reflexivity|]).
  - split; [split; [reflexivity|]|].
    + intros k Hk. rewrite !GetString_Set.
      repeat destruct (decide _); try reflexivity. now apply H.
    + now rewrite !GetString_Set_ne by discriminate.
  - split; [now split|reflexivity].
Qed.

(** X27.  With an empty [since], a configuration that is valid once a date is
    given is rejected with the error of the date: the default date is
    written into the settings, but what is parsed is the empty string.
    The settings that are left hold the default date and agree with the
    settings of the valid configuration everywhere else. *)
Theorem empty_since_is_rejected env c s c1 e :
  empty (GetString (cmdConfig c) "since") = true ->
  validateConfig env (with_config c (Set_ (cmdConfig c) "since" s)) = (c1, None) ->
  Parse env "" = Err e ->
  exists v,
    validateConfig env c
    = ({| cmdConfig := Set_ v "since" "1970-01-01T00:00:00+0000";
          basicAuth := basicAuth c1; since := since c |},
       Some "Since date must be in ISO-8601 format")
    /\ same_but "since" v (cmdConfig c1).
Proof.
  intros Hs Hok Hp. apply empty_true in Hs.
  apply validateConfig_ok in Hok as (v1 & w2 & t & Hg & Ha & Hu & Hq & Hr & Ht & ->).
  cbn [with_config cmdConfig] in *.
  set (w := Set_ (cmdConfig c) "since" s) in *.
  assert (Hw : same_but "since" (cmdConfig c) w) by apply same_but_Set.
  pose proof (checkAuth_unchanged _ _ _ _ eq_refl Ha) as ->.
  apply (checkAuth_reads env (cmdConfig c)) in Ha; [|apply Hw].
  destruct (checkRepos_reads _ _ _ Hw Hr) as (v2 & Hr' & Hv2 & Hsince).
  destruct Hw as [_ Hw].
  exists v2. split.
  - unfold validateConfig. rewrite (Hw "github-token") by discriminate. rewrite Hg.
    cbv zeta. cbn [cmdConfig basicAuth with_config Validate.since]. rewrite Ha.
    rewrite (Hw "jira-uri") by discriminate. rewrite Hu, Hq, Hr'.
    rewrite Hsince, Hs. cbn [empty String.eqb]. rewrite Hp.
    now rewrite (Hw "jira-user"), (Hw "jira-pass") by discriminate.
  - destruct Hv2 as [Hpl Hk]. split.
    + rewrite Hpl. now destruct (empty (GetString w2 "since")).
    + intros k Hne. rewrite (Hk k Hne).
      destruct (empty (GetString w2 "since")); [|reflexivity].
      now rewrite GetString_Set_ne by congruence.
Qed.

Lemma checkRepos_settings v v' k :
  checkRepos v = inl v' -> k <> "repo-name" -> k <> "jira-project" ->
  GetString v' k = GetString v k.
Proof.
  unfold checkRepos. intros H H1 H2.
  repeat match type of H with
         | context [if ?b then _ else _] => destruct b
         | context [match checkProjects ?i ?l with _ => _ end] =>
             destruct (checkProjects i l)
         end; try discriminate H; injection H as <-; try reflexivity.
  rewrite !GetString_Set_ne by congruence. reflexivity.
Qed.

Lemma checkRepos_idem v v' : checkRepos v = inl v' -> checkRepos v' = inl v'.
Proof.
  unfold checkRepos at 1.
  destruct (negb (empty (GetString v "jira-project"))
            || negb (empty (GetString v "repo-name"))) eqn:E.
  - destruct (empty (GetString v "repo-name")) eqn:E1; [discriminate|].
    destruct (bad_repo (GetString v "repo-name")) eqn:E2; [discriminate|].
    destruct (empty (GetString v "jira-project")) eqn:E3; [discriminate|].
    intros H. injection H as <-. unfold checkRepos.
    rewrite GetString_Set_eq, GetString_Set_ne, GetString_Set_eq by discriminate.
    cbn [empty String.eqb negb orb projectList Set_ SetProjects checkProjects Repo Key].
    change (String.eqb "" "") with true. cbn [negb orb].
    unfold empty in *. now rewrite E1, E2, E3.
  - destruct (checkProjects 0 (projectList v)) eqn:Ec; [discriminate|].
    intros H. injection H as <-. unfold checkRepos. now rewrite E, Ec.
Qed.

Lemma checkAuth_settings env v v' :
  (forall k, k <> "repo-name" -> k <> "jira-project" -> GetString v' k = GetString v k) ->
  let basic := negb (empty (GetString v "jira-user"))
               && negb (empty (GetString v "jira-pass")) in
  checkAuth env basic v = inl v -> checkAuth env basic v' = inl v'.
Proof.
  intros Hk basic. subst basic.
  destruct (empty (GetString v "jira-user")) eqn:Hu;
    destruct (empty (GetString v "jira-pass")) eqn:Hp; cbn [negb andb].
  4:{ intros _. apply checkAuth_basic; rewrite Hk by discriminate; assumption. }
  all: unfold checkAuth; rewrite !Hk by discriminate;
    repeat match goal with
           | |- context [if ?b then _ else _] => destruct b
           | |- context [match ?x with _ => _ end] => destruct x
           end; try discriminate; reflexivity.
Qed.

(** X28.  A configuration that [validateConfig] accepted is accepted again
    and left as it is, whether the repository came on its own or in the
    project list. *)
Theorem validated_config_validates_again env c c' :
  empty (GetString (cmdConfig c) "since") = false ->
  validateConfig env c = (c', None) ->
  validateConfig env c' = (c', None).
Proof.
  intros Hs H. apply validateConfig_ok in H
    as (v1 & v2 & t & Hg & Ha & Hu & Hp & Hr & Ht & ->).
  pose proof (checkAuth_unchanged _ _ _ _ eq_refl Ha) as E. subst v1.
  set (v := cmdConfig c) in *.
  assert (Hk : forall k, k <> "repo-name" -> k <> "jira-project" ->
                 GetString v2 k = GetString v k)
    by (intros k; now apply checkRepos_settings).
  rewrite (Hk "since") in * by discriminate. rewrite Hs in *.
  unfold validateConfig. cbn [cmdConfig basicAuth since with_config]. cbv zeta.
  rewrite !Hk by discriminate. rewrite Hg.
  rewrite (checkAuth_settings env v v2 Hk Ha). cbn [cmdConfig basicAuth since].
  rewrite !Hk by discriminate. rewrite Hu, Hp.
  rewrite (checkRepos_idem _ _ Hr).
  rewrite !Hk by discriminate. rewrite Hs, Ht. reflexivity.
Qed.

(** ** Loading the projects *)

Lemma loadProjects_ok client ps : forall m m',
  loadProjects client ps m = (m', None) ->
  Forall (fun p => exists proj, ProjectGet client (Key p) = Found proj) ps
  /\ forall repo,
       m' !! repo
       = match last_repo repo ps with
         | Some p => match ProjectGet client (Key p) with
                     | Found proj => Some proj
                     | Failed _ => None
                     end
         | None => m !! repo
         end.
Proof.
  induction ps as [|p ps IH]; intros m m' H; cbn [loadProjects] in H.
  - injection H as <-. split; [constructor|reflexivity].
  - destruct (ProjectGet client (Key p)) as [proj|[body|err]] eqn:E; try discriminate H.
    destruct (IH _ _ H) as [Hall Hm]. split.
    + constructor; [now exists proj|assumption].
    + intros repo. rewrite Hm. cbn [last_repo].
      destruct (last_repo repo ps); [reflexivity|].
      destruct (String.eqb (Repo p) repo) eqn:Er.
      * apply String.eqb_eq in Er. subst repo. now rewrite lookup_insert_eq, E.
      * apply String.eqb_neq in Er. now rewrite lookup_insert_ne.
Qed.

Lemma last_repo_Some repo ps q :
  last_repo repo ps = Some q -> In q ps /\ Repo q = repo.
Proof.
  induction ps as [|p ps IH]; [discriminate|]. cbn [last_repo].
  destruct (last_repo repo ps) as [r|].
  - intros H. injection H as ->. destruct (IH eq_refl) as [Hin Hr]. split; [now right|assumption].
  - destruct (String.eqb (Repo p) repo) eqn:E; [|discriminate].
    intros H. injection H as ->. apply String.eqb_eq in E. split; [now left|assumption].
Qed.

Lemma last_repo_None repo ps :
  last_repo repo ps = None -> forall p, In p ps -> Repo p <> repo.
Proof.
  induction ps as [|p ps IH]; cbn [last_repo]; [intros _ q []|].
  destruct (last_repo repo ps) as [r|]; [discriminate|].
  destruct (String.eqb (Repo p) repo) eqn:E; [discriminate|].
  intros _ q [<-|Hin]; [now apply String.eqb_neq in E | now apply IH].
Qed.

(** X29.  After a successful [LoadJIRAConfig] every configured repository has
    its project, the one fetched for the last entry of the project list
    with that repository, and the field IDs are those that [getFieldIDs]
    found. *)
Theorem LoadJIRAConfig_maps_every_repo client v c c' :
  LoadJIRAConfig client v c = (c', None) ->
  getFieldIDs (Fields client) = (cfg.fieldIDs c', None)
  /\ forall p, In p (projectList v) ->
       exists q, last_repo (Repo p) (projectList v) = Some q
                 /\ ProjectGet client (Key q) = Found (GetProject c' (Repo p)).
Proof.
  unfold LoadJIRAConfig.
  destruct (loadProjects client (projectList v) (cfg.projects c)) as [m [e|]] eqn:E;
    [discriminate|].
  destruct (getFieldIDs (Fields client)) as [ids err]. intros H. injection H as <- ->.
  split; [reflexivity|]. intros p Hin.
  destruct (loadProjects_ok _ _ _ _ E) as [Hall Hm].
  destruct (last_repo (Repo p) (projectList v)) as [q|] eqn:Eq.
  2:{ exfalso. now apply (last_repo_None _ _ Eq p Hin). }
  exists q. split; [reflexivity|].
  destruct (last_repo_Some _ _ _ Eq) as [Hq _].
  rewrite List.Forall_forall in Hall. destruct (Hall q Hq) as [proj Hp].
  rewrite Hp. f_equal. unfold GetProject. cbn [cfg.projects].
  specialize (Hm (Repo p)). rewrite Eq, Hp in Hm. now rewrite Hm.
Qed.

(** ** Instances *)

Import Samples.

Lemma repo_test_counts_slashes_witness :
  bad_repo "coreos/" = false /\ bad_repo "/issue-sync" = false.
Proof.
  split.
  - apply (proj2 (repo_test_counts_slashes "coreos")). reflexivity.
  - apply (proj2 (repo_test_counts_slashes "issue-sync")). reflexivity.
Defined.

Lemma GetRepo_pieces_witness :
  GetRepo "coreos/issue-sync/issues" = Some ("coreos", "issue-sync").
Proof.
  apply (proj2 (GetRepo_pieces "") "coreos" "issue-sync" "issues"); reflexivity.
Defined.

Lemma getFieldIDs_succeeds_iff_witness :
  snd (getFieldIDs (answers six_fields)) = None
  <-> forall key, exists f, In f six_fields /\ Name f = field_name key.
Proof.
  apply (getFieldIDs_succeeds_iff (answers six_fields) six_fields); reflexivity.
Defined.

Lemma getFieldIDs_last_wins_witness :
  field_of (fst (getFieldIDs (answers six_fields))) GitHubStatus = "10005".
Proof.
  apply (getFieldIDs_last_wins (answers six_fields)
           [ custom "GitHub ID" 10001; custom "GitHub Number" 10002;
             custom "Sprint" 10000; custom "GitHub Labels" 10003;
             custom "GitHub Status" 10009; custom "GitHub Reporter" 10004;
             custom "Last Issue-Sync Update" 10006 ]
           (custom "GitHub Status" 10005) [] GitHubStatus);
    [reflexivity | reflexivity | reflexivity | intros g []].
Defined.

Lemma getFieldIDs_distinct_witness :
  Sync.distinct_field_ids
    {| fieldIDs := fst (getFieldIDs (answers six_fields)); projects := ∅ |} = true.
Proof.
  apply (getFieldIDs_distinct (answers six_fields) six_fields ∅);
    [reflexivity | reflexivity | reflexivity |].
  intros k1 k2 f1 f2; destruct k1, k2; vm_compute; intros H1 H2 Hk;
    first [ now contradiction Hk
          | injection H1 as <-; injection H2 as <-; discriminate ].
Defined.

Lemma validated_repos_are_safe_witness :
  Forall (fun p =>
            Validate.Key p <> ""
            /\ exists user name,
                 GetRepo (Repo p) = Some (user, name)
                 /\ Repo p = user +:+ "/" +:+ name)
         (projectList (cmdConfig (fst (validateConfig plain_env (fresh oauth_settings))))).
Proof.
  apply (validated_repos_are_safe plain_env (fresh oauth_settings)). reflexivity.
Defined.

Lemma empty_since_is_rejected_witness :
  exists v,
    validateConfig plain_env (fresh (Set_ oauth_settings "since" ""))
    = ({| cmdConfig := Set_ v "since" "1970-01-01T00:00:00+0000";
          basicAuth := false; since := 0 |},
       Some "Since date must be in ISO-8601 format")
    /\ same_but "since" v
         (cmdConfig (fst (validateConfig plain_env (fresh oauth_settings)))).
Proof.
  apply (empty_since_is_rejected plain_env (fresh (Set_ oauth_settings "since" ""))
           "2017-08-01T12:00:00+0000"
           (fst (validateConfig plain_env (fresh oauth_settings)))
           "cannot parse"); reflexivity.
Defined.

Lemma validated_config_validates_again_witness :
  validateConfig plain_env (fst (validateConfig plain_env (fresh oauth_settings)))
  = (fst (validateConfig plain_env (fresh oauth_settings)), None).
Proof.
  apply (validated_config_validates_again plain_env (fresh oauth_settings));
    reflexivity.
Defined.

Lemma LoadJIRAConfig_maps_every_repo_witness :
  getFieldIDs (Fields one_project)
  = (cfg.fieldIDs (fst (LoadJIRAConfig one_project listed blank)), None)
  /\ forall p, In p (projectList listed) ->
       exists q, last_repo (Repo p) (projectList listed) = Some q
                 /\ ProjectGet one_project (Validate.Key q)
                    = Found (GetProject (fst (LoadJIRAConfig one_project listed blank))
                               (Repo p)).
Proof.
  apply (LoadJIRAConfig_maps_every_repo one_project listed blank). reflexivity.
Defined.

End SetupFacts.
